(** * cstore_fdw: the foreign-data-wrapper layer of the columnar store

    A shallow embedding of [cstore_fdw.c] / [cstore_fdw.h]: option parsing
    and validation, option resolution with defaults, the on-disk size
    function, file deletion on drop, and the scan callbacks.

    C strings are Rocq strings read up to their first NUL; [ereport(ERROR)]
    is an error result that aborts the computation; [ereport(WARNING)] is an
    event appended to the log. *)

From Stdlib Require Import ZArith String Ascii List Bool Lia.
From Stdlib Require Import DecimalString.
From Stdlib Require DecimalPos DecimalN.
From Stdlib Require Import Sorted.
From stdpp Require Import base option gmap strings list.

Local Open Scope string_scope.
Local Open Scope Z_scope.

(** ** C strings *)

Definition NUL : ascii := Ascii.zero.

(** A Rocq string is a well-formed C string when no NUL occurs inside it
    (the terminator is the end of the Rocq string). *)
Fixpoint nul_free (s : string) : bool :=
  match s with
  | EmptyString => true
  | String c s' => negb (Ascii.eqb c NUL) && nul_free s'
  end.

Definition str_head (s : string) : ascii :=
  match s with EmptyString => NUL | String c _ => c end.

Definition str_tail (s : string) : string :=
  match s with EmptyString => EmptyString | String _ s' => s' end.

Definition uchar (c : ascii) : Z := Z.of_N (N_of_ascii c).

(** [strncmp(s1, s2, n)]: compares at most [n] characters, stops after a
    NUL; the result is the difference of the first differing characters. *)
Fixpoint strncmp (s1 s2 : string) (n : nat) : Z :=
  match n with
  | O => 0
  | S n' =>
      let c1 := str_head s1 in
      let c2 := str_head s2 in
      if Ascii.eqb c1 c2
      then (if Ascii.eqb c1 NUL then 0 else strncmp (str_tail s1) (str_tail s2) n')
      else uchar c1 - uchar c2
  end.

(** ** Fixed-width integers *)

Definition INT32_MIN : Z := - 2 ^ 31.
Definition INT32_MAX : Z := 2 ^ 31 - 1.
Definition INT64_MIN : Z := - 2 ^ 63.
Definition INT64_MAX : Z := 2 ^ 63 - 1.

Definition to_uint32 (z : Z) : Z := z mod 2 ^ 32.
Definition to_uint64 (z : Z) : Z := z mod 2 ^ 64.

(** Two's-complement reading of the low 64 bits. *)
Definition to_int64 (z : Z) : Z := (z + 2 ^ 63) mod 2 ^ 64 - 2 ^ 63.

(** ** The PostgreSQL side

    The values below come from the PostgreSQL server the extension is built
    against, not from the extension.  The model of the extension takes them
    as section variables; [PG] gives the stock values, used to run the model
    on concrete inputs. *)
Module PG.

(** pg_config_manual.h *)
Definition NAMEDATALEN : nat := 64.

(** executor.h *)
Definition EXEC_FLAG_EXPLAIN_ONLY : Z := 1.

Definition DataDir : string := "/var/lib/postgresql/data".

Definition isspace (c : ascii) : bool :=
  let n := N_of_ascii c in
  (n =? 32)%N || ((9 <=? n)%N && (n <=? 13)%N).

Definition isdigit (c : ascii) : bool :=
  let n := N_of_ascii c in
  (48 <=? n)%N && (n <=? 57)%N.

Fixpoint skip_spaces (s : string) : string :=
  match s with
  | String c s' => if isspace c then skip_spaces s' else s
  | EmptyString => s
  end.

(** The leading digits of [s]: how many, their value on top of [acc], and
    the rest of the string. *)
Fixpoint read_digits (s : string) (acc : Z) : nat * Z * string :=
  match s with
  | String c s' =>
      if isdigit c
      then let '(k, v, r) := read_digits s' (10 * acc + (uchar c - 48)) in
           (S k, v, r)
      else (O, acc, s)
  | EmptyString => (O, acc, s)
  end.

(** [pg_atoi(s, sizeof(int32), 0)] of numutils.c: [strtol] in base 10
    (leading white space, an optional sign, digits), an error for the
    empty string, for no digits, for a value outside int32 and for
    anything but white space after the number. *)
Definition pg_atoi (s : string) : option Z :=
  match s with
  | EmptyString => None
  | _ =>
      let s1 := skip_spaces s in
      let '(neg, s2) :=
        match s1 with
        | String "-" r => (true, r)
        | String "+" r => (false, r)
        | _ => (false, s1)
        end in
      let '(k, v, rest) := read_digits s2 0 in
      match k with
      | O => None
      | _ =>
          let l := if neg then - v else v in
          if (l <? INT32_MIN) || (INT32_MAX <? l) then None
          else match skip_spaces rest with
               | EmptyString => Some l
               | _ => None
               end
      end
  end.

(** pg_config.h *)
Definition BLCKSZ : Z := 8192.

(** pg_foreign_table.h *)
Definition ForeignTableRelationId : N := 3118%N.

End PG.

(** ** cstore_fdw.h *)

(** Option names *)
Definition OPTION_NAME_FILENAME : string := "filename".
Definition OPTION_NAME_COMPRESSION_TYPE : string := "compression".
Definition OPTION_NAME_STRIPE_ROW_COUNT : string := "stripe_row_count".
Definition OPTION_NAME_BLOCK_ROW_COUNT : string := "block_row_count".

(** Limits for option parameters *)
Definition STRIPE_ROW_COUNT_MINIMUM : Z := 1000.
Definition STRIPE_ROW_COUNT_MAXIMUM : Z := 10000000.
Definition BLOCK_ROW_COUNT_MINIMUM : Z := 1000.
Definition BLOCK_ROW_COUNT_MAXIMUM : Z := 100000.

(** String representations of compression types *)
Definition COMPRESSION_STRING_NONE : string := "none".
Definition COMPRESSION_STRING_PG_LZ : string := "pglz".
Definition COMPRESSION_STRING_LZ4 : string := "lz4".
Definition COMPRESSION_STRING_ENC_LZ4 : string := "enc_lz4".

Definition CSTORE_FDW_NAME : string := "cstore_fdw".
Definition CSTORE_FOOTER_FILE_SUFFIX : string := ".footer".

(** The enumeration of compression methods. *)
Inductive CompressionType : Set :=
| COMPRESSION_TYPE_INVALID
| COMPRESSION_NONE
| COMPRESSION_PG_LZ
| COMPRESSION_LZ4
| COMPRESSION_ENC_LZ4
| COMPRESSION_ENC_NONE
| COMPRESSION_COUNT.

Definition CompressionType_value (c : CompressionType) : Z :=
  match c with
  | COMPRESSION_TYPE_INVALID => -1
  | COMPRESSION_NONE => 0
  | COMPRESSION_PG_LZ => 1
  | COMPRESSION_LZ4 => 2
  | COMPRESSION_ENC_LZ4 => 3
  | COMPRESSION_ENC_NONE => 4
  | COMPRESSION_COUNT => 5
  end.

#[global] Instance CompressionType_eq_dec : EqDecision CompressionType.
Proof. solve_decision. Defined.

(** Default values for option parameters *)
Definition DEFAULT_COMPRESSION_TYPE : CompressionType := COMPRESSION_NONE.
Definition DEFAULT_STRIPE_ROW_COUNT : Z := 150000.
Definition DEFAULT_BLOCK_ROW_COUNT : Z := 10000.

(** ** Errors

    One constructor per [ereport] of the file (and per error the called
    PostgreSQL functions raise); the arguments are what the message is
    formatted from. *)
Inductive ErrorData : Type :=
| InvalidCompressionType
| InvalidStripeRowCount
| InvalidBlockRowCount
| InvalidIntegerInput (input : string)
| NotACStoreTable
| CouldNotStatFile (path : string)
| CouldNotDeleteFile (path : string)
| CacheLookupFailed (oid : N)
| TriggerNotFiredByManager
| NotADirectory (path : string)
| CouldNotCreateDirectory (path : string)
| RelationDoesNotExist (name : string)
| CouldNotOpenFile (path : string)
| InvalidFooterFile (path : string)
| StripeNotFound (path : string) (offset : Z)
| NullDereference
| InvalidOptionName (name : string) (hint : string)
| CopyColumnListNotSupported
| MustBeSuperuserToCopyProgram
| MustBeSuperuserToCopyFile
| CouldNotStatDirectory (path : string).

Inductive Res (A : Type) : Type :=
| Ok (a : A)
| Raise (e : ErrorData).
Arguments Ok {A} a.
Arguments Raise {A} e.

Definition res_bind {A B} (r : Res A) (k : A → Res B) : Res B :=
  match r with
  | Ok a => k a
  | Raise e => Raise e
  end.


(** ** Catalog and files *)

Definition Oid : Set := N.
Definition InvalidOid : Oid := 0%N.

(** pg_class.h *)
Definition RELKIND_FOREIGN_TABLE : ascii := "f"%char.

(** An option of a foreign table or server: [defGetString] yields [defarg]. *)
Record DefElem : Set := { defname : string; defarg : string }.

Record ForeignTable : Set := { ft_serverid : Oid; ft_options : list DefElem }.
Record ForeignServer : Set := { srv_fdwid : Oid; srv_options : list DefElem }.
Record ForeignDataWrapper : Set := { fdwname : string }.

(** One attribute type per column. *)
Definition TupleDesc : Set := list Oid.

Record RelationData : Set := {
  relkind : ascii;
  rd_node_dbNode : Oid;
  rd_node_relNode : Oid;
  rd_att : TupleDesc
}.

Record Catalog : Type := {
  pg_class : gmap N RelationData;
  pg_foreign_table : gmap N ForeignTable;
  pg_foreign_server : gmap N ForeignServer;
  pg_foreign_data_wrapper : gmap N ForeignDataWrapper;
  (** name resolution of [RangeVarGetRelid] *)
  pg_relname : gmap string N
}.

Record StripeMetadata : Set := {
  fileOffset : Z;
  skipListLength : Z;
  dataLength : Z;
  footerLength : Z
}.

Record TableFooter : Set := {
  stripeMetadataList : list StripeMetadata;
  blockRowCount : Z
}.

(** A row as the caller passes it: [columnValues] and [columnNulls] zipped,
    a null column being [None]. *)
Definition Row : Set := list (option Z).

(** A stripe as it sits in the data file: where it starts and its rows. *)
Record StoredStripe : Set := {
  stripeOffset : Z;
  stripeRows : list Row
}.

(** What a file holds.  The byte layout of the two cstore files is the
    business of the reader and writer; here a file holds the value that was
    serialised into it. *)
Inductive FileContent : Set :=
| TableData (stripes : list StoredStripe)
| FooterData (footer : TableFooter)
| Directory
| OtherData (bytes : list Byte.byte).

Record File : Set := {
  content : FileContent;
  (** [unlink] and writes are refused (EPERM / EACCES) *)
  immutable : bool
}.

(** What happened, oldest first: the system calls made on paths and the
    warnings reported. *)
Inductive Event : Type :=
| SysStat (path : string)
| SysUnlink (path : string)
| SysMkdir (path : string)
| SysOpen (path : string)
| SysWrite (path : string)
| SysClose (path : string)
| Warning (e : ErrorData).

Record State : Type := {
  catalog : Catalog;
  fs : gmap string File;
  events : list Event
}.

Definition set_fs (f : gmap string File → gmap string File) (st : State) : State :=
  {| catalog := catalog st; fs := f (fs st); events := events st |}.

Definition emit (ev : Event) (st : State) : State :=
  {| catalog := catalog st; fs := fs st; events := events st ++ [ev] |}.

(** ** The monad of backend code: state, and errors that unwind *)

Definition M (A : Type) : Type := State → Res A * State.

Definition ret {A} (a : A) : M A := λ st, (Ok a, st).

Definition bind {A B} (m : M A) (k : A → M B) : M B :=
  λ st, match m st with
        | (Ok a, st') => k a st'
        | (Raise e, st') => (Raise e, st')
        end.

Definition ereport_ERROR {A} (e : ErrorData) : M A := λ st, (Raise e, st).

Definition ereport_WARNING (e : ErrorData) : M unit :=
  λ st, (Ok tt, emit (Warning e) st).

Declare Scope cstore_scope.
Delimit Scope cstore_scope with cstore.
Notation "'let*' x := m 'in' k" := (bind m (λ x, k))
  (at level 10, x name, m at level 100, k at level 200,
   format "'[v' 'let*'  x  :=  m  'in' '/' k ']'") : cstore_scope.
Notation "'run' m 'then' k" := (bind m (λ _, k))
  (at level 10, m at level 100, k at level 200,
   format "'[v' 'run'  m  'then' '/' k ']'") : cstore_scope.
Local Open Scope cstore_scope.

(** ** System calls *)

Record StatBuf : Set := { st_size : Z; st_isdir : bool }.

Definition is_directory (c : FileContent) : bool :=
  match c with Directory => true | _ => false end.

(** errno.h: the values [stat] and [mkdir] leave behind on the paths of this
    file. *)
Inductive Errno : Set :=
| ENOENT
| ENOTDIR
| EEXIST
| EPERM.

#[global] Instance Errno_eq_dec : EqDecision Errno.
Proof. solve_decision. Defined.

(** The directories a path leads through, the one nearest to the root
    first: the non-empty prefixes of the path that end before a "/".  (The
    root itself is not among them: it is always there.) *)
Fixpoint ancestors (path : string) : list string :=
  match path with
  | EmptyString => []
  | String c rest =>
      (match rest with
       | String "/" _ => [String c EmptyString]
       | _ => []
       end ++ (String c <$> ancestors rest))%list
  end.

(** What is wrong with [d] as a directory to walk through. *)
Definition dir_errno (files : gmap string File) (d : string) : option Errno :=
  match files !! d with
  | None => Some ENOENT
  | Some f => if is_directory (content f) then None else Some ENOTDIR
  end.

(** What stops the kernel on its way to where [path] lies: the first of the
    directories above it that is missing or is not a directory. *)
Definition walk_errno (files : gmap string File) (path : string) : option Errno :=
  head (omap (dir_errno files) (ancestors path)).

(** [errno] after [stat(path)] has failed on a path that is not there:
    ENOTDIR when the walk met a file of another kind, else ENOENT.  (Search
    permission is not part of the file model, so EACCES does not arise.) *)
Definition stat_errno (files : gmap string File) (path : string) : Errno :=
  default ENOENT (walk_errno files path).

(** Whether the directory [path] is to be made in refuses new entries. *)
Definition parent_immutable (files : gmap string File) (path : string) : bool :=
  match last (ancestors path) with
  | Some d => match files !! d with
              | Some f => immutable f
              | None => false
              end
  | None => false
  end.

(** [errno] of [mkdir(path)], [None] when the directory can be made: the
    walk to it must succeed, nothing may be there yet, and the directory it
    goes into must take new entries. *)
Definition mkdir_errno (files : gmap string File) (path : string) : option Errno :=
  match walk_errno files path with
  | Some e => Some e
  | None =>
      match files !! path with
      | Some _ => Some EEXIST
      | None => if parent_immutable files path then Some EPERM else None
      end
  end.

(** ** cstore_fdw.c *)

Record CStoreFdwOptions : Set := {
  filename : string;
  compressionType : CompressionType;
  stripeRowCount : Z;     (* uint64 *)
  opt_blockRowCount : Z   (* uint32 *)
}.

(** Whether [unlink], or opening for writing, can succeed on [path]. *)
Definition unlink_succeeds (files : gmap string File) (path : string) : bool :=
  match files !! path with
  | Some f => negb (immutable f || is_directory (content f))
  | None => false
  end.

Definition writable (files : gmap string File) (path : string) : bool :=
  match files !! path with
  | Some f => negb (immutable f || is_directory (content f))
  | None => true
  end.

Definition is_syscall (ev : Event) : bool :=
  match ev with Warning _ => false | _ => true end.

(** The system calls among the events. *)
Definition syscalls (evs : list Event) : list Event := List.filter is_syscall evs.

(** *** Sessions (cstore_fdw.h) *)

Record Var : Set := { varattno : Z }.

(** A restriction clause [column op constant]; the block pruning that reads
    it is not part of this model. *)
Record Expr : Set := { opno : Oid; leftColumn : Z; rightConst : Z }.

(** The decoded stripe a read session holds. *)
Record StripeData : Set := {
  columnCount : Z;
  rowCount : Z;
  stripeDataRows : list Row
}.

Record TableReadState : Set := {
  tableFile : string;
  tableFooter : TableFooter;
  tupleDescriptor : TupleDesc;
  projectedColumnList : list Var;
  whereClauseList : list Expr;
  stripeData : option StripeData;
  readStripeCount : Z;      (* uint32 *)
  stripeReadRowCount : Z    (* uint64 *)
}.

Record TableWriteState : Set := {
  ws_tableFile : string;
  ws_tableFooter : TableFooter;
  ws_tableFooterFilename : string;
  ws_compressionType : CompressionType;
  ws_tupleDescriptor : TupleDesc;
  currentFileOffset : Z;
  ws_stripeData : list Row;
  stripeMaxRowCount : Z     (* uint32 *)
}.

(** *** Executor structures *)

Record ForeignScan : Set := {
  fdw_private : list (list Var);
  qual : list Expr
}.

Record TupleTableSlot : Set := {
  tts_tupleDescriptor : TupleDesc;
  tts_values : list Z;
  tts_isnull : list bool;
  tts_isempty : bool
}.

Record ForeignScanState : Set := {
  ss_currentRelation : Oid;
  ss_plan : ForeignScan;
  ss_ScanTupleSlot : TupleTableSlot;
  fdw_state : option TableReadState
}.

Definition set_fdw_state (rs : option TableReadState) (ss : ForeignScanState)
    : ForeignScanState :=
  {| ss_currentRelation := ss_currentRelation ss;
     ss_plan := ss_plan ss;
     ss_ScanTupleSlot := ss_ScanTupleSlot ss;
     fdw_state := rs |}.

Definition set_ScanTupleSlot (slot : TupleTableSlot) (ss : ForeignScanState)
    : ForeignScanState :=
  {| ss_currentRelation := ss_currentRelation ss;
     ss_plan := ss_plan ss;
     ss_ScanTupleSlot := slot;
     fdw_state := fdw_state ss |}.

(** The statements the event trigger looks at. *)
Inductive Node : Set :=
| T_CreateForeignServerStmt (fdwname : string)
| T_CreateForeignTableStmt (relation : string)
| T_OtherStmt.

(** *** Planner and utility structures *)

#[global] Instance Var_eq_dec : EqDecision Var.
Proof. solve_decision. Defined.

(** CStoreValidOption keeps an option name and a context. *)
Record CStoreValidOption : Set := {
  optionName : string;
  optionContextId : Oid
}.

Record RestrictInfo : Set := {
  clause : Expr;
  pseudoconstant : bool
}.

(** The fields of the planner's relation information that are integers or
    lists ([pages], [tuples], [width] and the costs are floating point). *)
Record RelOptInfo : Set := {
  max_attr : Z;               (* AttrNumber *)
  reltargetlist : list Var;
  baserestrictinfo : list RestrictInfo
}.

Record CopyStmt : Set := {
  copy_relation : string;
  attlist : list string;
  is_from : bool;
  is_program : bool;
  copy_filename : option string;
  copy_options : list DefElem
}.

Inductive ObjectType : Set :=
| OBJECT_FOREIGN_TABLE
| OBJECT_TABLE
| OBJECT_OTHER.

(** [objects] holds one relation name per dropped object. *)
Record DropStmt : Set := {
  objects : list string;
  removeType : ObjectType
}.

(** The statements the utility hook looks at; any other statement is a
    [Node]. *)
Inductive UtilityStmt : Set :=
| T_CopyStmt (copyStatement : CopyStmt)
| T_DropStmt (dropStatement : DropStmt)
| T_Utility (statement : Node).

(** The rows a COPY source still has to deliver: what [NextCopyFrom] puts
    into [columnValues] and [columnNulls], call after call. *)
Definition CopyState : Set := list (list Z * list bool).

Record ExplainState : Set := { costs : bool }.

Inductive ExplainProperty : Set :=
| PropertyText (label value : string)
| PropertyLong (label : string) (value : Z).

(** list.c: [list_member] with [equal], and [list_union], which copies the
    first list and appends the members of the second that the result does
    not hold yet. *)
Definition list_member {A} `{EqDecision A} (l : list A) (x : A) : bool :=
  existsb (λ y, bool_decide (y = x)) l.

Definition list_union {A} `{EqDecision A} (list1 list2 : list A) : list A :=
  fold_left (λ result x, if list_member result x then result
                         else (result ++ [x])%list) list2 list1.

Definition to_int32 (z : Z) : Z := (z + 2 ^ 31) mod 2 ^ 32 - 2 ^ 31.

(** ** A small installation

    One database with one cstore table [t] (compression pglz, 20000 rows per
    stripe, default block size), a second cstore table [u] that keeps every
    default, and a plain foreign table [v] of another wrapper. *)
Module Demo.

Definition t_oid : Oid := 16385%N.
Definition u_oid : Oid := 16386%N.
Definition v_oid : Oid := 16387%N.

Definition t_path : string := "/srv/cstore/t.cstore".

Definition cat : Catalog :=
  {| pg_class :=
       {[ t_oid := {| relkind := "f"; rd_node_dbNode := 12345%N;
                      rd_node_relNode := 16385%N; rd_att := [23%N; 25%N] |};
          u_oid := {| relkind := "f"; rd_node_dbNode := 12345%N;
                      rd_node_relNode := 16386%N; rd_att := [23%N] |};
          v_oid := {| relkind := "f"; rd_node_dbNode := 12345%N;
                      rd_node_relNode := 16387%N; rd_att := [23%N] |} ]};
     pg_foreign_table :=
       {[ t_oid := {| ft_serverid := 16384%N;
                      ft_options :=
                        [ {| defname := "filename"; defarg := t_path |};
                          {| defname := "compression"; defarg := "pglz" |};
                          {| defname := "stripe_row_count"; defarg := "20000" |} ] |};
          u_oid := {| ft_serverid := 16384%N; ft_options := [] |};
          v_oid := {| ft_serverid := 16390%N; ft_options := [] |} ]};
     pg_foreign_server :=
       {[ 16384%N := {| srv_fdwid := 16383%N; srv_options := [] |};
          16390%N := {| srv_fdwid := 16389%N; srv_options := [] |} ]};
     pg_foreign_data_wrapper :=
       {[ 16383%N := {| fdwname := "cstore_fdw" |};
          16389%N := {| fdwname := "file_fdw" |} ]};
     pg_relname := {[ "t" := t_oid; "u" := u_oid; "v" := v_oid ]} |}.

Definition t_rows : list Row := [[Some 1; Some 10]; [Some 2; None]].

Definition t_footer : TableFooter :=
  {| stripeMetadataList :=
       [ {| fileOffset := 0; skipListLength := 8; dataLength := 200;
            footerLength := 8 |} ];
     blockRowCount := 10000 |}.

Definition t_data : FileContent :=
  TableData [ {| stripeOffset := 0; stripeRows := t_rows |} ].

(** The two files of [t] after a load of two rows. *)
Definition files : gmap string File :=
  {[ t_path := {| content := t_data; immutable := false |};
     t_path +:+ ".footer" := {| content := FooterData t_footer;
                                immutable := false |} ]}.

(** The same, with a footer file that cannot be removed. *)
Definition files_locked_footer : gmap string File :=
  {[ t_path := {| content := t_data; immutable := false |};
     t_path +:+ ".footer" := {| content := FooterData t_footer;
                                immutable := true |} ]}.

Definition state : State := {| catalog := cat; fs := files; events := [] |}.

Definition state_locked_footer : State :=
  {| catalog := cat; fs := files_locked_footer; events := [] |}.

(** Before CREATE FOREIGN TABLE has run: no file yet. *)
Definition state_no_files : State := {| catalog := cat; fs := ∅; events := [] |}.

(** Sizes for the demonstration: 24 bytes per stripe entry on top of a
    16-byte footer header, 100 bytes per stored row. *)
Definition file_size (c : FileContent) : Z :=
  match c with
  | TableData stripes =>
      100 * Z.of_nat (length (concat (stripeRows <$> stripes)))
  | FooterData footer => 16 + 24 * Z.of_nat (length (stripeMetadataList footer))
  | Directory => 4096
  | OtherData bytes => Z.of_nat (length bytes)
  end.

Definition stripe_lengths (c : CompressionType) (blockRows : Z) (rows : list Row)
    : Z * Z * Z :=
  (8, 100 * Z.of_nat (length rows), 8).

Definition scan_of_t : ForeignScanState :=
  {| ss_currentRelation := t_oid;
     ss_plan := {| fdw_private := [[ {| varattno := 1 |}; {| varattno := 2 |} ]];
                   qual := [] |};
     ss_ScanTupleSlot := {| tts_tupleDescriptor := [23%N; 25%N];
                            tts_values := [0; 0];
                            tts_isnull := [true; true];
                            tts_isempty := true |};
     fdw_state := Some {| tableFile := t_path;
                          tableFooter := t_footer;
                          tupleDescriptor := [23%N; 25%N];
                          projectedColumnList := [ {| varattno := 1 |} ];
                          whereClauseList := [];
                          stripeData := Some {| columnCount := 2; rowCount := 2;
                                                stripeDataRows := t_rows |};
                          readStripeCount := 1;
                          stripeReadRowCount := 1 |} |}.

(** The data directory and the directories above it, before CREATE SERVER
    has run. *)
Definition files_pgdata : gmap string File :=
  {[ "/var" := {| content := Directory; immutable := false |};
     "/var/lib" := {| content := Directory; immutable := false |};
     "/var/lib/postgresql" := {| content := Directory; immutable := false |};
     "/var/lib/postgresql/data" := {| content := Directory; immutable := false |} ]}.

Definition state_pgdata : State :=
  {| catalog := cat; fs := files_pgdata; events := [] |}.

(** The same with something else in the place of the data directory. *)
Definition state_pgdata_as (f : File) : State :=
  {| catalog := cat; fs := <["/var/lib/postgresql/data" := f]> files_pgdata;
     events := [] |}.

(** The scan of [t] as EXPLAIN sets it up: no read session. *)
Definition explain_scan_of_t : ForeignScanState := set_fdw_state None scan_of_t.

(** Every clause of the demonstration compares one column with a constant. *)
Definition pull_var_clause (e : Expr) : list Var := [ {| varattno := leftColumn e |} ].

(** SELECT b, t FROM t WHERE a < 5 AND <a clause that is constant>: [b] and a
    whole-row reference in the target list, [a] in a restriction. *)
Definition t_rel : RelOptInfo :=
  {| max_attr := 2;
     reltargetlist := [ {| varattno := 2 |}; {| varattno := 0 |} ];
     baserestrictinfo :=
       [ {| clause := {| opno := 97%N; leftColumn := 1; rightConst := 5 |};
            pseudoconstant := false |};
         {| clause := {| opno := 96%N; leftColumn := 2; rightConst := 2 |};
            pseudoconstant := true |} ] |}.

(** COPY t FROM STDIN, with three rows on the input. *)
Definition copy_into_t : CopyStmt :=
  {| copy_relation := "t"; attlist := []; is_from := true; is_program := false;
     copy_filename := None; copy_options := [] |}.

Definition copy_input : CopyState :=
  [ ([1; 10], [false; false]); ([2; 0], [false; true]); ([3; 30], [false; false]) ].

Definition BeginCopyFrom (relation : RelationData) (filename : option string)
    (is_program : bool) (options : list DefElem) : M CopyState :=
  ret copy_input.

(** DROP FOREIGN TABLE v, t, w: [t] is the one cstore table, [w] does not
    exist. *)
Definition drop_v_t_w : DropStmt :=
  {| objects := ["v"; "t"; "w"]; removeType := OBJECT_FOREIGN_TABLE |}.

(** A standard utility that does its work elsewhere and reports a tag. *)
Definition standard_ProcessUtility (parseTree : UtilityStmt) (completionTag : bool)
    : M (option string) :=
  ret (if completionTag
       then Some match parseTree with
                 | T_CopyStmt _ => "COPY 0"
                 | T_DropStmt _ => "DROP FOREIGN TABLE"
                 | T_Utility _ => "UTILITY"
                 end
       else None).

End Demo.

Section CStoreFdw.

(** From the PostgreSQL build and installation (see [PG]). *)
Variable NAMEDATALEN : nat.
Variable pg_atoi : string → option Z.
Variable DataDir : string.

(** The size in bytes of what a file holds, as [stat] reports it in
    [st_size]. *)
Variable file_size : FileContent → Z.

(** [stat(path, &buf)]: [None] for a result other than 0. *)
Definition stat (path : string) : M (option StatBuf) :=
  λ st, (Ok ((λ f, {| st_size := file_size (content f);
                      st_isdir := is_directory (content f) |}) <$> fs st !! path),
         emit (SysStat path) st).

(** [unlink(path)]: 0 and the file is gone, or -1 and nothing changes. *)
Definition unlink (path : string) : M Z :=
  λ st, match fs st !! path with
        | Some f =>
            if immutable f || is_directory (content f)
            then (Ok (-1), emit (SysUnlink path) st)
            else (Ok 0, emit (SysUnlink path) (set_fs (delete path) st))
        | None => (Ok (-1), emit (SysUnlink path) st)
        end.

(** Catalog lookups; the lookup functions of foreign.c raise an error when
    the entry is missing, [get_rel_relkind] returns NUL. *)
Definition get_rel_relkind (cat : Catalog) (relid : Oid) : ascii :=
  match pg_class cat !! relid with
  | Some r => relkind r
  | None => NUL
  end.

Definition lookup_or_fail {A} (m : gmap N A) (oid : Oid) : Res A :=
  match m !! oid with
  | Some a => Ok a
  | None => Raise (CacheLookupFailed oid)
  end.

Definition GetForeignTable (cat : Catalog) (relid : Oid) : Res ForeignTable :=
  lookup_or_fail (pg_foreign_table cat) relid.

Definition GetForeignServer (cat : Catalog) (serverid : Oid) : Res ForeignServer :=
  lookup_or_fail (pg_foreign_server cat) serverid.

Definition GetForeignDataWrapper (cat : Catalog) (fdwid : Oid) : Res ForeignDataWrapper :=
  lookup_or_fail (pg_foreign_data_wrapper cat) fdwid.

Definition relation_open (cat : Catalog) (relid : Oid) : Res RelationData :=
  lookup_or_fail (pg_class cat) relid.

(** Runs a read-only catalog computation. *)
Definition with_catalog {A} (f : Catalog → Res A) : M A :=
  λ st, (f (catalog st), st).

(** CStoreTable checks if the given relation is a foreign columnar store
    table. *)
Definition CStoreTable (cat : Catalog) (relationId : Oid) : Res bool :=
  if decide (relationId = InvalidOid) then Ok false
  else if Ascii.eqb (get_rel_relkind cat relationId) RELKIND_FOREIGN_TABLE
  then res_bind (GetForeignTable cat relationId) (λ foreignTable,
       res_bind (GetForeignServer cat (ft_serverid foreignTable)) (λ server,
       res_bind (GetForeignDataWrapper cat (srv_fdwid server)) (λ foreignDataWrapper,
       Ok (strncmp (fdwname foreignDataWrapper) CSTORE_FDW_NAME NAMEDATALEN =? 0))))
  else Ok false.

(** ParseCompressionType converts a string to a compression type. *)
Definition ParseCompressionType (compressionTypeString : string) : CompressionType :=
  if strncmp compressionTypeString COMPRESSION_STRING_NONE NAMEDATALEN =? 0
  then COMPRESSION_NONE
  else if strncmp compressionTypeString COMPRESSION_STRING_PG_LZ NAMEDATALEN =? 0
  then COMPRESSION_PG_LZ
  else if strncmp compressionTypeString COMPRESSION_STRING_LZ4 NAMEDATALEN =? 0
  then COMPRESSION_LZ4
  else if strncmp compressionTypeString COMPRESSION_STRING_ENC_LZ4 NAMEDATALEN =? 0
  then COMPRESSION_ENC_LZ4
  else COMPRESSION_TYPE_INVALID.

(** [pg_atoi] with its error. *)
Definition call_pg_atoi (s : string) : Res Z :=
  match pg_atoi s with
  | Some v => Ok v
  | None => Raise (InvalidIntegerInput s)
  end.

(** ValidateForeignTableOptions: an absent option ([NULL]) is [None]. *)
Definition ValidateForeignTableOptions
    (filename compressionTypeString stripeRowCountString blockRowCountString
       : option string) : Res unit :=
  res_bind
    match compressionTypeString with
    | Some s =>
        if decide (ParseCompressionType s = COMPRESSION_TYPE_INVALID)
        then Raise InvalidCompressionType else Ok tt
    | None => Ok tt
    end (λ _,
  res_bind
    match stripeRowCountString with
    | Some s =>
        res_bind (call_pg_atoi s) (λ stripeRowCount,
          if (stripeRowCount <? STRIPE_ROW_COUNT_MINIMUM)
             || (stripeRowCount >? STRIPE_ROW_COUNT_MAXIMUM)
          then Raise InvalidStripeRowCount else Ok tt)
    | None => Ok tt
    end (λ _,
    match blockRowCountString with
    | Some s =>
        res_bind (call_pg_atoi s) (λ blockRowCount,
          if (blockRowCount <? BLOCK_ROW_COUNT_MINIMUM)
             || (blockRowCount >? BLOCK_ROW_COUNT_MAXIMUM)
          then Raise InvalidBlockRowCount else Ok tt)
    | None => Ok tt
    end)).

(** The first option of the list whose name matches. *)
Fixpoint find_option (optionList : list DefElem) (optionName : string) : option string :=
  match optionList with
  | [] => None
  | optionDef :: rest =>
      if strncmp (defname optionDef) optionName NAMEDATALEN =? 0
      then Some (defarg optionDef)
      else find_option rest optionName
  end.

(** CStoreGetOptionValue walks over foreign table and foreign server
    options, and looks for the option with the given name. *)
Definition CStoreGetOptionValue (cat : Catalog) (foreignTableId : Oid)
    (optionName : string) : Res (option string) :=
  res_bind (GetForeignTable cat foreignTableId) (λ foreignTable,
  res_bind (GetForeignServer cat (ft_serverid foreignTable)) (λ foreignServer,
  Ok (find_option (ft_options foreignTable ++ srv_options foreignServer) optionName))).

(** The [%u] conversion. *)
Definition format_u (n : N) : string := NilZero.string_of_uint (N.to_uint n).

(** CStoreDefaultFilePath: $PGDATA/cstore_fdw/{databaseOid}/{relfilenode}. *)
Definition CStoreDefaultFilePath (cat : Catalog) (foreignTableId : Oid) : Res string :=
  res_bind (relation_open cat foreignTableId) (λ relation,
  Ok (DataDir +:+ "/" +:+ CSTORE_FDW_NAME +:+ "/"
        +:+ format_u (rd_node_dbNode relation) +:+ "/"
        +:+ format_u (rd_node_relNode relation))).

(** CStoreGetOptions returns the option values to be used when reading and
    writing the cstore file. *)
Definition CStoreGetOptions (cat : Catalog) (foreignTableId : Oid) : Res CStoreFdwOptions :=
  res_bind (CStoreGetOptionValue cat foreignTableId OPTION_NAME_FILENAME) (λ filename,
  res_bind (CStoreGetOptionValue cat foreignTableId OPTION_NAME_COMPRESSION_TYPE)
    (λ compressionTypeString,
  res_bind (CStoreGetOptionValue cat foreignTableId OPTION_NAME_STRIPE_ROW_COUNT)
    (λ stripeRowCountString,
  res_bind (CStoreGetOptionValue cat foreignTableId OPTION_NAME_BLOCK_ROW_COUNT)
    (λ blockRowCountString,
  res_bind (ValidateForeignTableOptions filename compressionTypeString
              stripeRowCountString blockRowCountString) (λ _,
  let compressionType :=
    match compressionTypeString with
    | Some s => ParseCompressionType s
    | None => DEFAULT_COMPRESSION_TYPE
    end in
  res_bind
    match stripeRowCountString with
    | Some s => call_pg_atoi s
    | None => Ok DEFAULT_STRIPE_ROW_COUNT
    end (λ stripeRowCount,
  res_bind
    match blockRowCountString with
    | Some s => call_pg_atoi s
    | None => Ok DEFAULT_BLOCK_ROW_COUNT
    end (λ blockRowCount,
  res_bind
    match filename with
    | Some f => Ok f
    | None => CStoreDefaultFilePath cat foreignTableId
    end (λ filename,
  Ok {| filename := filename;
        compressionType := compressionType;
        stripeRowCount := to_uint64 stripeRowCount;
        opt_blockRowCount := to_uint32 blockRowCount |})))))))).

(** DeleteCStoreTableFiles deletes the data and footer files for a cstore
    table whose data filename is given. *)
Definition DeleteCStoreTableFiles (filename : string) : M unit :=
  let tableFooterFilename := filename +:+ CSTORE_FOOTER_FILE_SUFFIX in
  let* footerFileRemoved := unlink tableFooterFilename in
  run (if footerFileRemoved =? 0 then ret tt
       else ereport_WARNING (CouldNotDeleteFile tableFooterFilename)) then
  let* dataFileRemoved := unlink filename in
  if dataFileRemoved =? 0 then ret tt
  else ereport_WARNING (CouldNotDeleteFile filename).

(** cstore_table_size returns the total on-disk size of a cstore table in
    bytes. *)
Definition cstore_table_size (relationId : Oid) : M Z :=
  let tableSize := 0 in
  let* cstoreTable := with_catalog (λ cat, CStoreTable cat relationId) in
  run (if negb cstoreTable then ereport_ERROR NotACStoreTable else ret tt) then
  let* cstoreFdwOptions := with_catalog (λ cat, CStoreGetOptions cat relationId) in
  let dataFilename := filename cstoreFdwOptions in
  let* dataFileStat := stat dataFilename in
  match dataFileStat with
  | None => ereport_ERROR (CouldNotStatFile dataFilename)
  | Some dataFileStatBuffer =>
      let footerFilename := dataFilename +:+ CSTORE_FOOTER_FILE_SUFFIX in
      let* footerFileStat := stat footerFilename in
      match footerFileStat with
      | None => ereport_ERROR (CouldNotStatFile footerFilename)
      | Some footerFileStatBuffer =>
          let tableSize := to_int64 (tableSize + st_size dataFileStatBuffer) in
          let tableSize := to_int64 (tableSize + st_size footerFileStatBuffer) in
          ret tableSize
      end
  end.

(** *** Directories *)

Variable MyDatabaseId : Oid.

(** [mkdir(path, S_IRWXU)]: 0 and the directory is there, or -1 and nothing
    changes. *)
Definition mkdir (path : string) : M Z :=
  λ st, match mkdir_errno (fs st) path with
        | Some _ => (Ok (-1), emit (SysMkdir path) st)
        | None =>
            (Ok 0, emit (SysMkdir path)
                     (set_fs (insert path {| content := Directory; immutable := false |}) st))
        end.

(** [errno], read after a [stat(path)] that failed. *)
Definition errno_after_stat (path : string) : M Errno :=
  λ st, (Ok (stat_errno (fs st) path), st).

(** DirectoryExists checks if a directory exists for the given directory
    name. *)
Definition DirectoryExists (directoryName : string) : M bool :=
  let directoryExists := true in
  let* directoryStat := stat directoryName in
  match directoryStat with
  | Some buf =>
      if negb (st_isdir buf) then ereport_ERROR (NotADirectory directoryName)
      else ret directoryExists
  | None =>
      let* errno := errno_after_stat directoryName in
      if bool_decide (errno = ENOENT) then ret false
      else ereport_ERROR (CouldNotStatDirectory directoryName)
  end.

(** CreateDirectory creates a new directory with the given directory name. *)
Definition CreateDirectory (directoryName : string) : M unit :=
  let* makeOK := mkdir directoryName in
  if negb (makeOK =? 0) then ereport_ERROR (CouldNotCreateDirectory directoryName)
  else ret tt.

(** CreateCStoreDatabaseDirectory creates $PGDATA/cstore_fdw/{databaseOid}
    and its parent, if needed. *)
Definition CreateCStoreDatabaseDirectory (databaseOid : Oid) : M unit :=
  let cstoreDirectoryPath := DataDir +:+ "/" +:+ CSTORE_FDW_NAME in
  let* cstoreDirectoryExists := DirectoryExists cstoreDirectoryPath in
  run (if negb cstoreDirectoryExists then CreateDirectory cstoreDirectoryPath
       else ret tt) then
  let cstoreDatabaseDirectoryPath :=
    DataDir +:+ "/" +:+ CSTORE_FDW_NAME +:+ "/" +:+ format_u databaseOid in
  let* databaseDirectoryExists := DirectoryExists cstoreDatabaseDirectoryPath in
  if negb databaseDirectoryExists then CreateDirectory cstoreDatabaseDirectoryPath
  else ret tt.

(** *** The write and read sessions

    [cstore_writer.c] and [cstore_reader.c] are separate compilation units:
    this layer sees their declarations in [cstore_fdw.h] only.  The
    definitions of this part follow the design document, with a file holding
    the stripes and the footer themselves rather than their bytes; block
    boundaries, compression and predicate pruning are left out. *)

(** The serialised lengths of a stripe's skip list, data and footer. *)
Variable stripe_lengths : CompressionType → Z → list Row → Z * Z * Z.

Definition write_file (path : string) (c : FileContent) : M unit :=
  λ st, if writable (fs st) path
        then (Ok tt, emit (SysWrite path)
                       (set_fs (insert path {| content := c; immutable := false |}) st))
        else (Raise (CouldNotOpenFile path), emit (SysWrite path) st).

Definition read_file (path : string) : M FileContent :=
  λ st, match fs st !! path with
        | Some f => (Ok (content f), emit (SysOpen path) st)
        | None => (Raise (CouldNotOpenFile path), emit (SysOpen path) st)
        end.

Definition close_file (path : string) : M unit :=
  λ st, (Ok tt, emit (SysClose path) st).

(** Modelled from the spec: [CStoreBeginWrite] of cstore_writer.c,
    "open(target, compressionKind, stripeMaxRowCount, blockRowCount, schema)
    -> session".  The data file is created empty; the footer, with an empty
    stripe list and the configured block row count, is kept in memory until
    the session is closed. *)
Definition CStoreBeginWrite (filename : string) (compressionType : CompressionType)
    (stripeMaxRowCount : Z) (blockRowCount : Z) (tupleDescriptor : TupleDesc)
    : M TableWriteState :=
  run write_file filename (TableData []) then
  ret {| ws_tableFile := filename;
         ws_tableFooter := {| stripeMetadataList := [];
                              blockRowCount := to_uint64 blockRowCount |};
         ws_tableFooterFilename := filename +:+ CSTORE_FOOTER_FILE_SUFFIX;
         ws_compressionType := compressionType;
         ws_tupleDescriptor := tupleDescriptor;
         currentFileOffset := 0;
         ws_stripeData := [];
         stripeMaxRowCount := to_uint32 stripeMaxRowCount |}.

(** Modelled from the spec: the flush of a stripe in cstore_writer.c.  The
    buffered rows are appended to the data file as one stripe and its
    [StripeMetadata] is appended to the footer held in memory. *)
Definition FlushStripe (ws : TableWriteState) : M TableWriteState :=
  let rows := ws_stripeData ws in
  let footer := ws_tableFooter ws in
  let '(skipLen, dataLen, footLen) :=
    stripe_lengths (ws_compressionType ws) (blockRowCount footer) rows in
  let metadata := {| fileOffset := currentFileOffset ws;
                     skipListLength := skipLen;
                     dataLength := dataLen;
                     footerLength := footLen |} in
  let* old := read_file (ws_tableFile ws) in
  let stripes := match old with TableData l => l | _ => [] end in
  run write_file (ws_tableFile ws)
        (TableData (stripes ++ [{| stripeOffset := currentFileOffset ws;
                                   stripeRows := rows |}])) then
  ret {| ws_tableFile := ws_tableFile ws;
         ws_tableFooter :=
           {| stripeMetadataList := stripeMetadataList footer ++ [metadata];
              blockRowCount := blockRowCount footer |};
         ws_tableFooterFilename := ws_tableFooterFilename ws;
         ws_compressionType := ws_compressionType ws;
         ws_tupleDescriptor := ws_tupleDescriptor ws;
         currentFileOffset := currentFileOffset ws + skipLen + dataLen + footLen;
         ws_stripeData := [];
         stripeMaxRowCount := stripeMaxRowCount ws |}.

Definition make_row (columnValues : list Z) (columnNulls : list bool) : Row :=
  zip_with (λ v (isnull : bool), if isnull then None else Some v)
    columnValues columnNulls.

(** Modelled from the spec: [CStoreWriteRow] of cstore_writer.c,
    "writeRow(values, nulls)".  The row is buffered; the stripe is flushed
    when the buffered rows reach [stripeMaxRowCount]. *)
Definition CStoreWriteRow (ws : TableWriteState) (columnValues : list Z)
    (columnNulls : list bool) : M TableWriteState :=
  let ws' :=
    {| ws_tableFile := ws_tableFile ws;
       ws_tableFooter := ws_tableFooter ws;
       ws_tableFooterFilename := ws_tableFooterFilename ws;
       ws_compressionType := ws_compressionType ws;
       ws_tupleDescriptor := ws_tupleDescriptor ws;
       currentFileOffset := currentFileOffset ws;
       ws_stripeData := ws_stripeData ws ++ [make_row columnValues columnNulls];
       stripeMaxRowCount := stripeMaxRowCount ws |} in
  if Z.of_nat (length (ws_stripeData ws')) >=? stripeMaxRowCount ws'
  then FlushStripe ws' else ret ws'.

(** Modelled from the spec: [CStoreEndWrite] of cstore_writer.c,
    "close(session) which flushes any non-empty stripe and writes the
    footer". *)
Definition CStoreEndWrite (ws : TableWriteState) : M unit :=
  let* ws' := match ws_stripeData ws with
              | [] => ret ws
              | _ :: _ => FlushStripe ws
              end in
  run write_file (ws_tableFooterFilename ws') (FooterData (ws_tableFooter ws')) then
  close_file (ws_tableFile ws').

(** Modelled from the spec: [CStoreReadFooter] of cstore_reader.c,
    "readFooter(path) -> footer"; a file that does not hold a footer is a
    format error. *)
Definition CStoreReadFooter (tableFooterFilename : string) : M TableFooter :=
  let* c := read_file tableFooterFilename in
  match c with
  | FooterData footer => ret footer
  | _ => ereport_ERROR (InvalidFooterFile tableFooterFilename)
  end.

(** Modelled from the spec: [CStoreBeginRead] of cstore_reader.c,
    "open(target, schema, projectedColumns, predicates) -> session"; the
    footer is read fully at the start of the session, no stripe is loaded
    and no row has been read. *)
Definition CStoreBeginRead (filename : string) (tupleDescriptor : TupleDesc)
    (projectedColumnList : list Var) (whereClauseList : list Expr)
    : M TableReadState :=
  let tableFooterFilename := filename +:+ CSTORE_FOOTER_FILE_SUFFIX in
  let* tableFooter := CStoreReadFooter tableFooterFilename in
  let* _ := read_file filename in
  ret {| tableFile := filename;
         tableFooter := tableFooter;
         tupleDescriptor := tupleDescriptor;
         projectedColumnList := projectedColumnList;
         whereClauseList := whereClauseList;
         stripeData := None;
         readStripeCount := 0;
         stripeReadRowCount := 0 |}.

(** Modelled from the spec: the load of one stripe in cstore_reader.c; the
    footer entry says where the stripe starts. *)
Definition LoadStripe (rs : TableReadState) (metadata : StripeMetadata) : M StripeData :=
  let* c := read_file (tableFile rs) in
  let stripes := match c with TableData l => l | _ => [] end in
  match List.find (λ s, stripeOffset s =? fileOffset metadata) stripes with
  | Some s =>
      ret {| columnCount := Z.of_nat (length (tupleDescriptor rs));
             rowCount := Z.of_nat (length (stripeRows s));
             stripeDataRows := stripeRows s |}
  | None => ereport_ERROR (StripeNotFound (tableFile rs) (fileOffset metadata))
  end.

(** Columns outside the projection come back null. *)
Definition project (columns : list Var) (row : Row) : Row :=
  imap (λ i v, if existsb (λ c, varattno c =? Z.of_nat (S i)) columns
               then v else None) row.

Definition with_cursor (sd : option StripeData) (stripes rows : Z)
    (rs : TableReadState) : TableReadState :=
  {| tableFile := tableFile rs;
     tableFooter := tableFooter rs;
     tupleDescriptor := tupleDescriptor rs;
     projectedColumnList := projectedColumnList rs;
     whereClauseList := whereClauseList rs;
     stripeData := sd;
     readStripeCount := stripes;
     stripeReadRowCount := rows |}.

(** The first row of the first non-empty stripe among [remaining]. *)
Fixpoint next_stripe_row (remaining : list StripeMetadata) (rs : TableReadState)
    : M (option Row * TableReadState) :=
  match remaining with
  | [] => ret (None, with_cursor None (readStripeCount rs) 0 rs)
  | metadata :: rest =>
      let* sd := LoadStripe rs metadata in
      match stripeDataRows sd with
      | row :: _ =>
          ret (Some (project (projectedColumnList rs) row),
               with_cursor (Some sd) (readStripeCount rs + 1) 1 rs)
      | [] => next_stripe_row rest (with_cursor None (readStripeCount rs + 1) 0 rs)
      end
  end.

(** Modelled from the spec: [CStoreReadNextRow] of cstore_reader.c,
    "nextRow() -> row | end-of-data": rows come in stripe order, then in
    row order; [None] is end-of-data (the C function returns false). *)
Definition CStoreReadNextRow (rs : TableReadState) : M (option Row * TableReadState) :=
  let remaining :=
    drop (Z.to_nat (readStripeCount rs)) (stripeMetadataList (tableFooter rs)) in
  match stripeData rs with
  | Some sd =>
      match stripeDataRows sd !! Z.to_nat (stripeReadRowCount rs) with
      | Some row =>
          ret (Some (project (projectedColumnList rs) row),
               with_cursor (Some sd) (readStripeCount rs) (stripeReadRowCount rs + 1) rs)
      | None => next_stripe_row remaining rs
      end
  | None => next_stripe_row remaining rs
  end.

(** Modelled from the spec: [CStoreEndRead] of cstore_reader.c,
    "close(session)". *)
Definition CStoreEndRead (rs : TableReadState) : M unit :=
  close_file (tableFile rs).

(** *** The event trigger *)

(** [RangeVarGetRelid(relation, lock, false)]. *)
Definition RangeVarGetRelid (cat : Catalog) (relation : string) : Res Oid :=
  match pg_relname cat !! relation with
  | Some relid => Ok relid
  | None => Raise (RelationDoesNotExist relation)
  end.

(** cstore_ddl_event_end_trigger creates the directories after CREATE SERVER
    and valid data and footer files after CREATE FOREIGN TABLE. *)
Definition cstore_ddl_event_end_trigger (calledAsEventTrigger : bool)
    (parseTree : Node) : M unit :=
  run (if negb calledAsEventTrigger then ereport_ERROR TriggerNotFiredByManager
       else ret tt) then
  match parseTree with
  | T_CreateForeignServerStmt foreignWrapperName =>
      if strncmp foreignWrapperName CSTORE_FDW_NAME NAMEDATALEN =? 0
      then CreateCStoreDatabaseDirectory MyDatabaseId
      else ret tt
  | T_CreateForeignTableStmt relation =>
      let* relationId := with_catalog (λ cat, RangeVarGetRelid cat relation) in
      let* cstoreTable := with_catalog (λ cat, CStoreTable cat relationId) in
      if cstoreTable then
        let* relation := with_catalog (λ cat, relation_open cat relationId) in
        let tupleDescriptor := rd_att relation in
        let* cstoreFdwOptions := with_catalog (λ cat, CStoreGetOptions cat relationId) in
        let* writeState := CStoreBeginWrite (filename cstoreFdwOptions)
                             (compressionType cstoreFdwOptions)
                             (stripeRowCount cstoreFdwOptions)
                             (opt_blockRowCount cstoreFdwOptions)
                             tupleDescriptor in
        CStoreEndWrite writeState
      else ret tt
  | T_OtherStmt => ret tt
  end.

(** *** The scan callbacks *)

Variable EXEC_FLAG_EXPLAIN_ONLY : Z.

(** CStoreBeginForeignScan starts reading the underlying cstore file. *)
Definition CStoreBeginForeignScan (scanState : ForeignScanState) (executorFlags : Z)
    : M ForeignScanState :=
  let tupleSlot := ss_ScanTupleSlot scanState in
  let tupleDescriptor := tts_tupleDescriptor tupleSlot in
  if negb (Z.land executorFlags EXEC_FLAG_EXPLAIN_ONLY =? 0) then ret scanState
  else
    let foreignTableId := ss_currentRelation scanState in
    let* cstoreFdwOptions := with_catalog (λ cat, CStoreGetOptions cat foreignTableId) in
    let foreignScan := ss_plan scanState in
    let foreignPrivateList := fdw_private foreignScan in
    let whereClauseList := qual foreignScan in
    match foreignPrivateList with
    | [] => ereport_ERROR NullDereference
    | columnList :: _ =>
        let* readState := CStoreBeginRead (filename cstoreFdwOptions) tupleDescriptor
                            columnList whereClauseList in
        ret (set_fdw_state (Some readState) scanState)
    end.

(** CStoreIterateForeignScan reads the next record from the cstore file and
    stores it into the scan tuple slot as a virtual tuple. *)
Definition CStoreIterateForeignScan (scanState : ForeignScanState)
    : M ForeignScanState :=
  match fdw_state scanState with
  | None => ereport_ERROR NullDereference
  | Some readState =>
      let tupleSlot := ss_ScanTupleSlot scanState in
      let tupleDescriptor := tts_tupleDescriptor tupleSlot in
      let columnCount := length tupleDescriptor in
      let* next := CStoreReadNextRow readState in
      let '(nextRow, readState) := next in
      let tupleSlot :=
        match nextRow with
        | Some row =>
            {| tts_tupleDescriptor := tupleDescriptor;
               tts_values := (λ v : option Z, default 0 v) <$> row;
               tts_isnull := (λ v : option Z, bool_decide (v = None)) <$> row;
               tts_isempty := false |}
        | None =>
            {| tts_tupleDescriptor := tupleDescriptor;
               tts_values := replicate columnCount 0;
               tts_isnull := replicate columnCount true;
               tts_isempty := true |}
        end in
      ret (set_fdw_state (Some readState) (set_ScanTupleSlot tupleSlot scanState))
  end.

(** CStoreEndForeignScan finishes scanning the foreign table. *)
Definition CStoreEndForeignScan (scanState : ForeignScanState) : M unit :=
  match fdw_state scanState with
  | Some readState => CStoreEndRead readState
  | None => ret tt
  end.

(** CStoreReScanForeignScan rescans the foreign table. *)
Definition CStoreReScanForeignScan (scanState : ForeignScanState) : M ForeignScanState :=
  run CStoreEndForeignScan scanState then
  CStoreBeginForeignScan scanState 0.


(** *** The option validator *)

(** pg_foreign_table.h *)
Variable ForeignTableRelationId : Oid.

(** Array of options that are valid for cstore_fdw *)
Definition ValidOptionCount : Z := 4.
Definition ValidOptionArray : list CStoreValidOption :=
  [ {| optionName := OPTION_NAME_FILENAME; optionContextId := ForeignTableRelationId |};
    {| optionName := OPTION_NAME_COMPRESSION_TYPE;
       optionContextId := ForeignTableRelationId |};
    {| optionName := OPTION_NAME_STRIPE_ROW_COUNT;
       optionContextId := ForeignTableRelationId |};
    {| optionName := OPTION_NAME_BLOCK_ROW_COUNT;
       optionContextId := ForeignTableRelationId |} ].

(** OptionNamesString finds all options that are valid for the current
    context, and concatenates these option names in a comma separated
    string.  The loop state is the string and [firstOptionAppended]. *)
Definition OptionNamesString (currentContextId : Oid) : string :=
  fst (fold_left
         (λ '(optionNamesString, firstOptionAppended) validOption,
            if bool_decide (currentContextId = optionContextId validOption)
            then ((if firstOptionAppended : bool
                   then optionNamesString +:+ ", " else optionNamesString)
                    +:+ optionName validOption, true)
            else (optionNamesString, firstOptionAppended))
         (take (Z.to_nat ValidOptionCount) ValidOptionArray)
         ("", false)).

(** The inner loop of the validator: is there a valid option of this name
    in this context? *)
Definition option_is_valid (optionContextId0 : Oid) (optionName0 : string) : bool :=
  existsb (λ validOption,
             bool_decide (optionContextId0 = optionContextId validOption)
             && (strncmp optionName0 (optionName validOption) NAMEDATALEN =? 0))
    (take (Z.to_nat ValidOptionCount) ValidOptionArray).

(** The values the validator has seen so far: [filename],
    [compressionTypeString], [stripeRowCountString], [blockRowCountString]. *)
Definition SeenOptions : Set :=
  (option string * option string * option string * option string)%type.

(** One turn of the outer loop of the validator. *)
Definition validate_option (optionContextId0 : Oid) (seen : SeenOptions)
    (optionDef : DefElem) : Res SeenOptions :=
  let '(filename, compressionTypeString, stripeRowCountString, blockRowCountString) :=
    seen in
  let optionName0 := defname optionDef in
  if negb (option_is_valid optionContextId0 optionName0)
  then Raise (InvalidOptionName optionName0 (OptionNamesString optionContextId0))
  else if strncmp optionName0 OPTION_NAME_FILENAME NAMEDATALEN =? 0
  then Ok (Some (defarg optionDef), compressionTypeString, stripeRowCountString,
           blockRowCountString)
  else if strncmp optionName0 OPTION_NAME_COMPRESSION_TYPE NAMEDATALEN =? 0
  then Ok (filename, Some (defarg optionDef), stripeRowCountString, blockRowCountString)
  else if strncmp optionName0 OPTION_NAME_STRIPE_ROW_COUNT NAMEDATALEN =? 0
  then Ok (filename, compressionTypeString, Some (defarg optionDef), blockRowCountString)
  else if strncmp optionName0 OPTION_NAME_BLOCK_ROW_COUNT NAMEDATALEN =? 0
  then Ok (filename, compressionTypeString, stripeRowCountString, Some (defarg optionDef))
  else Ok seen.

Fixpoint validate_options (optionContextId0 : Oid) (seen : SeenOptions)
    (optionList : list DefElem) : Res SeenOptions :=
  match optionList with
  | [] => Ok seen
  | optionDef :: rest =>
      res_bind (validate_option optionContextId0 seen optionDef) (λ seen',
      validate_options optionContextId0 seen' rest)
  end.

(** cstore_fdw_validator validates options given to one of the following
    commands: foreign data wrapper, server, user mapping, or foreign table.
    [optionList] is the untransformed option array. *)
Definition cstore_fdw_validator (optionList : list DefElem) (optionContextId0 : Oid)
    : Res unit :=
  res_bind (validate_options optionContextId0 (None, None, None, None) optionList)
    (λ '(filename, compressionTypeString, stripeRowCountString, blockRowCountString),
       if bool_decide (optionContextId0 = ForeignTableRelationId)
       then ValidateForeignTableOptions filename compressionTypeString
              stripeRowCountString blockRowCountString
       else Ok tt).

(** *** Planning *)

(** pg_config.h *)
Variable BLCKSZ : Z.

(** PageCount calculates and returns the number of pages in a file.
    [10 * BLCKSZ] is an [int] product, the sum an [off_t] one, the page
    count a [BlockNumber] (uint32); the division is C's. *)
Definition PageCount (filename : string) : M Z :=
  let* statResult := stat filename in
  let st_size0 := match statResult with
                  | Some statBuffer => st_size statBuffer
                  | None => to_int32 (10 * BLCKSZ)
                  end in
  let pageCount := to_uint32 (Z.quot (to_int64 (st_size0 + (BLCKSZ - 1))) BLCKSZ) in
  ret (if pageCount <? 1 then 1 else pageCount).

(** var.c, with the flags the extension passes. *)
Variable pull_var_clause : Expr → list Var.

(** ColumnList finds all columns needed for query execution, including those
    used in projections, joins, and filter clauses, de-duplicates these
    columns, and returns them in a new list. *)
Definition ColumnList (baserel : RelOptInfo) : list Var :=
  let columnCount := max_attr baserel in
  let targetColumnList := reltargetlist baserel in
  let restrictInfoList := baserestrictinfo baserel in
  let neededColumnList :=
    fold_left (λ neededColumnList restrictInfo,
                 list_union neededColumnList (pull_var_clause (clause restrictInfo)))
      restrictInfoList targetColumnList in
  fold_left (λ columnList columnIndex,
               match List.find (λ neededColumn, varattno neededColumn =? columnIndex)
                       neededColumnList with
               | Some column => (columnList ++ [column])%list
               | None => columnList
               end)
    (seqZ 1 columnCount) [].

(** restrictinfo.c *)
Definition extract_actual_clauses (restrictinfo_list : list RestrictInfo)
    (pseudoconstant0 : bool) : list Expr :=
  clause <$> List.filter (λ rinfo, eqb (pseudoconstant rinfo) pseudoconstant0)
               restrictinfo_list.

(** CStoreGetForeignPlan creates a ForeignScan plan node for scanning the
    foreign table; the query column list goes into the node's private list.
    (Of the plan node, the model keeps the private list and the quals.) *)
Definition CStoreGetForeignPlan (baserel : RelOptInfo) (scanClauses : list RestrictInfo)
    : ForeignScan :=
  let scanClauses := extract_actual_clauses scanClauses false in
  let columnList := ColumnList baserel in
  let foreignPrivateList := [columnList] in
  {| fdw_private := foreignPrivateList; qual := scanClauses |}.

(** CStoreExplainForeignScan produces extra output for the Explain command:
    the properties it adds, in order. *)
Definition CStoreExplainForeignScan (scanState : ForeignScanState)
    (explainState : ExplainState) : M (list ExplainProperty) :=
  let foreignTableId := ss_currentRelation scanState in
  let* cstoreFdwOptions := with_catalog (λ cat, CStoreGetOptions cat foreignTableId) in
  let output := [PropertyText "CStore File" (filename cstoreFdwOptions)] in
  if costs explainState then
    let* statResult := stat (filename cstoreFdwOptions) in
    match statResult with
    | Some statBuffer =>
        ret (output ++ [PropertyLong "CStore File Size"
                          (to_int64 (st_size statBuffer))])%list
    | None => ret output
    end
  else ret output.

(** CStoreAnalyzeForeignTable sets the total page count (the sampling
    function it also sets is always the same); the result is the returned
    flag and [totalPageCount]. *)
Definition CStoreAnalyzeForeignTable (foreignTableId : Oid) : M (bool * Z) :=
  let* cstoreFdwOptions := with_catalog (λ cat, CStoreGetOptions cat foreignTableId) in
  let* statResult := stat (filename cstoreFdwOptions) in
  match statResult with
  | None => ereport_ERROR (CouldNotStatFile (filename cstoreFdwOptions))
  | Some _ =>
      let* totalPageCount := PageCount (filename cstoreFdwOptions) in
      ret (true, totalPageCount)
  end.

(** *** The utility hook *)

Variable superuser : bool.

(** copy.c: opens the COPY source. *)
Variable BeginCopyFrom :
  RelationData → option string → bool → list DefElem → M CopyState.

(** The loop of [CopyIntoCStoreTable]: [NextCopyFrom] hands out the rows one
    by one and reports false when [copyState] is exhausted. *)
Fixpoint copy_rows (copyState : CopyState) (writeState : TableWriteState)
    (processedRowCount : Z) : M (TableWriteState * Z) :=
  match copyState with
  | [] => ret (writeState, processedRowCount)
  | (columnValues, columnNulls) :: rest =>
      let* writeState := CStoreWriteRow writeState columnValues columnNulls in
      copy_rows rest writeState (to_uint64 (processedRowCount + 1))
  end.

(** CopyIntoCStoreTable handles a "COPY cstore_table FROM" statement and
    returns the number of copied rows. *)
Definition CopyIntoCStoreTable (copyStatement : CopyStmt) : M Z :=
  run (match attlist copyStatement with
       | [] => ret tt
       | _ :: _ => ereport_ERROR CopyColumnListNotSupported
       end) then
  run (if bool_decide (copy_filename copyStatement ≠ None) && negb superuser
       then if is_program copyStatement
            then ereport_ERROR MustBeSuperuserToCopyProgram
            else ereport_ERROR MustBeSuperuserToCopyFile
       else ret tt) then
  let* relationId :=
    with_catalog (λ cat, RangeVarGetRelid cat (copy_relation copyStatement)) in
  let* relation := with_catalog (λ cat, relation_open cat relationId) in
  let tupleDescriptor := rd_att relation in
  let* cstoreFdwOptions := with_catalog (λ cat, CStoreGetOptions cat relationId) in
  let* copyState := BeginCopyFrom relation (copy_filename copyStatement)
                      (is_program copyStatement) (copy_options copyStatement) in
  let* writeState := CStoreBeginWrite (filename cstoreFdwOptions)
                       (compressionType cstoreFdwOptions)
                       (stripeRowCount cstoreFdwOptions)
                       (opt_blockRowCount cstoreFdwOptions)
                       tupleDescriptor in
  let* copied := copy_rows copyState writeState 0 in
  run CStoreEndWrite (fst copied) then
  ret (snd copied).

(** utility.c, and the hook that was installed before this one; the flag
    says whether a completion tag is wanted, the result is the tag. *)
Variable standard_ProcessUtility : UtilityStmt → bool → M (option string).
Variable PreviousProcessUtilityHook : option (UtilityStmt → bool → M (option string)).

(** [RangeVarGetRelid(relation, lock, true)]. *)
Definition RangeVarGetRelid_missing_ok (cat : Catalog) (relation : string) : Oid :=
  default InvalidOid (pg_relname cat !! relation).

(** The loop over the objects of a DROP FOREIGN TABLE: [tableFilename] is
    [Some] exactly when [dropCStoreTable] is set. *)
Fixpoint drop_table_filename (cat : Catalog) (dropObjects : list string)
    (tableFilename : option string) : Res (option string) :=
  match dropObjects with
  | [] => Ok tableFilename
  | tableName :: rest =>
      let relationId := RangeVarGetRelid_missing_ok cat tableName in
      res_bind (CStoreTable cat relationId) (λ cstoreTable,
      if cstoreTable : bool
      then res_bind (CStoreGetOptions cat relationId) (λ cstoreFdwOptions,
           drop_table_filename cat rest (Some (filename cstoreFdwOptions)))
      else drop_table_filename cat rest tableFilename)
  end.

(** CStoreProcessUtility is the hook for handling utility commands. *)
Definition CStoreProcessUtility (parseTree : UtilityStmt) (completionTag : bool)
    : M (option string) :=
  let* copyIntoCStoreTable :=
    with_catalog (λ cat,
      match parseTree with
      | T_CopyStmt copyStatement =>
          if is_from copyStatement
          then res_bind (RangeVarGetRelid cat (copy_relation copyStatement))
                 (λ relationId,
               res_bind (CStoreTable cat relationId) (λ cstoreTable,
               Ok (if cstoreTable : bool then Some copyStatement else None)))
          else Ok None
      | _ => Ok None
      end) in
  let* tableFilename :=
    with_catalog (λ cat,
      match parseTree with
      | T_DropStmt dropStatement =>
          match removeType dropStatement with
          | OBJECT_FOREIGN_TABLE =>
              drop_table_filename cat (objects dropStatement) None
          | _ => Ok None
          end
      | _ => Ok None
      end) in
  let* tag :=
    match copyIntoCStoreTable with
    | Some copyStatement =>
        let* processed := CopyIntoCStoreTable copyStatement in
        ret (if completionTag
             then Some ("COPY " +:+ format_u (Z.to_N processed)) else None)
    | None =>
        match PreviousProcessUtilityHook with
        | Some hook => hook parseTree completionTag
        | None => standard_ProcessUtility parseTree completionTag
        end
    end in
  match tableFilename with
  | Some f => run DeleteCStoreTableFiles f then ret tag
  | None => ret tag
  end.

(** * Properties *)

(** ** String comparison *)

Lemma uchar_inj c1 c2 : uchar c1 = uchar c2 → c1 = c2.
Proof using Type.
  unfold uchar. intros H. apply Z2N.inj_iff in H; try lia.
  rewrite !N2Z.id in H.
  rewrite <- (ascii_N_embedding c1), <- (ascii_N_embedding c2). by rewrite H.
Qed.

Lemma ascii_eqb_false_uchar c1 c2 : Ascii.eqb c1 c2 = false → uchar c1 - uchar c2 ≠ 0.
Proof using Type.
  intros Hne Hz. assert (c1 = c2) as -> by (apply uchar_inj; lia).
  by rewrite Ascii.eqb_refl in Hne.
Qed.

(** Against a NUL-free literal shorter than the bound, [strncmp] is 0 exactly
    on the literal itself. *)
Lemma strncmp_literal lit : ∀ s n,
  nul_free lit = true → nul_free s = true → (String.length lit < n)%nat →
  strncmp s lit n = 0 ↔ s = lit.
Proof using Type.
  induction lit as [|a lit IH]; intros s n Hlit Hs Hn.
  - destruct n as [|n]; [simpl in Hn; lia|].
    destruct s as [|c s]; cbn [strncmp str_head str_tail]; [done|].
    cbn [nul_free] in Hs. apply andb_true_iff in Hs as [Hc _].
    apply negb_true_iff in Hc. rewrite Hc. split; [|done].
    intros H. by apply ascii_eqb_false_uchar in H.
  - destruct n as [|n]; [simpl in Hn; lia|].
    cbn [nul_free] in Hlit. apply andb_true_iff in Hlit as [Ha Hlit].
    apply negb_true_iff in Ha.
    destruct s as [|c s]; cbn [strncmp str_head str_tail].
    + rewrite Ascii.eqb_sym, Ha. split; [|done].
      intros H. apply ascii_eqb_false_uchar in H; [done|].
      by rewrite Ascii.eqb_sym.
    + cbn [nul_free] in Hs. apply andb_true_iff in Hs as [Hc Hs].
      apply negb_true_iff in Hc.
      destruct (Ascii.eqb c a) eqn:Hca.
      * apply Ascii.eqb_eq in Hca as ->. rewrite Ha.
        rewrite IH; [|done|done|simpl in Hn; lia].
        split; [by intros ->|by intros [= ->]].
      * split.
        -- intros H. by apply ascii_eqb_false_uchar in H.
        -- intros [= -> _]. by rewrite Ascii.eqb_refl in Hca.
Qed.

Lemma strncmp_literal_eqb lit s n :
  nul_free lit = true → nul_free s = true → (String.length lit < n)%nat →
  (strncmp s lit n =? 0) = bool_decide (s = lit).
Proof using Type.
  intros Hl Hs Hn. pose proof (strncmp_literal lit s n Hl Hs Hn) as H.
  destruct (Z.eqb_spec (strncmp s lit n) 0) as [Hz|Hz]; case_bool_decide as Hd;
    try done; [by apply H in Hz|by apply H in Hd].
Qed.

(** ** Compression names *)

Lemma ParseCompressionType_spec s :
  (7 < NAMEDATALEN)%nat → nul_free s = true →
  ParseCompressionType s =
    if bool_decide (s = "none") then COMPRESSION_NONE
    else if bool_decide (s = "pglz") then COMPRESSION_PG_LZ
    else if bool_decide (s = "lz4") then COMPRESSION_LZ4
    else if bool_decide (s = "enc_lz4") then COMPRESSION_ENC_LZ4
    else COMPRESSION_TYPE_INVALID.
Proof using Type.
  intros Hn Hs. unfold ParseCompressionType.
  rewrite !strncmp_literal_eqb; try done; simpl; lia.
Qed.

(** C1. A NUL-free configuration string parses to a valid compression kind
    exactly when it is one of "none", "pglz", "lz4", "enc_lz4", each name
    giving its own kind; every other string parses to the invalid kind, and
    option validation then raises the invalid-compression error whatever the
    other options are.  ([NAMEDATALEN] must exceed the longest name.) *)
Theorem ParseCompressionType_valid_iff_named (s : string) :
  (7 < NAMEDATALEN)%nat → nul_free s = true →
  (ParseCompressionType s = COMPRESSION_NONE ↔ s = "none") ∧
  (ParseCompressionType s = COMPRESSION_PG_LZ ↔ s = "pglz") ∧
  (ParseCompressionType s = COMPRESSION_LZ4 ↔ s = "lz4") ∧
  (ParseCompressionType s = COMPRESSION_ENC_LZ4 ↔ s = "enc_lz4") ∧
  (ParseCompressionType s ≠ COMPRESSION_TYPE_INVALID
     ↔ s ∈ ["none"; "pglz"; "lz4"; "enc_lz4"]) ∧
  (ParseCompressionType s ≠ COMPRESSION_ENC_NONE ∧
   ParseCompressionType s ≠ COMPRESSION_COUNT) ∧
  (∀ fn stripe block,
     ValidateForeignTableOptions fn (Some s) stripe block = Raise InvalidCompressionType
     ↔ s ∉ ["none"; "pglz"; "lz4"; "enc_lz4"]) ∧
  (∀ fn, ValidateForeignTableOptions fn (Some s) None None = Ok tt
     ↔ s ∈ ["none"; "pglz"; "lz4"; "enc_lz4"]).
Proof using Type.
  intros Hn Hs.
  assert (∀ fn stripe block,
    ParseCompressionType s ≠ COMPRESSION_TYPE_INVALID →
    ValidateForeignTableOptions fn (Some s) stripe block ≠ Raise InvalidCompressionType)
    as Hother.
  { intros fn stripe block Hv. unfold ValidateForeignTableOptions.
    destruct (decide _) as [|_]; [done|]. cbn [res_bind].
    destruct stripe as [x|]; destruct block as [y|]; unfold call_pg_atoi;
      repeat (cbn [res_bind]; try destruct (pg_atoi _); try destruct (_ || _));
      done. }
  assert (∀ fn stripe block,
    ParseCompressionType s = COMPRESSION_TYPE_INVALID →
    ValidateForeignTableOptions fn (Some s) stripe block = Raise InvalidCompressionType)
    as Hinv.
  { intros fn stripe block Hv. unfold ValidateForeignTableOptions.
    by destruct (decide _). }
  assert (∀ fn,
    ParseCompressionType s ≠ COMPRESSION_TYPE_INVALID →
    ValidateForeignTableOptions fn (Some s) None None = Ok tt) as Hok.
  { intros fn Hv. unfold ValidateForeignTableOptions. by destruct (decide _). }
  pose proof (ParseCompressionType_spec s Hn Hs) as HP.
  assert (s ∈ ["none"; "pglz"; "lz4"; "enc_lz4"]
          ↔ s = "none" ∨ s = "pglz" ∨ s = "lz4" ∨ s = "enc_lz4") as Hmem.
  { rewrite !elem_of_cons, elem_of_nil. tauto. }
  assert (ParseCompressionType s ≠ COMPRESSION_TYPE_INVALID
          ↔ s ∈ ["none"; "pglz"; "lz4"; "enc_lz4"]) as Hvalid.
  { rewrite Hmem, HP. repeat case_bool_decide; subst; split; intros; try done; tauto. }
  split_and!.
  - rewrite HP. repeat case_bool_decide; subst; split; intros; done.
  - rewrite HP. repeat case_bool_decide; subst; split; intros; done.
  - rewrite HP. repeat case_bool_decide; subst; split; intros; done.
  - rewrite HP. repeat case_bool_decide; subst; split; intros; done.
  - done.
  - rewrite HP. by repeat case_bool_decide.
  - rewrite HP. by repeat case_bool_decide.
  - intros fn stripe block. rewrite <- Hvalid. split.
    + intros Hr Hv. by eapply Hother.
    + intros Hv. apply Hinv.
      by destruct (decide (ParseCompressionType s = COMPRESSION_TYPE_INVALID)).
  - intros fn. rewrite <- Hvalid. split.
    + intros Hr Hv. by rewrite (Hinv fn None None Hv) in Hr.
    + apply Hok.
Qed.

(** ** Row-count bounds *)

(** What the range check of one row-count option amounts to. *)
Lemma row_count_check (s : string) (lo hi : Z) (e : ErrorData) :
  res_bind (call_pg_atoi s)
    (λ n, if (n <? lo) || (n >? hi) then Raise e else Ok tt) =
  match pg_atoi s with
  | Some v => if bool_decide (lo ≤ v ≤ hi) then Ok tt else Raise e
  | None => Raise (InvalidIntegerInput s)
  end.
Proof using Type.
  unfold call_pg_atoi. destruct (pg_atoi s) as [v|]; [|done]. cbn [res_bind].
  case_bool_decide as Hr.
  - destruct (Z.ltb_spec v lo); [lia|]. rewrite Z.gtb_ltb.
    destruct (Z.ltb_spec hi v); [lia|]. done.
  - destruct (Z.ltb_spec v lo); [done|]. rewrite Z.gtb_ltb.
    destruct (Z.ltb_spec hi v); [done|]. lia.
Qed.

Lemma ValidateForeignTableOptions_unfold fn cts stripe block :
  ValidateForeignTableOptions fn cts stripe block =
  res_bind
    match cts with
    | Some s =>
        if decide (ParseCompressionType s = COMPRESSION_TYPE_INVALID)
        then Raise InvalidCompressionType else Ok tt
    | None => Ok tt
    end (λ _,
  res_bind
    match stripe with
    | Some s =>
        match pg_atoi s with
        | Some v => if bool_decide (1000 ≤ v ≤ 10000000) then Ok tt
                    else Raise InvalidStripeRowCount
        | None => Raise (InvalidIntegerInput s)
        end
    | None => Ok tt
    end (λ _,
    match block with
    | Some s =>
        match pg_atoi s with
        | Some v => if bool_decide (1000 ≤ v ≤ 100000) then Ok tt
                    else Raise InvalidBlockRowCount
        | None => Raise (InvalidIntegerInput s)
        end
    | None => Ok tt
    end)).
Proof using Type.
  unfold ValidateForeignTableOptions.
  destruct stripe, block; by rewrite ?row_count_check.
Qed.

(** An error of [CStoreGetOptions] reaches the caller of [cstore_table_size]
    before any system call is made. *)
Lemma cstore_table_size_options_error relationId st e :
  CStoreTable (catalog st) relationId = Ok true →
  CStoreGetOptions (catalog st) relationId = Raise e →
  cstore_table_size relationId st = (Raise e, st).
Proof using Type.
  intros Ht Ho. unfold cstore_table_size, bind, with_catalog.
  rewrite Ht. cbn. by rewrite Ho.
Qed.

Lemma CStoreGetOptions_validation_error cat relationId fn cts stripe block e :
  CStoreGetOptionValue cat relationId OPTION_NAME_FILENAME = Ok fn →
  CStoreGetOptionValue cat relationId OPTION_NAME_COMPRESSION_TYPE = Ok cts →
  CStoreGetOptionValue cat relationId OPTION_NAME_STRIPE_ROW_COUNT = Ok stripe →
  CStoreGetOptionValue cat relationId OPTION_NAME_BLOCK_ROW_COUNT = Ok block →
  ValidateForeignTableOptions fn cts stripe block = Raise e →
  CStoreGetOptions cat relationId = Raise e.
Proof using Type.
  intros H1 H2 H3 H4 Hv. unfold CStoreGetOptions.
  rewrite H1, H2, H3, H4. cbn [res_bind]. by rewrite Hv.
Qed.

Lemma ValidateForeignTableOptions_ok_iff (fn cts stripe block : option string) :
  ValidateForeignTableOptions fn cts stripe block = Ok tt ↔
    (∀ s, cts = Some s → ParseCompressionType s ≠ COMPRESSION_TYPE_INVALID) ∧
    (∀ s, stripe = Some s → ∃ v, pg_atoi s = Some v ∧ 1000 ≤ v ≤ 10000000) ∧
    (∀ s, block = Some s → ∃ v, pg_atoi s = Some v ∧ 1000 ≤ v ≤ 100000).
Proof using Type.
  rewrite ValidateForeignTableOptions_unfold. split.
  + intros H. split_and!.
    * intros s ->. by destruct (decide _).
    * intros s ->. destruct cts as [c|]; [destruct (decide _); [done|]|];
        cbn [res_bind] in H; destruct (pg_atoi s) as [v|]; try done;
        case_bool_decide; try done; eauto.
    * intros s ->.
      destruct cts as [c|]; [destruct (decide _); [done|]|];
        cbn [res_bind] in H;
        (destruct stripe as [x|];
         [destruct (pg_atoi x); [case_bool_decide|]; try done|]);
        cbn [res_bind] in H; destruct (pg_atoi s) as [v|]; try done;
        case_bool_decide; try done; eauto.
  + intros (Hc & Hs & Hb).
    destruct cts as [c|].
    { destruct (decide _) as [Hi|_]; [by destruct (Hc c eq_refl)|].
      cbn [res_bind].
      destruct stripe as [x|].
      { destruct (Hs x eq_refl) as (v & -> & Hv). rewrite bool_decide_true by done.
        cbn [res_bind]. destruct block as [y|]; [|done].
        destruct (Hb y eq_refl) as (w & -> & Hw). by rewrite bool_decide_true. }
      cbn [res_bind]. destruct block as [y|]; [|done].
      destruct (Hb y eq_refl) as (w & -> & Hw). by rewrite bool_decide_true. }
    cbn [res_bind].
    destruct stripe as [x|].
    { destruct (Hs x eq_refl) as (v & -> & Hv). rewrite bool_decide_true by done.
      cbn [res_bind]. destruct block as [y|]; [|done].
      destruct (Hb y eq_refl) as (w & -> & Hw). by rewrite bool_decide_true. }
    cbn [res_bind]. destruct block as [y|]; [|done].
    destruct (Hb y eq_refl) as (w & -> & Hw). by rewrite bool_decide_true.
Qed.

(** C2. Validation accepts the options exactly when the compression name is
    valid and each row-count option that is supplied has an integer value in
    its range: [1000, 10000000] for stripe_row_count, [1000, 100000] for
    block_row_count; an absent option passes unchecked.  A value outside the
    range raises the option's error, and when the stored options of a table
    do not validate, [cstore_table_size] raises that error with the state
    unchanged: no system call has been made. *)
Theorem ValidateForeignTableOptions_row_count_ranges
    (fn cts stripe block : option string) :
  (ValidateForeignTableOptions fn cts stripe block = Ok tt ↔
     (∀ s, cts = Some s → ParseCompressionType s ≠ COMPRESSION_TYPE_INVALID) ∧
     (∀ s, stripe = Some s → ∃ v, pg_atoi s = Some v ∧ 1000 ≤ v ≤ 10000000) ∧
     (∀ s, block = Some s → ∃ v, pg_atoi s = Some v ∧ 1000 ≤ v ≤ 100000)) ∧
  (∀ s v, (∀ c, cts = Some c → ParseCompressionType c ≠ COMPRESSION_TYPE_INVALID) →
     pg_atoi s = Some v → ¬ (1000 ≤ v ≤ 10000000) →
     ValidateForeignTableOptions fn cts (Some s) block = Raise InvalidStripeRowCount) ∧
  (∀ s v, (∀ c, cts = Some c → ParseCompressionType c ≠ COMPRESSION_TYPE_INVALID) →
     (∀ x, stripe = Some x → ∃ w, pg_atoi x = Some w ∧ 1000 ≤ w ≤ 10000000) →
     pg_atoi s = Some v → ¬ (1000 ≤ v ≤ 100000) →
     ValidateForeignTableOptions fn cts stripe (Some s) = Raise InvalidBlockRowCount) ∧
  (∀ s, pg_atoi s = None →
     ValidateForeignTableOptions fn None (Some s) block = Raise (InvalidIntegerInput s) ∧
     ValidateForeignTableOptions fn None None (Some s) = Raise (InvalidIntegerInput s)) ∧
  ValidateForeignTableOptions fn None None None = Ok tt ∧
  (∀ st relationId e,
     CStoreTable (catalog st) relationId = Ok true →
     CStoreGetOptionValue (catalog st) relationId OPTION_NAME_FILENAME = Ok fn →
     CStoreGetOptionValue (catalog st) relationId OPTION_NAME_COMPRESSION_TYPE = Ok cts →
     CStoreGetOptionValue (catalog st) relationId OPTION_NAME_STRIPE_ROW_COUNT = Ok stripe →
     CStoreGetOptionValue (catalog st) relationId OPTION_NAME_BLOCK_ROW_COUNT = Ok block →
     ValidateForeignTableOptions fn cts stripe block = Raise e →
     cstore_table_size relationId st = (Raise e, st)).
Proof using Type.
  split_and!.
  - apply ValidateForeignTableOptions_ok_iff.
  - intros s v Hc Hs Hv. rewrite ValidateForeignTableOptions_unfold.
    destruct cts as [c|]; [destruct (decide _); [by destruct (Hc c eq_refl)|]|];
      cbn [res_bind]; rewrite Hs; by rewrite bool_decide_false.
  - intros s v Hc Hst Hs Hv. rewrite ValidateForeignTableOptions_unfold.
    destruct cts as [c|]; [destruct (decide _); [by destruct (Hc c eq_refl)|]|];
      cbn [res_bind];
      (destruct stripe as [x|];
       [destruct (Hst x eq_refl) as (w & -> & Hw); rewrite bool_decide_true by done|]);
      cbn [res_bind]; rewrite Hs; by rewrite bool_decide_false.
  - intros s Hs. rewrite !ValidateForeignTableOptions_unfold. cbn [res_bind].
    by rewrite Hs.
  - done.
  - intros st relationId e Ht H1 H2 H3 H4 Hv.
    apply cstore_table_size_options_error; [done|].
    by eapply CStoreGetOptions_validation_error.
Qed.

(** C4 (as amended). A stripe row count or a block row count of exactly 1 is
    not accepted: validation raises the invalid-stripe-row-count, respectively
    invalid-block-row-count, error, and no combination of options containing
    it validates.  Any accepted row count is at least 1000, and 1000 itself is
    accepted for both options. *)
Theorem row_count_of_one_rejected (fn : option string) (s : string) :
  pg_atoi s = Some 1 →
  (∀ block, ValidateForeignTableOptions fn None (Some s) block
            = Raise InvalidStripeRowCount) ∧
  ValidateForeignTableOptions fn None None (Some s) = Raise InvalidBlockRowCount ∧
  (∀ cts stripe block, stripe = Some s ∨ block = Some s →
     ValidateForeignTableOptions fn cts stripe block ≠ Ok tt) ∧
  (∀ cts stripe block x v,
     ValidateForeignTableOptions fn cts stripe block = Ok tt →
     stripe = Some x ∨ block = Some x → pg_atoi x = Some v → 1000 ≤ v) ∧
  (∀ x, pg_atoi x = Some 1000 →
     ValidateForeignTableOptions fn None (Some x) (Some x) = Ok tt).
Proof using Type.
  intros H1. split_and!.
  - intros block. rewrite ValidateForeignTableOptions_unfold. cbn [res_bind].
    by rewrite H1.
  - rewrite ValidateForeignTableOptions_unfold. cbn [res_bind]. by rewrite H1.
  - intros cts stripe block Hs Hok.
    apply ValidateForeignTableOptions_ok_iff in Hok as (_ & Hst & Hbl).
    destruct Hs as [->| ->].
    + destruct (Hst s eq_refl) as (v & Hv & Hr). rewrite H1 in Hv. simplify_eq. lia.
    + destruct (Hbl s eq_refl) as (v & Hv & Hr). rewrite H1 in Hv. simplify_eq. lia.
  - intros cts stripe block x v Hok Hx Hv.
    apply ValidateForeignTableOptions_ok_iff in Hok as (_ & Hst & Hbl).
    destruct Hx as [->| ->].
    + destruct (Hst x eq_refl) as (w & Hw & Hr). rewrite Hv in Hw. simplify_eq. lia.
    + destruct (Hbl x eq_refl) as (w & Hw & Hr). rewrite Hv in Hw. simplify_eq. lia.
  - intros x Hx. rewrite ValidateForeignTableOptions_unfold. cbn [res_bind].
    by rewrite Hx.
Qed.

(** ** Option resolution *)

Lemma to_uint64_small z : 0 ≤ z < 2 ^ 64 → to_uint64 z = z.
Proof using Type. intros. unfold to_uint64. by apply Z.mod_small. Qed.

Lemma to_uint32_small z : 0 ≤ z < 2 ^ 32 → to_uint32 z = z.
Proof using Type. intros. unfold to_uint32. by apply Z.mod_small. Qed.

Lemma to_int64_small z : INT64_MIN ≤ z ≤ INT64_MAX → to_int64 z = z.
Proof using Type.
  unfold INT64_MIN, INT64_MAX, to_int64. intros.
  rewrite Z.mod_small; lia.
Qed.

Lemma CStoreGetOptionValue_found cat foreignTableId ft srv name :
  GetForeignTable cat foreignTableId = Ok ft →
  GetForeignServer cat (ft_serverid ft) = Ok srv →
  CStoreGetOptionValue cat foreignTableId name
  = Ok (find_option (ft_options ft ++ srv_options srv) name).
Proof using Type. intros Hft Hsrv. unfold CStoreGetOptionValue. by rewrite Hft; cbn; rewrite Hsrv. Qed.

(** With NUL-free names shorter than [NAMEDATALEN], an option is found
    exactly when the list has an option of that name; the first one wins. *)
Lemma find_option_exact (optionList : list DefElem) (name : string) :
  nul_free name = true → (String.length name < NAMEDATALEN)%nat →
  Forall (λ d, nul_free (defname d) = true) optionList →
  find_option optionList name
  = defarg <$> List.find (λ d, bool_decide (defname d = name)) optionList.
Proof using Type.
  intros Hname Hlen Hall. induction Hall as [|d l Hd _ IH]; [done|].
  cbn [find_option List.find]. rewrite strncmp_literal_eqb by done.
  by case_bool_decide.
Qed.

(** [CStoreGetOptions] in closed form: validation, then the file name, then
    the record; after validation the numeric conversions cannot fail or
    wrap. *)
Lemma CStoreGetOptions_resolved cat foreignTableId ft srv :
  GetForeignTable cat foreignTableId = Ok ft →
  GetForeignServer cat (ft_serverid ft) = Ok srv →
  let provided := find_option (ft_options ft ++ srv_options srv) in
  CStoreGetOptions cat foreignTableId =
    res_bind (ValidateForeignTableOptions
                (provided OPTION_NAME_FILENAME) (provided OPTION_NAME_COMPRESSION_TYPE)
                (provided OPTION_NAME_STRIPE_ROW_COUNT)
                (provided OPTION_NAME_BLOCK_ROW_COUNT)) (λ _,
    res_bind match provided OPTION_NAME_FILENAME with
             | Some f => Ok f
             | None => CStoreDefaultFilePath cat foreignTableId
             end (λ f,
    Ok {| filename := f;
          compressionType :=
            match provided OPTION_NAME_COMPRESSION_TYPE with
            | Some x => ParseCompressionType x
            | None => COMPRESSION_NONE
            end;
          stripeRowCount :=
            match provided OPTION_NAME_STRIPE_ROW_COUNT with
            | Some x => default 0 (pg_atoi x)
            | None => 150000
            end;
          opt_blockRowCount :=
            match provided OPTION_NAME_BLOCK_ROW_COUNT with
            | Some x => default 0 (pg_atoi x)
            | None => 10000
            end |})).
Proof using Type.
  intros Hft Hsrv provided. unfold CStoreGetOptions.
  rewrite !(CStoreGetOptionValue_found _ _ ft srv) by done.
  fold provided. cbn [res_bind].
  destruct (ValidateForeignTableOptions _ _ _ _) as [[]|e] eqn:Hv; [|done].
  apply ValidateForeignTableOptions_ok_iff in Hv as (_ & Hs & Hb).
  cbn [res_bind].
  assert (match provided OPTION_NAME_STRIPE_ROW_COUNT with
          | Some s => call_pg_atoi s
          | None => Ok DEFAULT_STRIPE_ROW_COUNT
          end = Ok (match provided OPTION_NAME_STRIPE_ROW_COUNT with
                    | Some x => default 0 (pg_atoi x)
                    | None => 150000
                    end)
          ∧ 0 ≤ match provided OPTION_NAME_STRIPE_ROW_COUNT with
                | Some x => default 0 (pg_atoi x)
                | None => 150000
                end < 2 ^ 32) as [-> Hsr].
  { destruct (provided OPTION_NAME_STRIPE_ROW_COUNT) as [x|]; [|done].
    destruct (Hs x eq_refl) as (v & Hv & Hr). unfold call_pg_atoi. rewrite Hv.
    cbn. split; [done|lia]. }
  assert (match provided OPTION_NAME_BLOCK_ROW_COUNT with
          | Some s => call_pg_atoi s
          | None => Ok DEFAULT_BLOCK_ROW_COUNT
          end = Ok (match provided OPTION_NAME_BLOCK_ROW_COUNT with
                    | Some x => default 0 (pg_atoi x)
                    | None => 10000
                    end)
          ∧ 0 ≤ match provided OPTION_NAME_BLOCK_ROW_COUNT with
                | Some x => default 0 (pg_atoi x)
                | None => 10000
                end < 2 ^ 32) as [-> Hbr].
  { destruct (provided OPTION_NAME_BLOCK_ROW_COUNT) as [x|]; [|done].
    destruct (Hb x eq_refl) as (v & Hv & Hr). unfold call_pg_atoi. rewrite Hv.
    cbn. split; [done|lia]. }
  cbn [res_bind].
  rewrite to_uint64_small, to_uint32_small by lia.
  done.
Qed.

(** C9. Resolving the options of a foreign table gives, for each of
    compression, stripe_row_count and block_row_count, the value of the
    option when one is provided (on the table or, failing that, on the
    server) and the default otherwise: compression none, 150000 rows per
    stripe, 10000 rows per block.  Resolution returns exactly when the
    provided values validate and a file name is provided or the relation can
    be opened for the default path. *)
Theorem CStoreGetOptions_defaults_and_overrides cat foreignTableId ft srv :
  GetForeignTable cat foreignTableId = Ok ft →
  GetForeignServer cat (ft_serverid ft) = Ok srv →
  let provided := find_option (ft_options ft ++ srv_options srv) in
  (∀ o, CStoreGetOptions cat foreignTableId = Ok o →
     compressionType o = match provided "compression" with
                         | Some s => ParseCompressionType s
                         | None => COMPRESSION_NONE
                         end ∧
     match provided "stripe_row_count" with
     | Some s => pg_atoi s = Some (stripeRowCount o)
     | None => stripeRowCount o = 150000
     end ∧
     match provided "block_row_count" with
     | Some s => pg_atoi s = Some (opt_blockRowCount o)
     | None => opt_blockRowCount o = 10000
     end ∧
     match provided "filename" with
     | Some f => filename o = f
     | None => CStoreDefaultFilePath cat foreignTableId = Ok (filename o)
     end) ∧
  ((∃ o, CStoreGetOptions cat foreignTableId = Ok o) ↔
     ValidateForeignTableOptions (provided "filename") (provided "compression")
       (provided "stripe_row_count") (provided "block_row_count") = Ok tt ∧
     (is_Some (provided "filename") ∨ is_Some (pg_class cat !! foreignTableId))) ∧
  (provided "compression" = None → provided "stripe_row_count" = None →
   provided "block_row_count" = None → is_Some (pg_class cat !! foreignTableId) →
   ∃ f, CStoreGetOptions cat foreignTableId
        = Ok {| filename := f; compressionType := COMPRESSION_NONE;
                stripeRowCount := 150000; opt_blockRowCount := 10000 |}).
Proof using Type.
  intros Hft Hsrv provided.
  pose proof (CStoreGetOptions_resolved cat foreignTableId ft srv Hft Hsrv) as Hres.
  cbv zeta in Hres. fold provided in Hres.
  change OPTION_NAME_FILENAME with "filename" in Hres.
  change OPTION_NAME_COMPRESSION_TYPE with "compression" in Hres.
  change OPTION_NAME_STRIPE_ROW_COUNT with "stripe_row_count" in Hres.
  change OPTION_NAME_BLOCK_ROW_COUNT with "block_row_count" in Hres.
  assert (match provided "filename" with
          | Some f => Ok f
          | None => CStoreDefaultFilePath cat foreignTableId
          end ≠ Raise (CacheLookupFailed foreignTableId)
          ↔ is_Some (provided "filename") ∨ is_Some (pg_class cat !! foreignTableId))
    as Hname.
  { unfold CStoreDefaultFilePath, relation_open, lookup_or_fail.
    destruct (provided "filename") as [f|]; [naive_solver|].
    destruct (pg_class cat !! foreignTableId) as [r|]; cbn [res_bind].
    - split; [eauto|done].
    - split; [done|]. intros [[? [=]]|[? [=]]]. }
  split_and!.
  - intros o Ho. rewrite Hres in Ho.
    destruct (ValidateForeignTableOptions _ _ _ _) as [[]|e] eqn:Hv; [|done].
    apply ValidateForeignTableOptions_ok_iff in Hv as (_ & Hs & Hb).
    cbn [res_bind] in Ho.
    destruct (match provided "filename" with
              | Some f => Ok f
              | None => CStoreDefaultFilePath cat foreignTableId
              end) as [f|e] eqn:Hf; [|done].
    cbn [res_bind] in Ho. injection Ho as <-. cbn.
    split_and!.
    + done.
    + destruct (provided "stripe_row_count") as [x|]; [|done].
      by destruct (Hs x eq_refl) as (v & -> & _).
    + destruct (provided "block_row_count") as [x|]; [|done].
      by destruct (Hb x eq_refl) as (v & -> & _).
    + destruct (provided "filename"); [by injection Hf|done].
  - rewrite <- Hname, Hres. split.
    + intros [o Ho].
      destruct (ValidateForeignTableOptions _ _ _ _) as [[]|e]; [|done].
      split; [done|]. cbn [res_bind] in Ho. intros Hf. by rewrite Hf in Ho.
    + intros [-> Hf]. cbn [res_bind].
      destruct (match provided "filename" with
                | Some f => Ok f
                | None => CStoreDefaultFilePath cat foreignTableId
                end) as [f|e] eqn:Hfe; [cbn; eauto|].
      exfalso. apply Hf. rewrite <- Hfe.
      unfold CStoreDefaultFilePath, relation_open, lookup_or_fail in *.
      destruct (provided "filename"); [done|].
      by destruct (pg_class cat !! foreignTableId).
  - intros Hc Hs Hb [r Hr]. rewrite Hres, Hc, Hs, Hb.
    rewrite ValidateForeignTableOptions_unfold. cbn [res_bind].
    unfold CStoreDefaultFilePath, relation_open, lookup_or_fail. rewrite Hr.
    destruct (provided "filename"); cbn; eauto.
Qed.

(** ** Table size *)

Lemma stat_run path st :
  stat path st
  = (Ok ((λ f, {| st_size := file_size (content f);
                  st_isdir := is_directory (content f) |}) <$> fs st !! path),
     emit (SysStat path) st).
Proof using Type. done. Qed.

Lemma stat_is_Some path st :
  (∃ buf, (stat path st).1 = Ok (Some buf)) ↔ is_Some (fs st !! path).
Proof using Type.
  rewrite stat_run. cbn. destruct (fs st !! path); cbn; split.
  - eauto.
  - eauto.
  - intros [? [=]].
  - intros [? [=]].
Qed.

Lemma stat_None path st :
  (stat path st).1 = Ok None ↔ fs st !! path = None.
Proof using Type. rewrite stat_run. cbn. by destruct (fs st !! path). Qed.

(** [cstore_table_size] once the relation and its options are settled. *)
Lemma cstore_table_size_run relationId st opts :
  CStoreTable (catalog st) relationId = Ok true →
  CStoreGetOptions (catalog st) relationId = Ok opts →
  cstore_table_size relationId st =
    match fs st !! filename opts with
    | None => (Raise (CouldNotStatFile (filename opts)),
               emit (SysStat (filename opts)) st)
    | Some d =>
        let st' := emit (SysStat (filename opts +:+ ".footer"))
                     (emit (SysStat (filename opts)) st) in
        match fs st !! (filename opts +:+ ".footer") with
        | None => (Raise (CouldNotStatFile (filename opts +:+ ".footer")), st')
        | Some f =>
            (Ok (to_int64 (to_int64 (0 + file_size (content d))
                           + file_size (content f))), st')
        end
    end.
Proof using Type.
  intros Ht Ho. unfold cstore_table_size, bind, with_catalog.
  rewrite Ht. cbn. rewrite Ho.
  destruct (fs st !! filename opts) as [d|]; cbn; [|done].
  change CSTORE_FOOTER_FILE_SUFFIX with ".footer".
  by destruct (fs st !! (filename opts +:+ ".footer")).
Qed.

(** C3. For a cstore table whose data file and footer file can both be
    stat'ed and whose two sizes, as [stat] reports them, add up to at most
    2^63 - 1 (the largest value of the int64 result), [cstore_table_size]
    returns exactly the sum of the two sizes. *)
Theorem cstore_table_size_is_sum relationId st opts dataStat footerStat :
  CStoreTable (catalog st) relationId = Ok true →
  CStoreGetOptions (catalog st) relationId = Ok opts →
  (stat (filename opts) st).1 = Ok (Some dataStat) →
  (stat (filename opts +:+ ".footer") st).1 = Ok (Some footerStat) →
  0 ≤ st_size dataStat → 0 ≤ st_size footerStat →
  st_size dataStat + st_size footerStat ≤ INT64_MAX →
  (cstore_table_size relationId st).1
  = Ok (st_size dataStat + st_size footerStat).
Proof using Type.
  intros Ht Ho Hd Hf Hd0 Hf0 Hmax.
  rewrite (cstore_table_size_run _ _ opts) by done.
  rewrite stat_run in Hd, Hf. cbn in Hd, Hf.
  destruct (fs st !! filename opts) as [d|]; [|done].
  destruct (fs st !! (filename opts +:+ ".footer")) as [f|]; [|done].
  cbn [fmap option_fmap option_map] in Hd, Hf. simplify_eq.
  cbn [st_size fst] in *. rewrite Z.add_0_l.
  unfold INT64_MAX in Hmax.
  rewrite (to_int64_small (file_size (content d)))
    by (unfold INT64_MIN, INT64_MAX; lia).
  rewrite to_int64_small by (unfold INT64_MIN, INT64_MAX; lia).
  done.
Qed.

(** C10. [cstore_table_size] returns a number exactly when the relation is
    a cstore table, its options resolve, and [stat] succeeds on the data
    file and on the footer file; otherwise it raises an error: the
    not-a-cstore-table error for another relation, the could-not-stat error
    naming the file on which [stat] failed. *)
Theorem cstore_table_size_error_cases relationId st :
  ((∃ n, (cstore_table_size relationId st).1 = Ok n) ↔
     CStoreTable (catalog st) relationId = Ok true ∧
     ∃ opts, CStoreGetOptions (catalog st) relationId = Ok opts ∧
             (∃ buf, (stat (filename opts) st).1 = Ok (Some buf)) ∧
             (∃ buf, (stat (filename opts +:+ ".footer") st).1 = Ok (Some buf))) ∧
  ((∃ e, (cstore_table_size relationId st).1 = Raise e) ∨
   (∃ n, (cstore_table_size relationId st).1 = Ok n)) ∧
  (CStoreTable (catalog st) relationId = Ok false →
     (cstore_table_size relationId st).1 = Raise NotACStoreTable) ∧
  (CStoreTable (catalog st) relationId ≠ Ok true →
     ∃ e, (cstore_table_size relationId st).1 = Raise e) ∧
  (∀ opts, CStoreTable (catalog st) relationId = Ok true →
     CStoreGetOptions (catalog st) relationId = Ok opts →
     (stat (filename opts) st).1 = Ok None →
     (cstore_table_size relationId st).1 = Raise (CouldNotStatFile (filename opts))) ∧
  (∀ opts buf, CStoreTable (catalog st) relationId = Ok true →
     CStoreGetOptions (catalog st) relationId = Ok opts →
     (stat (filename opts) st).1 = Ok (Some buf) →
     (stat (filename opts +:+ ".footer") st).1 = Ok None →
     (cstore_table_size relationId st).1
     = Raise (CouldNotStatFile (filename opts +:+ ".footer"))).
Proof using Type.
  assert (CStoreTable (catalog st) relationId ≠ Ok true →
          ∃ e, (cstore_table_size relationId st).1 = Raise e) as Hnot.
  { intros Hne. unfold cstore_table_size, bind, with_catalog.
    destruct (CStoreTable (catalog st) relationId) as [[|]|e]; cbn; eauto. done. }
  split_and!.
  - split.
    + intros [n Hn].
      assert (CStoreTable (catalog st) relationId = Ok true) as Ht.
      { destruct (CStoreTable (catalog st) relationId) as [[|]|e] eqn:Ht;
          [done|destruct Hnot as [? He]; [done|congruence]..]. }
      split; [done|].
      destruct (CStoreGetOptions (catalog st) relationId) as [opts|e] eqn:Ho.
      * exists opts. split; [done|]. rewrite !stat_is_Some.
        rewrite (cstore_table_size_run _ _ opts) in Hn by done.
        destruct (fs st !! filename opts); [|done].
        destruct (fs st !! (filename opts +:+ ".footer")); [|done]. eauto.
      * by rewrite (cstore_table_size_options_error _ _ e) in Hn.
    + intros (Ht & opts & Ho & Hd & Hf). apply stat_is_Some in Hd as [d Hd].
      apply stat_is_Some in Hf as [f Hf].
      rewrite (cstore_table_size_run _ _ opts) by done. rewrite Hd, Hf. cbn. eauto.
  - destruct (cstore_table_size relationId st).1; eauto.
  - intros Hf. unfold cstore_table_size, bind, with_catalog. by rewrite Hf.
  - done.
  - intros opts Ht Ho Hd. apply stat_None in Hd.
    rewrite (cstore_table_size_run _ _ opts) by done. by rewrite Hd.
  - intros opts buf Ht Ho Hd Hf. apply stat_None in Hf.
    assert (is_Some (fs st !! filename opts)) as [d Hd'] by (apply stat_is_Some; eauto).
    rewrite (cstore_table_size_run _ _ opts) by done. by rewrite Hd', Hf.
Qed.

(** ** Deleting the files of a table *)

Lemma append_cons c (s t : string) : String c s +:+ t = String c (s +:+ t).
Proof using Type. done. Qed.

Lemma append_eq_self (s t : string) : s +:+ t = s → t = "".
Proof using Type.
  induction s as [|c s IH]; [done|]. rewrite append_cons. intros [= H]. auto.
Qed.

Lemma footer_path_ne (filename : string) : filename +:+ ".footer" ≠ filename.
Proof using Type. intros H. by apply append_eq_self in H. Qed.

Lemma unlink_run path st :
  unlink path st
  = (Ok (if unlink_succeeds (fs st) path then 0 else -1),
     emit (SysUnlink path)
       (if unlink_succeeds (fs st) path then set_fs (delete path) st else st)).
Proof using Type.
  unfold unlink, unlink_succeeds.
  destruct (fs st !! path) as [f|]; [|done].
  by destruct (immutable f || is_directory (content f)).
Qed.

Lemma unlink_succeeds_delete_ne files p q :
  p ≠ q → unlink_succeeds (delete p files) q = unlink_succeeds files q.
Proof using Type. intros Hne. unfold unlink_succeeds. by rewrite lookup_delete_ne. Qed.

(** The whole effect of [DeleteCStoreTableFiles]. *)
Lemma DeleteCStoreTableFiles_run filename st :
  let footer := filename +:+ ".footer" in
  let warn path := if unlink_succeeds (fs st) path then []
                   else [Warning (CouldNotDeleteFile path)] in
  let remove path (files : gmap string File) :=
    if unlink_succeeds (fs st) path then delete path files else files in
  DeleteCStoreTableFiles filename st
  = (Ok tt,
     {| catalog := catalog st;
        fs := remove filename (remove footer (fs st));
        events := events st ++ [SysUnlink footer] ++ warn footer
                    ++ [SysUnlink filename] ++ warn filename |}).
Proof using Type.
  intros footer warn remove. unfold DeleteCStoreTableFiles, bind.
  change (filename +:+ CSTORE_FOOTER_FILE_SUFFIX) with footer.
  rewrite (unlink_run footer). subst warn remove. cbn beta.
  pose proof (footer_path_ne filename) as Hne. fold footer in Hne.
  destruct (unlink_succeeds (fs st) footer) eqn:Hf; cbn [Z.eqb];
    unfold ret, ereport_WARNING; rewrite unlink_run; cbn [fs emit set_fs].
  - rewrite unlink_succeeds_delete_ne by done.
    destruct (unlink_succeeds (fs st) filename); unfold emit, set_fs; cbn;
      by rewrite <- ?app_assoc.
  - destruct (unlink_succeeds (fs st) filename); unfold emit, set_fs; cbn;
      by rewrite <- ?app_assoc.
Qed.

(** C5. Dropping the files of a table is best effort: [DeleteCStoreTableFiles]
    never raises an error; it calls [unlink] on the footer file and then on
    the data file whatever the first call returned, and reports each failed
    removal as a warning naming the file.  A file whose removal succeeds is
    gone, every other file is left as it was. *)
Theorem DeleteCStoreTableFiles_best_effort (filename : string) (st : State) :
  let footer := filename +:+ ".footer" in
  let warn path := if unlink_succeeds (fs st) path then []
                   else [Warning (CouldNotDeleteFile path)] in
  ∃ st', DeleteCStoreTableFiles filename st = (Ok tt, st') ∧
    events st' = (events st ++ [SysUnlink footer] ++ warn footer
                    ++ [SysUnlink filename] ++ warn filename)%list ∧
    catalog st' = catalog st ∧
    fs st' !! footer = (if unlink_succeeds (fs st) footer then None
                        else fs st !! footer) ∧
    fs st' !! filename = (if unlink_succeeds (fs st) filename then None
                          else fs st !! filename) ∧
    (∀ path, path ≠ footer → path ≠ filename → fs st' !! path = fs st !! path).
Proof using Type.
  intros footer warn. eexists. split; [apply DeleteCStoreTableFiles_run|].
  cbn [events catalog fs]. fold footer.
  pose proof (footer_path_ne filename) as Hne. fold footer in Hne.
  split_and!; try done.
  - destruct (unlink_succeeds (fs st) filename), (unlink_succeeds (fs st) footer);
      by rewrite ?lookup_delete_ne, ?lookup_delete_eq by done.
  - destruct (unlink_succeeds (fs st) filename), (unlink_succeeds (fs st) footer);
      by rewrite ?lookup_delete_eq, ?lookup_delete_ne, ?lookup_delete_eq by done.
  - intros path H1 H2.
    destruct (unlink_succeeds (fs st) filename), (unlink_succeeds (fs st) footer);
      by rewrite ?lookup_delete_ne by done.
Qed.

(** ** The footer path *)

Lemma syscalls_app evs1 evs2 :
  syscalls (evs1 ++ evs2) = (syscalls evs1 ++ syscalls evs2)%list.
Proof using Type. unfold syscalls. apply List.filter_app. Qed.

(** C6. The footer file of a table is the data file's path with ".footer"
    appended: the paths on which [DeleteCStoreTableFiles] calls [unlink] are
    that path and the data path, and the paths on which [cstore_table_size]
    calls [stat] are the data path and that same path. *)
Theorem footer_path_is_data_path_with_suffix :
  CSTORE_FOOTER_FILE_SUFFIX = ".footer" ∧
  (∀ filename st, ∃ evs,
     events (DeleteCStoreTableFiles filename st).2 = (events st ++ evs)%list ∧
     syscalls evs = [SysUnlink (filename +:+ ".footer"); SysUnlink filename]) ∧
  (∀ relationId st opts,
     CStoreTable (catalog st) relationId = Ok true →
     CStoreGetOptions (catalog st) relationId = Ok opts →
     is_Some (fs st !! filename opts) →
     events (cstore_table_size relationId st).2
     = (events st ++ [SysStat (filename opts);
                      SysStat (filename opts +:+ ".footer")])%list) ∧
  (∀ filename, String.length (filename +:+ ".footer") = (String.length filename + 7)%nat
               ∧ String.substring 0 (String.length filename) (filename +:+ ".footer")
                 = filename
               ∧ String.substring (String.length filename) 7 (filename +:+ ".footer")
                 = ".footer").
Proof using Type.
  split_and!.
  - done.
  - intros filename st. rewrite DeleteCStoreTableFiles_run. cbn [snd events].
    eexists. split; [done|].
    rewrite !syscalls_app.
    by destruct (unlink_succeeds (fs st) filename),
                (unlink_succeeds (fs st) (filename +:+ ".footer")).
  - intros relationId st opts Ht Ho [d Hd].
    rewrite (cstore_table_size_run _ _ opts) by done. rewrite Hd.
    destruct (fs st !! (filename opts +:+ ".footer")); cbn;
      by rewrite <- app_assoc.
  - intros filename. split_and!.
    + induction filename as [|c s IH]; [done|].
      rewrite append_cons. cbn [String.length]. by rewrite IH.
    + induction filename as [|c s IH]; [done|].
      rewrite append_cons. cbn [String.length String.substring]. by rewrite IH.
    + induction filename as [|c s IH]; [done|].
      rewrite append_cons. cbn [String.length String.substring]. by rewrite IH.
Qed.

(** ** Sessions *)

Lemma writable_insert_ne files p q f :
  p ≠ q → writable (<[p:=f]> files) q = writable files q.
Proof using Type. intros Hne. unfold writable. by rewrite lookup_insert_ne. Qed.

Lemma CStoreBeginRead_run filename td cols quals st :
  let footerName := filename +:+ ".footer" in
  CStoreBeginRead filename td cols quals st =
  match fs st !! footerName with
  | None => (Raise (CouldNotOpenFile footerName), emit (SysOpen footerName) st)
  | Some f =>
      match content f with
      | FooterData footer =>
          match fs st !! filename with
          | None => (Raise (CouldNotOpenFile filename),
                     emit (SysOpen filename) (emit (SysOpen footerName) st))
          | Some _ => (Ok {| tableFile := filename;
                             tableFooter := footer;
                             tupleDescriptor := td;
                             projectedColumnList := cols;
                             whereClauseList := quals;
                             stripeData := None;
                             readStripeCount := 0;
                             stripeReadRowCount := 0 |},
                       emit (SysOpen filename) (emit (SysOpen footerName) st))
          end
      | _ => (Raise (InvalidFooterFile footerName), emit (SysOpen footerName) st)
      end
  end.
Proof using Type.
  intros footerName. unfold CStoreBeginRead, CStoreReadFooter, bind, read_file.
  change (filename +:+ CSTORE_FOOTER_FILE_SUFFIX) with footerName.
  destruct (fs st !! footerName) as [f|]; [|done].
  destruct (content f); try done. cbn.
  by destruct (fs st !! filename).
Qed.



Lemma CStoreBeginForeignScan_0 ss st :
  CStoreBeginForeignScan ss 0 st =
  match CStoreGetOptions (catalog st) (ss_currentRelation ss) with
  | Raise e => (Raise e, st)
  | Ok opts =>
      match fdw_private (ss_plan ss) with
      | [] => (Raise NullDereference, st)
      | columnList :: _ =>
          match CStoreBeginRead (filename opts)
                  (tts_tupleDescriptor (ss_ScanTupleSlot ss)) columnList
                  (qual (ss_plan ss)) st with
          | (Ok rs, st') => (Ok (set_fdw_state (Some rs) ss), st')
          | (Raise e, st') => (Raise e, st')
          end
      end
  end.
Proof using Type.
  unfold CStoreBeginForeignScan. rewrite Z.land_0_l. cbn [Z.eqb negb].
  unfold bind, with_catalog.
  destruct (CStoreGetOptions _ _) as [opts|e]; [|done].
  destruct (fdw_private (ss_plan ss)) as [|columnList ?]; [done|].
  by destruct (CStoreBeginRead _ _ _ _ st) as [[rs|e] st'].
Qed.





(** A write session closed with no row written: what it leaves behind. *)
Lemma empty_write_session_run filename ct stripeMax blockRows td st :
  writable (fs st) filename = true →
  writable (fs st) (filename +:+ ".footer") = true →
  ∃ ws st1 st2,
    CStoreBeginWrite filename ct stripeMax blockRows td st = (Ok ws, st1) ∧
    ws_stripeData ws = [] ∧
    stripeMetadataList (ws_tableFooter ws) = [] ∧
    CStoreEndWrite ws st1 = (Ok tt, st2) ∧
    catalog st2 = catalog st ∧
    fs st2 = <[filename +:+ ".footer" :=
                 {| content := FooterData {| stripeMetadataList := [];
                                             blockRowCount := to_uint64 blockRows |};
                    immutable := false |}]>
             (<[filename := {| content := TableData []; immutable := false |}]> (fs st)).
Proof using Type.
  intros Hw Hwf.
  unfold CStoreBeginWrite, bind, write_file. rewrite Hw. cbn.
  do 3 eexists. split; [done|]. cbn. split; [done|]. split; [done|].
  unfold CStoreEndWrite, bind, write_file, close_file, ret. cbn.
  change (filename +:+ CSTORE_FOOTER_FILE_SUFFIX) with (filename +:+ ".footer").
  rewrite writable_insert_ne by (intros H; by apply (footer_path_ne filename)).
  rewrite Hwf. by cbn.
Qed.

Lemma read_after_empty_write filename td cols quals footer (st : State) f d :
  fs st !! (filename +:+ ".footer") = Some f →
  content f = FooterData footer →
  stripeMetadataList footer = [] →
  fs st !! filename = Some d →
  ∃ rs st3 rs' st4,
    CStoreBeginRead filename td cols quals st = (Ok rs, st3) ∧
    tableFooter rs = footer ∧
    CStoreReadNextRow rs st3 = (Ok (None, rs'), st4) ∧
    fs st4 = fs st.
Proof using Type.
  intros Hf Hc Hl Hd. rewrite CStoreBeginRead_run. cbv zeta. rewrite Hf, Hc, Hd.
  do 4 eexists. split; [done|]. split; [done|].
  unfold CStoreReadNextRow. cbn. rewrite Hl. by cbn.
Qed.

(** C8. A write session that is opened and closed with no row written
    leaves a data file without stripes and a footer file holding a footer
    with an empty stripe list (and the configured block row count); a read
    session opened on these files reports end-of-data at its first
    [CStoreReadNextRow].  The event trigger does exactly this for a
    CREATE FOREIGN TABLE on a cstore table. *)
Theorem empty_write_session_reads_back_empty path ct stripeMax blockRows td
    cols quals st :
  writable (fs st) path = true →
  writable (fs st) (path +:+ ".footer") = true →
  ∃ ws st1 st2 rs st3 rs' st4,
    CStoreBeginWrite path ct stripeMax blockRows td st = (Ok ws, st1) ∧
    CStoreEndWrite ws st1 = (Ok tt, st2) ∧
    (content <$> fs st2 !! (path +:+ ".footer"))
    = Some (FooterData {| stripeMetadataList := [];
                          blockRowCount := to_uint64 blockRows |}) ∧
    (content <$> fs st2 !! path) = Some (TableData []) ∧
    CStoreBeginRead path td cols quals st2 = (Ok rs, st3) ∧
    stripeMetadataList (tableFooter rs) = [] ∧
    CStoreReadNextRow rs st3 = (Ok (None, rs'), st4) ∧
    (∀ relation relationId rel opts,
       RangeVarGetRelid (catalog st) relation = Ok relationId →
       CStoreTable (catalog st) relationId = Ok true →
       relation_open (catalog st) relationId = Ok rel →
       CStoreGetOptions (catalog st) relationId = Ok opts →
       path = filename opts → ct = compressionType opts →
       stripeMax = stripeRowCount opts → blockRows = opt_blockRowCount opts →
       td = rd_att rel →
       cstore_ddl_event_end_trigger true (T_CreateForeignTableStmt relation) st
       = (Ok tt, st2)).
Proof using Type.
  intros Hw Hwf.
  destruct (empty_write_session_run path ct stripeMax blockRows td st Hw Hwf)
    as (ws & st1 & st2 & Hbegin & Hrows & Hlist & Hend & Hcat & Hfs).
  pose proof (footer_path_ne path) as Hne.
  assert (fs st2 !! (path +:+ ".footer")
          = Some {| content := FooterData {| stripeMetadataList := [];
                                             blockRowCount := to_uint64 blockRows |};
                    immutable := false |}) as Hfooter.
  { rewrite Hfs. apply lookup_insert_eq. }
  assert (fs st2 !! path
          = Some {| content := TableData []; immutable := false |}) as Hdata.
  { rewrite Hfs. rewrite lookup_insert_ne by done. apply lookup_insert_eq. }
  destruct (read_after_empty_write path td cols quals _ st2 _ _
              Hfooter eq_refl eq_refl Hdata) as (rs & st3 & rs' & st4 & Hr & Hft & Hn & _).
  exists ws, st1, st2, rs, st3, rs', st4.
  split_and!; try done.
  - by rewrite Hfooter.
  - by rewrite Hdata.
  - by rewrite Hft.
  - intros relation relationId rel opts Hrel Ht Hopen Ho -> -> -> -> ->.
    unfold cstore_ddl_event_end_trigger, bind, with_catalog. cbn.
    rewrite Hrel, Ht, Hopen, Ho. rewrite Hbegin. done.
Qed.

(** * Further properties of the wrapper *)

(** ** Which relations are cstore tables *)

(** X1. [CStoreTable] answers true exactly for a valid relation id whose
    relation is a foreign table of a server of the wrapper named
    "cstore_fdw"; it answers false, without looking further, for
    [InvalidOid] and for a relation that is missing or not a foreign table,
    and it raises only a failed catalog lookup of a foreign table. *)
Theorem CStoreTable_true_iff (cat : Catalog) (relationId : Oid) :
  (10 < NAMEDATALEN)%nat →
  (∀ id w, pg_foreign_data_wrapper cat !! id = Some w → nul_free (fdwname w) = true) →
  (CStoreTable cat relationId = Ok true ↔
     relationId ≠ InvalidOid ∧
     ∃ r ft srv w,
       pg_class cat !! relationId = Some r ∧ relkind r = "f"%char ∧
       pg_foreign_table cat !! relationId = Some ft ∧
       pg_foreign_server cat !! ft_serverid ft = Some srv ∧
       pg_foreign_data_wrapper cat !! srv_fdwid srv = Some w ∧
       fdwname w = "cstore_fdw") ∧
  CStoreTable cat InvalidOid = Ok false ∧
  (get_rel_relkind cat relationId ≠ "f"%char → CStoreTable cat relationId = Ok false) ∧
  (pg_class cat !! relationId = None → CStoreTable cat relationId = Ok false) ∧
  (∀ e, CStoreTable cat relationId = Raise e →
     get_rel_relkind cat relationId = "f"%char ∧ ∃ oid, e = CacheLookupFailed oid).
Proof using Type.
  intros Hn Hnul.
  assert (∀ w id, pg_foreign_data_wrapper cat !! id = Some w →
            (strncmp (fdwname w) CSTORE_FDW_NAME NAMEDATALEN =? 0)
            = bool_decide (fdwname w = "cstore_fdw")) as Hcmp.
  { intros w id Hw. apply strncmp_literal_eqb; [done|by eapply Hnul|simpl; lia]. }
  assert (∀ r, pg_class cat !! relationId = Some r →
            Ascii.eqb (get_rel_relkind cat relationId) RELKIND_FOREIGN_TABLE
            = bool_decide (relkind r = "f"%char)) as Hkind.
  { intros r Hr. unfold get_rel_relkind. rewrite Hr.
    destruct (Ascii.eqb_spec (relkind r) RELKIND_FOREIGN_TABLE);
      by case_bool_decide. }
  split_and!.
  - unfold CStoreTable, GetForeignTable, GetForeignServer, GetForeignDataWrapper,
      lookup_or_fail.
    destruct (decide (relationId = InvalidOid)) as [->|Hid].
    { split; [done|]. by intros [? _]. }
    destruct (pg_class cat !! relationId) as [r|] eqn:Hr.
    2:{ unfold get_rel_relkind. rewrite Hr. cbn. split; [done|].
        by intros (_ & ? & ? & ? & ? & [=] & _). }
    rewrite (Hkind r eq_refl).
    case_bool_decide as Hk.
    2:{ split; [done|]. intros (_ & r' & ? & ? & ? & [= <-] & ? & _). done. }
    destruct (pg_foreign_table cat !! relationId) as [ft|] eqn:Hft; cbn [res_bind].
    2:{ split; [done|]. by intros (_ & ? & ? & ? & ? & _ & _ & [=] & _). }
    destruct (pg_foreign_server cat !! ft_serverid ft) as [srv|] eqn:Hsrv;
      cbn [res_bind].
    2:{ split; [done|]. intros (_ & ? & ft' & ? & ? & _ & _ & [= <-] & Hs & _).
        by rewrite Hsrv in Hs. }
    destruct (pg_foreign_data_wrapper cat !! srv_fdwid srv) as [w|] eqn:Hw;
      cbn [res_bind].
    2:{ split; [done|].
        intros (_ & ? & ft' & srv' & ? & _ & _ & [= <-] & Hs & Hw' & _).
        rewrite Hsrv in Hs. injection Hs as <-. by rewrite Hw in Hw'. }
    rewrite (Hcmp w _ Hw). split.
    + intros [= Hb]. apply bool_decide_eq_true in Hb.
      split; [done|]. by exists r, ft, srv, w.
    + intros (_ & ? & ft' & srv' & w' & _ & _ & [= <-] & Hs & Hw' & Hname).
      rewrite Hsrv in Hs. injection Hs as <-. rewrite Hw in Hw'.
      injection Hw' as <-. by rewrite bool_decide_true.
  - done.
  - intros Hk. unfold CStoreTable. destruct (decide _); [done|].
    destruct (Ascii.eqb_spec (get_rel_relkind cat relationId) RELKIND_FOREIGN_TABLE);
      done.
  - intros Hr. unfold CStoreTable, get_rel_relkind. rewrite Hr.
    by destruct (decide _).
  - intros e. unfold CStoreTable, GetForeignTable, GetForeignServer,
      GetForeignDataWrapper, lookup_or_fail.
    destruct (decide _); [done|].
    destruct (Ascii.eqb_spec (get_rel_relkind cat relationId) RELKIND_FOREIGN_TABLE)
      as [Hk|Hk]; [|done].
    intros He. split; [done|].
    destruct (pg_foreign_table cat !! relationId) as [ft|]; cbn [res_bind] in He;
      [|injection He as <-; eauto].
    destruct (pg_foreign_server cat !! ft_serverid ft) as [srv|];
      cbn [res_bind] in He; [|injection He as <-; eauto].
    destruct (pg_foreign_data_wrapper cat !! srv_fdwid srv) as [w|];
      cbn [res_bind] in He; [done|injection He as <-; eauto].
Qed.

(** ** Looking an option up *)

Lemma find_option_app (l1 l2 : list DefElem) (name : string) :
  find_option (l1 ++ l2) name
  = match find_option l1 name with
    | Some v => Some v
    | None => find_option l2 name
    end.
Proof using Type.
  induction l1 as [|d l1 IH]; [done|]. cbn [app find_option].
  by destruct (_ =? 0).
Qed.

(** X2. [CStoreGetOptionValue] returns the value of the first option of
    that name on the foreign table, else of the first one on its server, else
    nothing; it raises a failed lookup when the table or the server has no
    catalog entry. *)
Theorem CStoreGetOptionValue_table_before_server (cat : Catalog)
    (foreignTableId : Oid) (name : string) :
  nul_free name = true → (String.length name < NAMEDATALEN)%nat →
  (∀ ft srv,
     pg_foreign_table cat !! foreignTableId = Some ft →
     pg_foreign_server cat !! ft_serverid ft = Some srv →
     Forall (λ d, nul_free (defname d) = true) (ft_options ft) →
     Forall (λ d, nul_free (defname d) = true) (srv_options srv) →
     CStoreGetOptionValue cat foreignTableId name
     = Ok match List.find (λ d, bool_decide (defname d = name)) (ft_options ft) with
          | Some d => Some (defarg d)
          | None => defarg <$> List.find (λ d, bool_decide (defname d = name))
                                 (srv_options srv)
          end) ∧
  (pg_foreign_table cat !! foreignTableId = None →
     CStoreGetOptionValue cat foreignTableId name
     = Raise (CacheLookupFailed foreignTableId)) ∧
  (∀ ft, pg_foreign_table cat !! foreignTableId = Some ft →
     pg_foreign_server cat !! ft_serverid ft = None →
     CStoreGetOptionValue cat foreignTableId name
     = Raise (CacheLookupFailed (ft_serverid ft))).
Proof using Type.
  intros Hname Hlen. split_and!.
  - intros ft srv Hft Hsrv Ht Hs.
    rewrite (CStoreGetOptionValue_found _ _ ft srv)
      by (unfold GetForeignTable, GetForeignServer, lookup_or_fail;
          by rewrite ?Hft, ?Hsrv).
    rewrite find_option_app, !find_option_exact by done.
    by destruct (List.find _ (ft_options ft)).
  - intros Hft. unfold CStoreGetOptionValue, GetForeignTable, lookup_or_fail.
    by rewrite Hft.
  - intros ft Hft Hsrv.
    unfold CStoreGetOptionValue, GetForeignTable, GetForeignServer, lookup_or_fail.
    rewrite Hft. cbn [res_bind]. by rewrite Hsrv.
Qed.

(** ** What option resolution hands to the sessions *)

(** X3. Whatever the options of the table are, a record returned by
    [CStoreGetOptions] holds one of the four named compression kinds, a
    stripe row count in [1000, 10000000] and a block row count in
    [1000, 100000]. *)
Theorem CStoreGetOptions_result_in_range (cat : Catalog) (foreignTableId : Oid)
    (o : CStoreFdwOptions) :
  CStoreGetOptions cat foreignTableId = Ok o →
  compressionType o ∈ [COMPRESSION_NONE; COMPRESSION_PG_LZ; COMPRESSION_LZ4;
                       COMPRESSION_ENC_LZ4] ∧
  1000 ≤ stripeRowCount o ≤ 10000000 ∧
  1000 ≤ opt_blockRowCount o ≤ 100000.
Proof using Type.
  intros Ho.
  assert (∃ ft srv, GetForeignTable cat foreignTableId = Ok ft ∧
                    GetForeignServer cat (ft_serverid ft) = Ok srv)
    as (ft & srv & Hft & Hsrv).
  { unfold CStoreGetOptions, CStoreGetOptionValue in Ho.
    destruct (GetForeignTable cat foreignTableId) as [ft|]; [|done].
    cbn [res_bind] in Ho.
    destruct (GetForeignServer cat (ft_serverid ft)) as [srv|] eqn:Hsrv; [|done].
    by exists ft, srv. }
  rewrite (CStoreGetOptions_resolved _ _ ft srv Hft Hsrv) in Ho. cbv zeta in Ho.
  destruct (ValidateForeignTableOptions _ _ _ _) as [[]|] eqn:Hv; [|done].
  apply ValidateForeignTableOptions_ok_iff in Hv as (Hc & Hs & Hb).
  cbn [res_bind] in Ho.
  destruct (match find_option _ OPTION_NAME_FILENAME with
            | Some f => Ok f | None => _ end) as [f|]; [|done].
  cbn [res_bind] in Ho. injection Ho as <-. cbn. split_and!.
  - destruct (find_option _ OPTION_NAME_COMPRESSION_TYPE) as [x|].
    + specialize (Hc x eq_refl). revert Hc. unfold ParseCompressionType.
      repeat (destruct (_ =? 0); [intros _; set_solver|]). done.
    + set_solver.
  - destruct (find_option _ OPTION_NAME_STRIPE_ROW_COUNT) as [x|]; [|lia].
    destruct (Hs x eq_refl) as (v & -> & ?). cbn. lia.
  - destruct (find_option _ OPTION_NAME_STRIPE_ROW_COUNT) as [x|]; [|lia].
    destruct (Hs x eq_refl) as (v & -> & ?). cbn. lia.
  - destruct (find_option _ OPTION_NAME_BLOCK_ROW_COUNT) as [x|]; [|lia].
    destruct (Hb x eq_refl) as (v & -> & ?). cbn. lia.
  - destruct (find_option _ OPTION_NAME_BLOCK_ROW_COUNT) as [x|]; [|lia].
    destruct (Hb x eq_refl) as (v & -> & ?). cbn. lia.
Qed.


(** ** The default file path *)

Lemma format_u_inj (n m : N) : format_u n = format_u m → n = m.
Proof using Type.
  unfold format_u. intros H.
  assert (∀ k, N.to_uint k ≠ Decimal.Nil) as Hnn.
  { intros [|p]; [done|]. apply DecimalPos.Unsigned.to_uint_nonnil. }
  apply (f_equal NilZero.uint_of_string) in H.
  rewrite !NilZero.usu in H by apply Hnn.
  injection H as H. by apply DecimalN.Unsigned.to_uint_inj.
Qed.

Lemma digits_no_slash (d : Decimal.uint) (a b : string) :
  NilEmpty.string_of_uint d ≠ a +:+ String "/" b.
Proof using Type.
  revert a. induction d; intros [|c a]; cbn [NilEmpty.string_of_uint];
    rewrite ?append_cons; try done;
    try (change ("" +:+ String "/" b) with (String "/" b); done);
    intros [= _ H]; by eapply IHd.
Qed.

Lemma format_u_no_slash (n : N) (a b : string) : format_u n ≠ a +:+ String "/" b.
Proof using Type.
  unfold format_u, NilZero.string_of_uint.
  destruct (N.to_uint n) eqn:Hd; try apply digits_no_slash.
  destruct a as [|c a]; [done|]. rewrite append_cons. intros [= _ H].
  by destruct a.
Qed.

(** Two strings cut at their first slash. *)
Lemma split_at_slash (a a' b b' : string) :
  (∀ x y, a ≠ x +:+ String "/" y) → (∀ x y, a' ≠ x +:+ String "/" y) →
  a +:+ String "/" b = a' +:+ String "/" b' → a = a' ∧ b = b'.
Proof using Type.
  revert a'. induction a as [|c a IH]; intros [|c' a'] Ha Ha' H.
  - by injection H.
  - change ("" +:+ String "/" b) with (String "/" b) in H. rewrite append_cons in H.
    injection H as <- _. by destruct (Ha' "" a').
  - change ("" +:+ String "/" b') with (String "/" b') in H.
    rewrite append_cons in H. injection H as -> _. by destruct (Ha "" a).
  - rewrite !append_cons in H. injection H as -> H.
    destruct (IH a') as [-> ->]; [| |done|done].
    + intros x y ->. by destruct (Ha (String c' x) y).
    + intros x y ->. by destruct (Ha' (String c' x) y).
Qed.

(** X4. The default file path of a table is the data directory followed by
    "/cstore_fdw/", the database id, "/" and the relation's file node, both
    in decimal; two relations get the same default path only when they have
    the same database id and the same file node.  Without a catalog entry for
    the relation there is no default path. *)
Theorem CStoreDefaultFilePath_injective (cat : Catalog) (id1 id2 : Oid) (p : string) :
  CStoreDefaultFilePath cat id1 = Ok p →
  CStoreDefaultFilePath cat id2 = Ok p →
  ∃ r1 r2, pg_class cat !! id1 = Some r1 ∧ pg_class cat !! id2 = Some r2 ∧
           rd_node_dbNode r1 = rd_node_dbNode r2 ∧
           rd_node_relNode r1 = rd_node_relNode r2 ∧
           p = DataDir +:+ "/cstore_fdw/" +:+ format_u (rd_node_dbNode r1)
                 +:+ "/" +:+ format_u (rd_node_relNode r1).
Proof using Type.
  unfold CStoreDefaultFilePath, relation_open, lookup_or_fail.
  destruct (pg_class cat !! id1) as [r1|]; [|done].
  destruct (pg_class cat !! id2) as [r2|]; [|done].
  cbn [res_bind]. intros [= <-] [= H].
  exists r1, r2. split; [done|]. split; [done|].
  do 4 apply (inj (String.append _)) in H.
  apply split_at_slash in H as [H1 H2]; try apply format_u_no_slash.
  apply format_u_inj in H1, H2. by rewrite H1, H2.
Qed.


(** ** The option validator *)

Lemma option_is_valid_spec (ctx : Oid) (name : string) :
  (16 < NAMEDATALEN)%nat → nul_free name = true →
  option_is_valid ctx name
  = bool_decide (ctx = ForeignTableRelationId)
    && bool_decide (name ∈ ["filename"; "compression"; "stripe_row_count";
                            "block_row_count"]).
Proof using Type.
  intros Hn Hname. unfold option_is_valid.
  change (take (Z.to_nat ValidOptionCount) ValidOptionArray) with ValidOptionArray.
  unfold ValidOptionArray. cbn [existsb optionName optionContextId].
  rewrite !strncmp_literal_eqb by (done || (simpl; lia)).
  rewrite orb_false_r, <- !andb_orb_distrib_r. f_equal.
  rewrite (bool_decide_ext (name ∈ _)
             (name = "filename" ∨ name = "compression"
              ∨ name = "stripe_row_count" ∨ name = "block_row_count")).
  - by rewrite !bool_decide_or.
  - rewrite !elem_of_cons, elem_of_nil.
    split; [intros [?|[?|[?|[?|[]]]]]|intros [?|[?|[?|?]]]]; auto 6.
Qed.

Lemma OptionNamesString_spec (ctx : Oid) :
  OptionNamesString ctx
  = if bool_decide (ctx = ForeignTableRelationId)
    then "filename, compression, stripe_row_count, block_row_count" else "".
Proof using Type.
  unfold OptionNamesString.
  change (take (Z.to_nat ValidOptionCount) ValidOptionArray) with ValidOptionArray.
  unfold ValidOptionArray. cbn [fold_left].
  destruct (decide (ctx = ForeignTableRelationId)) as [Hctx|Hctx].
  - repeat (cbv beta iota zeta delta [optionContextId optionName];
            rewrite (bool_decide_true (ctx = ForeignTableRelationId)) by done).
    done.
  - repeat (cbv beta iota zeta delta [optionContextId optionName];
            rewrite (bool_decide_false (ctx = ForeignTableRelationId)) by done).
    done.
Qed.

(** The outer loop of the validator in the context of a foreign table: it
    stops at the first option whose name is not a valid one; otherwise each
    of the four values is the one given last, or the one held before. *)
Lemma validate_options_table (optionList : list DefElem) :
  (16 < NAMEDATALEN)%nat →
  Forall (λ d, nul_free (defname d) = true) optionList →
  ∀ f c s b,
  let names := ["filename"; "compression"; "stripe_row_count"; "block_row_count"] in
  let upd name (x : option string) :=
    match find_option (reverse optionList) name with
    | Some v => Some v
    | None => x
    end in
  validate_options ForeignTableRelationId (f, c, s, b) optionList
  = match List.find (λ d, bool_decide (defname d ∉ names)) optionList with
    | Some d =>
        Raise (InvalidOptionName (defname d)
                 "filename, compression, stripe_row_count, block_row_count")
    | None => Ok (upd "filename" f, upd "compression" c,
                  upd "stripe_row_count" s, upd "block_row_count" b)
    end.
Proof using Type.
  intros Hn Hall. induction Hall as [|d l Hd Hl IH]; intros f c s b names upd.
  { done. }
  cbn [validate_options List.find]. unfold validate_option.
  rewrite option_is_valid_spec, OptionNamesString_spec by done.
  rewrite bool_decide_true by done. cbn [andb].
  fold names.
  assert (∀ name x, nul_free name = true → (String.length name < NAMEDATALEN)%nat →
            upd name x
            = match find_option (reverse l) name with
              | Some v => Some v
              | None => if bool_decide (defname d = name) then Some (defarg d) else x
              end) as Hupd.
  { intros name x H1 H2. subst upd. cbn beta.
    rewrite reverse_cons, find_option_app. cbn [find_option].
    rewrite strncmp_literal_eqb by done.
    destruct (find_option (reverse l) name); [done|]. by case_bool_decide. }
  rewrite !Hupd by (done || (simpl; lia)).
  rewrite !strncmp_literal_eqb by (done || (simpl; lia)).
  change OPTION_NAME_FILENAME with "filename".
  change OPTION_NAME_COMPRESSION_TYPE with "compression".
  change OPTION_NAME_STRIPE_ROW_COUNT with "stripe_row_count".
  change OPTION_NAME_BLOCK_ROW_COUNT with "block_row_count".
  destruct (decide (defname d ∈ names)) as [Hin|Hin].
  - rewrite (bool_decide_true (defname d ∈ names)) by done.
    rewrite (bool_decide_false (defname d ∉ names)) by (intros ?; done).
    cbn [negb].
    subst names. rewrite !elem_of_cons, elem_of_nil in Hin.
    destruct Hin as [Hd'|[Hd'|[Hd'|[Hd'|[]]]]]; rewrite Hd';
      repeat (case_bool_decide; try done); cbn [res_bind]; apply IH.
  - rewrite (bool_decide_false (defname d ∈ names)) by done.
    rewrite (bool_decide_true (defname d ∉ names)) by done. done.
Qed.

(** X5. The validator, for option names without NUL: in the context of a
    foreign table it raises invalid-option for the first option whose name is
    not one of filename, compression, stripe_row_count, block_row_count (the
    hint lists these four), and otherwise gives the verdict of
    [ValidateForeignTableOptions] on the value given last for each name; in
    every other context it accepts the empty option list only, and raises
    invalid-option with an empty hint for the first option of any other
    list. *)
Theorem cstore_fdw_validator_spec (optionList : list DefElem) (ctx : Oid) :
  (16 < NAMEDATALEN)%nat →
  Forall (λ d, nul_free (defname d) = true) optionList →
  let names := ["filename"; "compression"; "stripe_row_count"; "block_row_count"] in
  let last name := find_option (reverse optionList) name in
  cstore_fdw_validator optionList ctx
  = if bool_decide (ctx = ForeignTableRelationId)
    then match List.find (λ d, bool_decide (defname d ∉ names)) optionList with
         | Some d =>
             Raise (InvalidOptionName (defname d)
                      "filename, compression, stripe_row_count, block_row_count")
         | None =>
             ValidateForeignTableOptions (last "filename") (last "compression")
               (last "stripe_row_count") (last "block_row_count")
         end
    else match optionList with
         | [] => Ok tt
         | d :: _ => Raise (InvalidOptionName (defname d) "")
         end.
Proof using Type.
  intros Hn Hall names last. unfold cstore_fdw_validator.
  case_bool_decide as Hctx.
  - subst ctx. rewrite validate_options_table by done. cbv zeta. fold names.
    destruct (List.find _ optionList); [done|]. cbn [res_bind].
    subst last. cbn beta.
    by repeat (destruct (find_option (reverse optionList) _)).
  - destruct Hall as [|d l Hd Hl]; [done|].
    cbn [validate_options]. unfold validate_option.
    rewrite option_is_valid_spec, OptionNamesString_spec by done.
    by rewrite !bool_decide_false by done.
Qed.


(** ** Page counts *)

Lemma to_int32_small z : - 2 ^ 31 ≤ z < 2 ^ 31 → to_int32 z = z.
Proof using Type. intros. unfold to_int32. rewrite Z.mod_small; lia. Qed.

Lemma PageCount_run filename st :
  PageCount filename st
  = (Ok (let size := match fs st !! filename with
                     | Some f => file_size (content f)
                     | None => to_int32 (10 * BLCKSZ)
                     end in
         let pageCount := to_uint32 (Z.quot (to_int64 (size + (BLCKSZ - 1))) BLCKSZ) in
         if pageCount <? 1 then 1 else pageCount),
     emit (SysStat filename) st).
Proof using Type.
  unfold PageCount, bind. rewrite stat_run. cbn.
  by destruct (fs st !! filename).
Qed.

(** Rounding up to whole blocks. *)
Lemma ceil_div_bounds (size B : Z) :
  0 < B → 0 < size →
  (((size + (B - 1)) / B) - 1) * B < size ≤ ((size + (B - 1)) / B) * B.
Proof using Type.
  intros HB Hs.
  pose proof (Z.mul_div_le (size + (B - 1)) B HB).
  pose proof (Z.mul_succ_div_gt (size + (B - 1)) B HB).
  nia.
Qed.

Lemma PageCount_result (filename : string) (st : State) :
  0 < BLCKSZ ≤ 32768 →
  ∃ n, PageCount filename st = (Ok n, emit (SysStat filename) st) ∧
       1 ≤ n < 2 ^ 32 ∧
       (fs st !! filename = None → n = 10) ∧
       (∀ f, fs st !! filename = Some f →
          let size := file_size (content f) in
          0 ≤ size ≤ (2 ^ 32 - 1) * BLCKSZ →
          (size = 0 → n = 1) ∧
          (0 < size → (n - 1) * BLCKSZ < size ≤ n * BLCKSZ)).
Proof using Type.
  intros HB. rewrite PageCount_run. eexists. split; [done|]. cbv zeta.
  split_and!.
  - destruct (Z.ltb_spec (to_uint32 (Z.quot (to_int64
        (match fs st !! filename with
         | Some f => file_size (content f)
         | None => to_int32 (10 * BLCKSZ)
         end + (BLCKSZ - 1))) BLCKSZ)) 1); lia.
  - unfold to_uint32.
    destruct (Z.ltb_spec ((Z.quot (to_int64
        (match fs st !! filename with
         | Some f => file_size (content f)
         | None => to_int32 (10 * BLCKSZ)
         end + (BLCKSZ - 1))) BLCKSZ) mod 2 ^ 32) 1); [lia|].
    apply Z.mod_pos_bound. lia.
  - intros ->. rewrite to_int32_small by lia.
    rewrite to_int64_small by (unfold INT64_MIN, INT64_MAX; lia).
    rewrite Z.quot_div_nonneg by lia.
    replace (10 * BLCKSZ + (BLCKSZ - 1)) with ((BLCKSZ - 1) + 10 * BLCKSZ) by lia.
    rewrite Z.div_add by lia. rewrite Z.div_small by lia.
    by rewrite to_uint32_small by lia.
  - intros f -> Hsize. set (size := file_size (content f)) in *.
    rewrite to_int64_small by (unfold INT64_MIN, INT64_MAX; nia).
    rewrite Z.quot_div_nonneg by lia.
    split.
    + intros ->. rewrite Z.add_0_l, Z.div_small by lia. done.
    + intros Hpos.
      pose proof (ceil_div_bounds size BLCKSZ ltac:(lia) Hpos) as Hc.
      assert (1 ≤ (size + (BLCKSZ - 1)) / BLCKSZ ≤ 2 ^ 32 - 1) as Hq.
      { split; [apply Z.div_le_lower_bound; lia|].
        apply Z.lt_succ_r, Z.div_lt_upper_bound; nia. }
      rewrite to_uint32_small by lia.
      destruct (Z.ltb_spec ((size + (BLCKSZ - 1)) / BLCKSZ) 1); [lia|]. lia.
Qed.

(** X6. [PageCount] makes one [stat] call, never raises and never answers 0:
    a file that cannot be stat'ed counts for 10 pages, an empty file for 1,
    and a file of [size] bytes (below 2^32 blocks) for the least number of
    blocks that hold [size] bytes.  ([BLCKSZ] is positive and at most
    32768.) *)
Theorem PageCount_spec (filename : string) (st : State) :
  0 < BLCKSZ ≤ 32768 →
  ∃ n, PageCount filename st = (Ok n, emit (SysStat filename) st) ∧
       1 ≤ n < 2 ^ 32 ∧
       (fs st !! filename = None → n = 10) ∧
       (∀ f, fs st !! filename = Some f →
          let size := file_size (content f) in
          0 ≤ size ≤ (2 ^ 32 - 1) * BLCKSZ →
          (size = 0 → n = 1) ∧
          (0 < size → (n - 1) * BLCKSZ < size ≤ n * BLCKSZ)).
Proof using Type. apply PageCount_result. Qed.

(** X7. ANALYZE of a table whose data file cannot be stat'ed raises the
    could-not-stat error (where planning falls back to 10 pages); otherwise
    [CStoreAnalyzeForeignTable] returns true with the page count of
    [PageCount], at least 1, and changes no file. *)
Theorem CStoreAnalyzeForeignTable_spec (foreignTableId : Oid) (st : State)
    (opts : CStoreFdwOptions) :
  0 < BLCKSZ ≤ 32768 →
  CStoreGetOptions (catalog st) foreignTableId = Ok opts →
  (fs st !! filename opts = None →
     CStoreAnalyzeForeignTable foreignTableId st
     = (Raise (CouldNotStatFile (filename opts)), emit (SysStat (filename opts)) st) ∧
     (PageCount (filename opts) st).1 = Ok 10) ∧
  (is_Some (fs st !! filename opts) →
     ∃ n st', CStoreAnalyzeForeignTable foreignTableId st = (Ok (true, n), st') ∧
              (PageCount (filename opts) st).1 = Ok n ∧
              1 ≤ n < 2 ^ 32 ∧ fs st' = fs st ∧ catalog st' = catalog st).
Proof using Type.
  intros HB Ho. split.
  - intros Hf. split.
    + unfold CStoreAnalyzeForeignTable, bind, with_catalog. rewrite Ho, stat_run.
      cbn. by rewrite Hf.
    + destruct (PageCount_result (filename opts) st HB) as (n & -> & _ & Hn & _).
      cbn. by rewrite Hn.
  - intros [f Hf].
    destruct (PageCount_result (filename opts) (emit (SysStat (filename opts)) st) HB)
      as (n & Hp & Hn & _).
    exists n. eexists. split_and!.
    + unfold CStoreAnalyzeForeignTable, bind, with_catalog. rewrite Ho, stat_run.
      cbn -[PageCount]. rewrite Hf. cbn -[PageCount]. by rewrite Hp.
    + rewrite PageCount_run in Hp |- *. cbn in *. by injection Hp as <-.
    + lia.
    + lia.
    + done.
    + done.
Qed.


(** ** The columns of a query *)

Lemma list_member_true {A} `{EqDecision A} (l : list A) (x : A) :
  list_member l x = true ↔ x ∈ l.
Proof using Type.
  unfold list_member. rewrite existsb_exists. split.
  - intros (y & Hy & Heq). apply bool_decide_eq_true in Heq as ->.
    by apply list_elem_of_In.
  - intros Hx. exists x. split; [by apply list_elem_of_In|by apply bool_decide_eq_true].
Qed.

Lemma elem_of_list_union {A} `{EqDecision A} (l2 l1 : list A) (x : A) :
  x ∈ list_union l1 l2 ↔ x ∈ l1 ∨ x ∈ l2.
Proof using Type.
  unfold list_union. revert l1. induction l2 as [|y l2 IH]; intros l1; cbn [fold_left].
  - rewrite elem_of_nil. split; [auto|]. by intros [?|[]].
  - rewrite IH, elem_of_cons. destruct (list_member l1 y) eqn:Hm.
    + apply list_member_true in Hm. split.
      * intros [?|?]; auto.
      * intros [?|[->|?]]; auto.
    + rewrite elem_of_app, list_elem_of_singleton. split.
      * intros [[?|?]|?]; auto.
      * intros [?|[?|?]]; auto.
Qed.

Lemma elem_of_needed_columns (ris : list RestrictInfo) (targets : list Var) (x : Var) :
  x ∈ fold_left (λ needed ri, list_union needed (pull_var_clause (clause ri)))
        ris targets
  ↔ x ∈ targets ∨ ∃ ri, ri ∈ ris ∧ x ∈ pull_var_clause (clause ri).
Proof using Type.
  revert targets. induction ris as [|ri ris IH]; intros targets; cbn [fold_left].
  - split; [auto|]. intros [?|(? & Hin & _)]; [done|]. by apply elem_of_nil in Hin.
  - rewrite IH, elem_of_list_union. split.
    + intros [[?|?]|(ri' & ? & ?)]; [by left|right..].
      * exists ri. split; [apply list_elem_of_here|done].
      * exists ri'. split; [by apply list_elem_of_further|done].
    + intros [?|(ri' & Hin & ?)]; [by left; left|].
      apply elem_of_cons in Hin as [->|?]; [by left; right|].
      right. by exists ri'.
Qed.

Lemma collect_columns (f : Z → option Var) (l : list Z) (acc : list Var) :
  fold_left (λ columnList i, match f i with
                             | Some column => (columnList ++ [column])%list
                             | None => columnList
                             end) l acc
  = (acc ++ omap f l)%list.
Proof using Type.
  revert acc. induction l as [|i l IH]; intros acc; cbn [fold_left omap list_omap].
  - by rewrite app_nil_r.
  - rewrite IH. destruct (f i); [by rewrite <- app_assoc|done].
Qed.

Lemma StronglySorted_seqZ (m n : Z) : StronglySorted Z.lt (seqZ m n).
Proof using Type.
  remember (Z.to_nat n) as k eqn:Hk. revert m n Hk.
  induction k as [|k IH]; intros m n Hk.
  - rewrite seqZ_nil by lia. constructor.
  - rewrite seqZ_cons by lia. constructor; [apply IH; lia|].
    apply Forall_seqZ. lia.
Qed.

Lemma StronglySorted_omap_attno (f : Z → option Var) (l : list Z) :
  (∀ i c, f i = Some c → varattno c = i) →
  StronglySorted Z.lt l →
  StronglySorted Z.lt (varattno <$> omap f l).
Proof using Type.
  intros Hf Hl. induction Hl as [|i l Hl IH Hall]; [constructor|].
  cbn [omap list_omap]. destruct (f i) as [c|] eqn:Hc; [|done].
  cbn [fmap list_fmap]. constructor; [done|].
  rewrite (Hf i c Hc). apply Forall_forall. intros j Hj.
  apply list_elem_of_fmap in Hj as (c' & -> & Hc').
  apply list_elem_of_omap in Hc' as (j & Hj & Hfj).
  rewrite (Hf j c' Hfj). rewrite Forall_forall in Hall. by apply Hall.
Qed.

Lemma StronglySorted_lt_NoDup (l : list Z) : StronglySorted Z.lt l → NoDup l.
Proof using Type.
  induction 1 as [|x l Hl IH Hall]; constructor; [|done].
  intros Hx. rewrite Forall_forall in Hall. specialize (Hall x Hx). lia.
Qed.

(** X8. [ColumnList] returns, in increasing order of attribute number and
    without repetition, exactly the columns that occur in the target list or
    in a restriction clause and whose attribute number lies between 1 and
    [max_attr]: system columns and whole-row references are left out. *)
Theorem ColumnList_spec (baserel : RelOptInfo) :
  max_attr baserel < 32767 →
  (∀ v, v ∈ ColumnList baserel ↔
        (v ∈ reltargetlist baserel
         ∨ ∃ ri, ri ∈ baserestrictinfo baserel ∧ v ∈ pull_var_clause (clause ri))
        ∧ 1 ≤ varattno v ≤ max_attr baserel) ∧
  StronglySorted Z.lt (varattno <$> ColumnList baserel) ∧
  NoDup (ColumnList baserel).
Proof using Type.
  intros _. unfold ColumnList. rewrite collect_columns, app_nil_l.
  set (needed := fold_left _ (baserestrictinfo baserel) (reltargetlist baserel)).
  set (f := λ i : Z, List.find (λ c, varattno c =? i) needed).
  assert (∀ i c, f i = Some c → varattno c = i ∧ c ∈ needed) as Hf.
  { intros i c Hc. apply find_some in Hc as [Hin Heq].
    split; [lia|by apply list_elem_of_In]. }
  assert (StronglySorted Z.lt (varattno <$> omap f (seqZ 1 (max_attr baserel))))
    as Hsorted.
  { apply StronglySorted_omap_attno; [|apply StronglySorted_seqZ].
    intros i c Hc. by apply Hf. }
  split_and!.
  - intros v. rewrite list_elem_of_omap. subst needed.
    rewrite <- elem_of_needed_columns.
    set (needed := fold_left _ (baserestrictinfo baserel) (reltargetlist baserel))
      in *.
    split.
    + intros (i & Hi & Hc). apply elem_of_seqZ in Hi.
      destruct (Hf i v Hc) as [<- ?]. split; [done|lia].
    + intros [Hin Hr]. exists (varattno v). split; [apply elem_of_seqZ; lia|].
      destruct (f (varattno v)) as [c|] eqn:Hc.
      * destruct (Hf _ _ Hc) as [Heq _]. f_equal. destruct c, v. cbn in Heq.
        by rewrite Heq.
      * apply list_elem_of_In in Hin.
        pose proof (find_none _ _ Hc v Hin) as Hn. cbn in Hn. lia.
  - done.
  - apply (NoDup_fmap_1 varattno). by apply StronglySorted_lt_NoDup.
Qed.


(** The constructors an error of option resolution is built with: what tells
    it from a failure of the scan itself. *)
Lemma CStoreGetOptions_errors (cat : Catalog) (foreignTableId : Oid) (e : ErrorData) :
  CStoreGetOptions cat foreignTableId = Raise e →
  (∃ oid, e = CacheLookupFailed oid) ∨ e = InvalidCompressionType
  ∨ e = InvalidStripeRowCount ∨ e = InvalidBlockRowCount
  ∨ ∃ s, e = InvalidIntegerInput s.
Proof using Type.
  intros He.
  destruct (GetForeignTable cat foreignTableId) as [ft|e1] eqn:Hft.
  2:{ unfold CStoreGetOptions, CStoreGetOptionValue in He. rewrite Hft in He.
      cbn in He. injection He as <-. left.
      unfold GetForeignTable, lookup_or_fail in Hft.
      destruct (_ !! _); [done|]. injection Hft as <-. eauto. }
  destruct (GetForeignServer cat (ft_serverid ft)) as [srv|e1] eqn:Hsrv.
  2:{ unfold CStoreGetOptions, CStoreGetOptionValue in He. rewrite Hft in He.
      cbn [res_bind] in He. rewrite Hsrv in He. cbn in He. injection He as <-. left.
      unfold GetForeignServer, lookup_or_fail in Hsrv.
      destruct (_ !! _); [done|]. injection Hsrv as <-. eauto. }
  rewrite (CStoreGetOptions_resolved _ _ ft srv Hft Hsrv) in He. cbv zeta in He.
  destruct (ValidateForeignTableOptions _ _ _ _) as [[]|e1] eqn:Hv.
  - cbn [res_bind] in He.
    destruct (find_option _ OPTION_NAME_FILENAME); [done|].
    unfold CStoreDefaultFilePath, relation_open, lookup_or_fail in He.
    destruct (_ !! _); [done|]. cbn in He. injection He as <-. eauto.
  - cbn [res_bind] in He. injection He as <-.
    rewrite ValidateForeignTableOptions_unfold in Hv.
    destruct (find_option _ OPTION_NAME_COMPRESSION_TYPE) as [c|];
      [destruct (decide _); [injection Hv as <-; auto|]|];
      cbn [res_bind] in Hv;
      (destruct (find_option _ OPTION_NAME_STRIPE_ROW_COUNT) as [x|];
       [destruct (pg_atoi x);
        [case_bool_decide; [|injection Hv as <-; auto]
        |injection Hv as <-; eauto 6]|]);
      cbn [res_bind] in Hv;
      (destruct (find_option _ OPTION_NAME_BLOCK_ROW_COUNT) as [y|];
       [destruct (pg_atoi y);
        [case_bool_decide; [done|injection Hv as <-; auto 6]
        |injection Hv as <-; eauto 6]|done]).
Qed.

(** ** Scans *)

(** X9. EXPLAIN without ANALYZE: with the explain-only flag set,
    [CStoreBeginForeignScan] returns the scan state as it is and does
    nothing else, whatever the options and the files of the table are; the
    explain callback then adds the file name and, when costs are shown and
    the file can be stat'ed, its size, and the end callback has no session to
    close.  No file is opened or changed; the one system call is that
    [stat]. *)
Theorem explain_only_scan_opens_no_file (scanState : ForeignScanState)
    (executorFlags : Z) (explainState : ExplainState) (st : State) :
  Z.land executorFlags EXEC_FLAG_EXPLAIN_ONLY ≠ 0 →
  fdw_state scanState = None →
  CStoreBeginForeignScan scanState executorFlags st = (Ok scanState, st) ∧
  CStoreEndForeignScan scanState st = (Ok tt, st) ∧
  (∀ e, CStoreGetOptions (catalog st) (ss_currentRelation scanState) = Raise e →
     CStoreExplainForeignScan scanState explainState st = (Raise e, st)) ∧
  (∀ opts, CStoreGetOptions (catalog st) (ss_currentRelation scanState) = Ok opts →
     ∃ st',
       (let* ss := CStoreBeginForeignScan scanState executorFlags in
        let* output := CStoreExplainForeignScan ss explainState in
        run CStoreEndForeignScan ss then
        ret output) st
       = (Ok (PropertyText "CStore File" (filename opts)
              :: if costs explainState
                 then match fs st !! filename opts with
                      | Some f => [PropertyLong "CStore File Size"
                                     (to_int64 (file_size (content f)))]
                      | None => []
                      end
                 else []), st') ∧
       fs st' = fs st ∧ catalog st' = catalog st ∧
       events st' = (events st ++ if costs explainState
                                  then [SysStat (filename opts)] else [])%list).
Proof using Type.
  intros Hflag Hnone.
  assert (CStoreBeginForeignScan scanState executorFlags st = (Ok scanState, st))
    as Hbegin.
  { unfold CStoreBeginForeignScan.
    destruct (Z.eqb_spec (Z.land executorFlags EXEC_FLAG_EXPLAIN_ONLY) 0); done. }
  assert (∀ s, CStoreEndForeignScan scanState s = (Ok tt, s)) as Hend.
  { intros s. unfold CStoreEndForeignScan. by rewrite Hnone. }
  split_and!; [done|done|..].
  - intros e He. unfold CStoreExplainForeignScan, bind, with_catalog. by rewrite He.
  - intros opts Ho. unfold bind at 1. rewrite Hbegin.
    unfold CStoreExplainForeignScan, bind, with_catalog. rewrite Ho.
    destruct (costs explainState).
    + rewrite stat_run. cbn -[CStoreEndForeignScan].
      destruct (fs st !! filename opts) as [f|]; cbn -[CStoreEndForeignScan];
        rewrite Hend; eexists; (split; [done|]); by cbn.
    + cbn -[CStoreEndForeignScan]. rewrite Hend. eexists. split; [done|].
      cbn. by rewrite app_nil_r.
Qed.

(** X10. A scan that is begun on the plan [CStoreGetForeignPlan] made reads
    with the columns of [ColumnList] and the clauses that are not
    pseudo-constant: beginning the scan is resolving the options and opening
    a read session with exactly these, and it never fails for want of a
    column list. *)
Theorem planned_scan_reads_ColumnList (baserel : RelOptInfo)
    (scanClauses : list RestrictInfo) (scanState : ForeignScanState) (st : State) :
  ss_plan scanState = CStoreGetForeignPlan baserel scanClauses →
  CStoreBeginForeignScan scanState 0 st
  = (let* opts := with_catalog (λ cat, CStoreGetOptions cat
                                         (ss_currentRelation scanState)) in
     let* readState :=
       CStoreBeginRead (filename opts)
         (tts_tupleDescriptor (ss_ScanTupleSlot scanState))
         (ColumnList baserel)
         (clause <$> List.filter (λ ri, negb (pseudoconstant ri)) scanClauses) in
     ret (set_fdw_state (Some readState) scanState)) st ∧
  (CStoreBeginForeignScan scanState 0 st).1 ≠ Raise NullDereference.
Proof using Type.
  intros Hplan.
  assert (extract_actual_clauses scanClauses false
          = clause <$> List.filter (λ ri, negb (pseudoconstant ri)) scanClauses)
    as Hclauses.
  { done. }
  rewrite CStoreBeginForeignScan_0. rewrite Hplan.
  unfold CStoreGetForeignPlan. cbn [fdw_private qual]. rewrite Hclauses.
  unfold bind, with_catalog.
  destruct (CStoreGetOptions _ _) as [opts|e] eqn:Ho.
  - split; [by destruct (CStoreBeginRead _ _ _ _ st) as [[?|?] ?]|].
    rewrite CStoreBeginRead_run. cbv zeta.
    destruct (fs st !! (filename opts +:+ ".footer")) as [f|]; [|done].
    destruct (content f); try done.
    by destruct (fs st !! filename opts).
  - split; [done|]. cbn. intros [= ->].
    apply CStoreGetOptions_errors in Ho as [[? [=]]|[[=]|[[=]|[[=]|[? [=]]]]]].
Qed.


(** ** Directories *)

Lemma cstore_directory_ne (databaseOid : Oid) :
  DataDir +:+ "/" +:+ CSTORE_FDW_NAME
  ≠ DataDir +:+ "/" +:+ CSTORE_FDW_NAME +:+ "/" +:+ format_u databaseOid.
Proof using Type.
  intros H. do 2 apply (inj (String.append _)) in H.
  symmetry in H. by apply append_eq_self in H.
Qed.

Lemma ancestors_no_slash (s : string) :
  (∀ a b, s ≠ a +:+ String "/" b) → ancestors s = [].
Proof using Type.
  induction s as [|c s IH]; intros Hs; [done|]. cbn [ancestors].
  rewrite IH.
  - destruct s as [|c' s]; [done|].
    destruct (decide (c' = "/"%char)) as [->|Hc].
    + by destruct (Hs (String c "") s).
    + destruct c' as [[] [] [] [] [] [] [] []]; try done.
  - intros a b ->. by destruct (Hs (String c a) b).
Qed.

(** The directories above [a/b], for a last component [b]: those above [a],
    and [a] itself. *)
Lemma ancestors_app_slash (a b : string) :
  (∀ x y, b ≠ x +:+ String "/" y) →
  ancestors (a +:+ String "/" b)
  = (ancestors a ++ match a with EmptyString => [] | _ => [a] end)%list.
Proof using Type.
  intros Hb. induction a as [|c a IH].
  - change ("" +:+ String "/" b) with (String "/" b). cbn [ancestors].
    rewrite (ancestors_no_slash b Hb).
    destruct b as [|c' b]; [done|].
    destruct (decide (c' = "/"%char)) as [->|Hc].
    + by destruct (Hb "" b).
    + destruct c' as [[] [] [] [] [] [] [] []]; try done.
  - rewrite append_cons. cbn [ancestors]. rewrite IH, fmap_app.
    destruct a as [|c' a].
    + change ("" +:+ String "/" b) with (String "/" b). done.
    + rewrite append_cons. cbn [fmap list_fmap].
      by rewrite <- app_assoc.
Qed.

Lemma ancestors_shorter (p d : string) :
  d ∈ ancestors p → (String.length d < String.length p)%nat.
Proof using Type.
  revert d. induction p as [|c p IH]; intros d; cbn [ancestors].
  - by intros ?%elem_of_nil.
  - rewrite elem_of_app, list_elem_of_fmap. intros [Hd|(d' & -> & Hd')].
    + destruct p as [|c' p]; [by apply elem_of_nil in Hd|].
      assert (d = String c "") as ->.
      { destruct c' as [[] [] [] [] [] [] [] []];
          first [by apply elem_of_nil in Hd | by apply list_elem_of_singleton in Hd]. }
      cbn. lia.
    + apply IH in Hd'. cbn. lia.
Qed.

Lemma ancestors_not_self (p : string) : p ∉ ancestors p.
Proof using Type. intros H%ancestors_shorter. lia. Qed.

Lemma walk_errno_None (files : gmap string File) (path : string) :
  walk_errno files path = None
  ↔ ∀ d, d ∈ ancestors path → dir_errno files d = None.
Proof using Type.
  unfold walk_errno. induction (ancestors path) as [|a l IH].
  - split; [|done]. by intros _ d ?%elem_of_nil.
  - cbn [omap list_omap]. destruct (dir_errno files a) eqn:Ha.
    + split; [done|]. intros H. specialize (H a (list_elem_of_here _ _)). congruence.
    + rewrite IH. split.
      * intros H d [->|Hd]%elem_of_cons; auto.
      * intros H d Hd. apply H. by apply list_elem_of_further.
Qed.

(** The walk meets a missing directory or something that is not one, and
    nothing else. *)
Lemma walk_errno_cases (files : gmap string File) (path : string) :
  walk_errno files path = None ∨ walk_errno files path = Some ENOENT
  ∨ walk_errno files path = Some ENOTDIR.
Proof using Type.
  unfold walk_errno. induction (ancestors path) as [|a l IH]; [by left|].
  cbn [omap list_omap]. destruct (dir_errno files a) as [e|] eqn:Ha; [|done].
  cbn [head]. unfold dir_errno in Ha.
  destruct (files !! a) as [f|]; [|injection Ha as <-; auto].
  destruct (is_directory (content f)); [done|]. injection Ha as <-. auto.
Qed.

Lemma walk_errno_insert (files : gmap string File) (p q : string) (x : File) :
  p ∉ ancestors q → walk_errno (<[p:=x]> files) q = walk_errno files q.
Proof using Type.
  unfold walk_errno. induction (ancestors q) as [|a l IH]; [done|].
  intros Hp. cbn [omap list_omap].
  assert (dir_errno (<[p:=x]> files) a = dir_errno files a) as ->.
  { unfold dir_errno. rewrite lookup_insert_ne; [done|].
    intros ->. apply Hp, list_elem_of_here. }
  destruct (dir_errno files a); [done|].
  apply IH. intros H. by apply Hp, list_elem_of_further.
Qed.

Lemma DirectoryExists_run (directoryName : string) (st : State) :
  DirectoryExists directoryName st
  = (match fs st !! directoryName with
     | Some f => if is_directory (content f) then Ok true
                 else Raise (NotADirectory directoryName)
     | None => if bool_decide (stat_errno (fs st) directoryName = ENOENT)
               then Ok false
               else Raise (CouldNotStatDirectory directoryName)
     end, emit (SysStat directoryName) st).
Proof using Type.
  unfold DirectoryExists, bind. rewrite stat_run.
  destruct (fs st !! directoryName) as [f|]; cbn.
  - by destruct (is_directory (content f)).
  - unfold errno_after_stat. cbn [fs emit].
    by destruct (bool_decide (stat_errno (fs st) directoryName = ENOENT)).
Qed.

Lemma CreateDirectory_run (directoryName : string) (st : State) :
  CreateDirectory directoryName st
  = match mkdir_errno (fs st) directoryName with
    | Some _ => (Raise (CouldNotCreateDirectory directoryName),
                 emit (SysMkdir directoryName) st)
    | None => (Ok tt, emit (SysMkdir directoryName)
                        (set_fs (insert directoryName
                                   {| content := Directory; immutable := false |}) st))
    end.
Proof using Type.
  unfold CreateDirectory, bind, mkdir. by destruct (mkdir_errno _ _).
Qed.

(** One directory of [CreateCStoreDatabaseDirectory]: the check, and the
    creation when the check says there is none. *)
Lemma ensure_directory_run (d : string) (st : State) :
  (let* directoryExists := DirectoryExists d in
   if negb directoryExists then CreateDirectory d else ret tt) st
  = match fs st !! d with
    | Some f => (if is_directory (content f) then Ok tt else Raise (NotADirectory d),
                 emit (SysStat d) st)
    | None =>
        if bool_decide (stat_errno (fs st) d = ENOENT)
        then match mkdir_errno (fs st) d with
             | Some _ => (Raise (CouldNotCreateDirectory d),
                          emit (SysMkdir d) (emit (SysStat d) st))
             | None => (Ok tt, emit (SysMkdir d)
                                 (set_fs (insert d {| content := Directory;
                                                      immutable := false |})
                                    (emit (SysStat d) st)))
             end
        else (Raise (CouldNotStatDirectory d), emit (SysStat d) st)
    end.
Proof using Type.
  unfold bind. rewrite DirectoryExists_run.
  destruct (fs st !! d) as [f|].
  - by destruct (is_directory (content f)).
  - case_bool_decide; [|done]. cbn [negb]. by rewrite CreateDirectory_run.
Qed.

Lemma CreateCStoreDatabaseDirectory_steps (databaseOid : Oid) (st : State) :
  let dir := DataDir +:+ "/" +:+ CSTORE_FDW_NAME in
  let dbdir := DataDir +:+ "/" +:+ CSTORE_FDW_NAME +:+ "/" +:+ format_u databaseOid in
  CreateCStoreDatabaseDirectory databaseOid st
  = match (let* directoryExists := DirectoryExists dir in
           if negb directoryExists then CreateDirectory dir else ret tt) st with
    | (Ok _, st1) =>
        (let* directoryExists := DirectoryExists dbdir in
         if negb directoryExists then CreateDirectory dbdir else ret tt) st1
    | (Raise e, st1) => (Raise e, st1)
    end.
Proof using Type.
  intros dir dbdir. unfold CreateCStoreDatabaseDirectory. fold dir dbdir.
  unfold bind. destruct (DirectoryExists dir st) as [[e|e] st1]; [|done].
  by destruct ((if negb e then CreateDirectory dir else ret ()) st1) as [[[]|?] ?].
Qed.

Lemma append_assoc (a b c : string) : (a +:+ b) +:+ c = a +:+ (b +:+ c).
Proof using Type.
  induction a as [|x a IH]; [done|]. rewrite !append_cons. by rewrite IH.
Qed.

Lemma ancestors_child (a b : string) :
  a ≠ "" → (∀ x y, b ≠ x +:+ String "/" y) →
  ancestors (a +:+ String "/" b) = (ancestors a ++ [a])%list.
Proof using Type.
  intros Ha Hb. rewrite ancestors_app_slash by done. by destruct a.
Qed.

(** The directory of a database lies in the directory of the extension. *)
Lemma ancestors_database_directory (databaseOid : Oid) :
  let dir := DataDir +:+ "/" +:+ CSTORE_FDW_NAME in
  let dbdir := DataDir +:+ "/" +:+ CSTORE_FDW_NAME +:+ "/" +:+ format_u databaseOid in
  ancestors dbdir = (ancestors dir ++ [dir])%list.
Proof using Type.
  intros dir dbdir.
  assert (dbdir = dir +:+ String "/" (format_u databaseOid)) as ->.
  { subst dir dbdir. by rewrite append_assoc. }
  apply ancestors_child; [|apply format_u_no_slash].
  subst dir. by destruct DataDir.
Qed.

(** What one directory step leaves behind. *)
Lemma ensure_directory_effect (d : string) (st : State) (r : Res unit) (st' : State) :
  (let* directoryExists := DirectoryExists d in
   if negb directoryExists then CreateDirectory d else ret tt) st = (r, st') →
  catalog st' = catalog st ∧
  (fs st' = fs st
   ∨ fs st !! d = None ∧ r = Ok tt
     ∧ fs st' = <[d := {| content := Directory; immutable := false |}]> (fs st)) ∧
  (r = Ok tt → (content <$> fs st' !! d) = Some Directory) ∧
  (∀ e, r = Raise e →
     e = NotADirectory d ∨ e = CouldNotStatDirectory d ∨ e = CouldNotCreateDirectory d).
Proof using Type.
  rewrite ensure_directory_run.
  destruct (fs st !! d) as [f|] eqn:Hf.
  - destruct (is_directory (content f)) eqn:Hd; intros [= <- <-];
      (split_and!; [done|by left| |]).
    + intros _. cbn. rewrite Hf. cbn. by destruct (content f).
    + done.
    + done.
    + intros e [= <-]. auto.
  - case_bool_decide.
    + destruct (mkdir_errno (fs st) d); intros [= <- <-];
        (split_and!; [done| | |]).
      * by left.
      * done.
      * intros e' [= <-]. auto.
      * right. done.
      * intros _. cbn. by rewrite lookup_insert_eq.
      * done.
    + intros [= <- <-]. split_and!; [done|by left|done|]. intros e [= <-]. auto.
Qed.

Lemma CreateCStoreDatabaseDirectory_again (databaseOid : Oid) (st : State) :
  let dir := DataDir +:+ "/" +:+ CSTORE_FDW_NAME in
  let dbdir := DataDir +:+ "/" +:+ CSTORE_FDW_NAME +:+ "/" +:+ format_u databaseOid in
  (content <$> fs st !! dir) = Some Directory →
  (content <$> fs st !! dbdir) = Some Directory →
  CreateCStoreDatabaseDirectory databaseOid st
  = (Ok tt, {| catalog := catalog st; fs := fs st;
               events := events st ++ [SysStat dir; SysStat dbdir] |}).
Proof using Type.
  intros dir dbdir Hdir Hdbdir.
  rewrite CreateCStoreDatabaseDirectory_steps. cbv zeta. fold dir dbdir.
  rewrite ensure_directory_run.
  destruct (fs st !! dir) as [f|]; [|done].
  cbn in Hdir. injection Hdir as ->. cbn [is_directory].
  rewrite ensure_directory_run. cbn [fs emit].
  destruct (fs st !! dbdir) as [g|]; [|done].
  cbn in Hdbdir. injection Hdbdir as ->.
  cbn. unfold emit. cbn. by rewrite <- app_assoc.
Qed.

(** X12. [CreateCStoreDatabaseDirectory] looks at $PGDATA/cstore_fdw and
    then at $PGDATA/cstore_fdw/{databaseOid}.  For each of the two it raises
    not-a-directory when the path is a file of another kind, could-not-stat
    when [stat] fails with an [errno] other than ENOENT (a file of another
    kind on the way to it), and could-not-create when the path is missing and
    [mkdir] fails (a directory above it is missing, or takes no new
    entries); these are the only errors, and the first directory is made
    before the second is looked at.  Whatever the outcome, the catalog and
    every file that existed are left as they were, and what is new is one of
    the two paths, as an empty directory.  When the function returns, both
    paths are directories, and running it again makes the two [stat] calls
    and nothing else.  It does return when every directory on the way to
    $PGDATA/cstore_fdw is a directory, neither path is a file of another
    kind, and the directories that get a new entry take one. *)
Theorem CreateCStoreDatabaseDirectory_spec (databaseOid : Oid) (st : State) :
  let dir := DataDir +:+ "/cstore_fdw" in
  let dbdir := DataDir +:+ "/cstore_fdw/" +:+ format_u databaseOid in
  let newdir := {| content := Directory; immutable := false |} in
  let outcome := CreateCStoreDatabaseDirectory databaseOid st in
  let blocked path := ∃ f, fs st !! path = Some f ∧ is_directory (content f) = false in
  let fails (path : string) (s : State) (e : ErrorData) (s' : State) : Prop :=
    match fs s !! path with
    | Some f =>
        is_directory (content f) = false ∧ e = NotADirectory path
        ∧ s' = emit (SysStat path) s
    | None =>
        (stat_errno (fs s) path ≠ ENOENT ∧ e = CouldNotStatDirectory path
         ∧ s' = emit (SysStat path) s)
        ∨ (stat_errno (fs s) path = ENOENT ∧ is_Some (mkdir_errno (fs s) path)
           ∧ e = CouldNotCreateDirectory path
           ∧ s' = emit (SysMkdir path) (emit (SysStat path) s))
    end in
  let passes (path : string) (s : State) : Prop :=
    match fs s !! path with
    | Some f => is_directory (content f) = true
    | None => stat_errno (fs s) path = ENOENT ∧ mkdir_errno (fs s) path = None
    end in
  let after_dir :=
    match fs st !! dir with
    | Some _ => emit (SysStat dir) st
    | None => emit (SysMkdir dir) (set_fs (insert dir newdir) (emit (SysStat dir) st))
    end in
  (∀ e s', fails dir st e s' → outcome = (Raise e, s')) ∧
  (∀ e s', passes dir st → fails dbdir after_dir e s' → outcome = (Raise e, s')) ∧
  (∀ e s', outcome = (Raise e, s') →
     fails dir st e s' ∨ passes dir st ∧ fails dbdir after_dir e s') ∧
  (∀ r st', outcome = (r, st') →
     catalog st' = catalog st ∧
     (∀ path f, fs st !! path = Some f → fs st' !! path = Some f) ∧
     (∀ path f, fs st !! path = None → fs st' !! path = Some f →
        (path = dir ∨ path = dbdir) ∧ f = newdir)) ∧
  (∀ st', outcome = (Ok tt, st') →
     passes dir st ∧ passes dbdir after_dir ∧
     (content <$> fs st' !! dir) = Some Directory ∧
     (content <$> fs st' !! dbdir) = Some Directory ∧
     CreateCStoreDatabaseDirectory databaseOid st'
     = (Ok tt, {| catalog := catalog st'; fs := fs st';
                  events := events st' ++ [SysStat dir; SysStat dbdir] |})) ∧
  (passes dir st → passes dbdir after_dir → ∃ st', outcome = (Ok tt, st')) ∧
  (walk_errno (fs st) dir = None → parent_immutable (fs st) dir = false →
   ¬ blocked dir → ¬ blocked dbdir →
   (∀ f, fs st !! dir = Some f → immutable f = false) →
   ∃ st', outcome = (Ok tt, st')).
Proof using Type.
  intros dir dbdir newdir outcome blocked fails passes after_dir.
  pose proof (cstore_directory_ne databaseOid) as Hne.
  pose proof (ancestors_database_directory databaseOid) as Hanc.
  pose proof (CreateCStoreDatabaseDirectory_steps databaseOid st) as Hsteps.
  cbv zeta in Hne, Hanc, Hsteps.
  change (DataDir +:+ "/" +:+ CSTORE_FDW_NAME) with dir in Hne, Hanc, Hsteps.
  change (DataDir +:+ "/" +:+ CSTORE_FDW_NAME +:+ "/" +:+ format_u databaseOid)
    with dbdir in Hne, Hanc, Hsteps.
  fold outcome in Hsteps.
  (* the first directory *)
  assert (∀ e s', fails dir st e s' →
            (let* directoryExists := DirectoryExists dir in
             if negb directoryExists then CreateDirectory dir else ret tt) st
            = (Raise e, s')) as Hfail1.
  { intros e s' Hf. rewrite ensure_directory_run. subst fails. cbv beta in Hf.
    destruct (fs st !! dir) as [f|].
    - destruct Hf as (-> & -> & ->). done.
    - destruct Hf as [(Hno & -> & ->)|(Hno & [x Hx] & -> & ->)].
      + by rewrite bool_decide_false.
      + rewrite bool_decide_true by done. by rewrite Hx. }
  assert (passes dir st →
            (let* directoryExists := DirectoryExists dir in
             if negb directoryExists then CreateDirectory dir else ret tt) st
            = (Ok tt, after_dir)) as Hpass1.
  { intros Hp. rewrite ensure_directory_run. subst passes after_dir. cbv beta in Hp.
    destruct (fs st !! dir) as [f|].
    - by rewrite Hp.
    - destruct Hp as [Hno Hmk]. rewrite bool_decide_true by done. by rewrite Hmk. }
  assert (∀ r s', (let* directoryExists := DirectoryExists dir in
                   if negb directoryExists then CreateDirectory dir else ret tt) st
                  = (r, s') →
            match r with
            | Ok _ => passes dir st ∧ s' = after_dir
            | Raise e => fails dir st e s'
            end) as Hinv1.
  { intros r s'. rewrite ensure_directory_run. subst passes fails after_dir. cbv beta.
    destruct (fs st !! dir) as [f|].
    - destruct (is_directory (content f)); by intros [= <- <-].
    - case_bool_decide as Hno.
      + destruct (mkdir_errno (fs st) dir) eqn:Hmk; intros [= <- <-]; [|done].
        right. split_and!; done.
      + intros [= <- <-]. by left. }
  (* the second directory, in any state *)
  assert (∀ s e s', fails dbdir s e s' →
            (let* directoryExists := DirectoryExists dbdir in
             if negb directoryExists then CreateDirectory dbdir else ret tt) s
            = (Raise e, s')) as Hfail2.
  { intros s e s' Hf. rewrite ensure_directory_run. subst fails. cbv beta in Hf.
    destruct (fs s !! dbdir) as [f|].
    - destruct Hf as (-> & -> & ->). done.
    - destruct Hf as [(Hno & -> & ->)|(Hno & [x Hx] & -> & ->)].
      + by rewrite bool_decide_false.
      + rewrite bool_decide_true by done. by rewrite Hx. }
  assert (∀ s r s', (let* directoryExists := DirectoryExists dbdir in
                     if negb directoryExists then CreateDirectory dbdir else ret tt) s
                    = (r, s') →
            match r with
            | Ok _ => passes dbdir s
            | Raise e => fails dbdir s e s'
            end) as Hinv2.
  { intros s r s'. rewrite ensure_directory_run. subst passes fails. cbv beta.
    destruct (fs s !! dbdir) as [f|].
    - destruct (is_directory (content f)); by intros [= <- <-].
    - case_bool_decide as Hno.
      + destruct (mkdir_errno (fs s) dbdir) eqn:Hmk; intros [= <- <-]; [|done].
        right. split_and!; done.
      + intros [= <- <-]. by left. }
  assert (∀ s, passes dbdir s →
            ∃ s', (let* directoryExists := DirectoryExists dbdir in
                   if negb directoryExists then CreateDirectory dbdir else ret tt) s
                  = (Ok tt, s')) as Hpass2.
  { intros s Hp. rewrite ensure_directory_run. subst passes. cbv beta in Hp.
    destruct (fs s !! dbdir) as [f|].
    - rewrite Hp. by eexists.
    - destruct Hp as [Hno Hmk]. rewrite bool_decide_true by done. rewrite Hmk.
      by eexists. }
  assert (passes dir st → passes dbdir after_dir → ∃ st', outcome = (Ok tt, st'))
    as Hreturns.
  { intros Hp1 Hp2. rewrite Hsteps, (Hpass1 Hp1). by apply Hpass2. }
  split_and!.
  - intros e s' Hf. by rewrite Hsteps, (Hfail1 e s' Hf).
  - intros e s' Hp Hf. rewrite Hsteps, (Hpass1 Hp). by apply Hfail2.
  - intros e s'. rewrite Hsteps.
    destruct ((let* directoryExists := DirectoryExists dir in
               if negb directoryExists then CreateDirectory dir else ret tt) st)
      as [[[]|e1] s1] eqn:H1.
    + destruct (Hinv1 _ _ eq_refl) as [Hp ->]. intros H2. apply Hinv2 in H2. auto.
    + pose proof (Hinv1 _ _ eq_refl) as Hf. intros [= <- <-]. auto.
  - intros r st'. rewrite Hsteps.
    destruct ((let* directoryExists := DirectoryExists dir in
               if negb directoryExists then CreateDirectory dir else ret tt) st)
      as [[[]|e1] s1] eqn:H1.
    + intros H2.
      apply ensure_directory_effect in H1 as (Hc1 & Hfs1 & _).
      apply ensure_directory_effect in H2 as (Hc2 & Hfs2 & _).
      split; [congruence|].
      destruct Hfs1 as [Hfs1|(Hn1 & _ & Hfs1)], Hfs2 as [Hfs2|(Hn2 & _ & Hfs2)];
        rewrite Hfs2; rewrite ?Hfs1 in *.
      * split; [done|]. intros path f Hn Hs. congruence.
      * split.
        -- intros path f Hp. rewrite lookup_insert_ne; [done|]. congruence.
        -- intros path f Hn. destruct (decide (path = dbdir)) as [->|Hd].
           ++ rewrite lookup_insert_eq. intros [= <-]. auto.
           ++ rewrite lookup_insert_ne by done. congruence.
      * split.
        -- intros path f Hp. rewrite lookup_insert_ne; [done|]. congruence.
        -- intros path f Hn. destruct (decide (path = dir)) as [->|Hd].
           ++ rewrite lookup_insert_eq. intros [= <-]. auto.
           ++ rewrite lookup_insert_ne by done. congruence.
      * rewrite lookup_insert_ne in Hn2 by done. split.
        -- intros path f Hp. rewrite !lookup_insert_ne; [done|congruence..].
        -- intros path f Hn. destruct (decide (path = dbdir)) as [->|Hd].
           ++ rewrite lookup_insert_eq. intros [= <-]. auto.
           ++ rewrite lookup_insert_ne by done.
              destruct (decide (path = dir)) as [->|Hd'].
              ** rewrite lookup_insert_eq. intros [= <-]. auto.
              ** rewrite lookup_insert_ne by done. congruence.
    + intros [= <- <-].
      apply ensure_directory_effect in H1 as (Hc1 & [Hfs1|(_ & [=] & _)] & _).
      rewrite Hfs1. split_and!; [done|done|]. intros path f Hn Hs. congruence.
  - intros st'. rewrite Hsteps.
    destruct ((let* directoryExists := DirectoryExists dir in
               if negb directoryExists then CreateDirectory dir else ret tt) st)
      as [[[]|e1] s1] eqn:H1; [|done].
    intros H2.
    destruct (Hinv1 _ _ eq_refl) as [Hp1 ->].
    apply Hinv2 in H2 as Hp2.
    apply ensure_directory_effect in H1 as (_ & _ & Hd1 & _).
    apply ensure_directory_effect in H2 as (_ & Hfs2 & Hd2 & _).
    specialize (Hd1 eq_refl). specialize (Hd2 eq_refl).
    assert ((content <$> fs st' !! dir) = Some Directory) as Hdir'.
    { destruct Hfs2 as [->|(_ & _ & ->)]; [done|].
      by rewrite lookup_insert_ne by done. }
    split_and!; try done.
    pose proof (CreateCStoreDatabaseDirectory_again databaseOid st') as Hagain.
    cbv zeta in Hagain. by apply Hagain.
  - exact Hreturns.
  - intros Hwalk Hparent Hdir Hdbdir Himm. apply Hreturns.
    + subst passes. cbv beta. destruct (fs st !! dir) as [f|] eqn:Hf.
      * destruct (is_directory (content f)) eqn:Hd; [done|].
        destruct Hdir. by exists f.
      * unfold stat_errno, mkdir_errno. by rewrite Hwalk, Hf, Hparent.
    + assert (∀ files, files !! dbdir = None →
                (∀ d, d ∈ ancestors dir → dir_errno files d = None) →
                (∃ f, files !! dir = Some f ∧ is_directory (content f) = true
                      ∧ immutable f = false) →
                stat_errno files dbdir = ENOENT ∧ mkdir_errno files dbdir = None)
        as Hmake.
      { intros files Hnone Habove (f & Hf & Hfd & Hfi).
        assert (walk_errno files dbdir = None) as Hw.
        { apply walk_errno_None. intros d. rewrite Hanc.
          intros [Hd| ->%list_elem_of_singleton]%elem_of_app; [auto|].
          unfold dir_errno. by rewrite Hf, Hfd. }
        unfold stat_errno, mkdir_errno, parent_immutable.
        rewrite Hw, Hnone, Hanc, last_snoc, Hf, Hfi. done. }
      subst passes after_dir. cbv beta.
      destruct (fs st !! dir) as [f|] eqn:Hf.
      * cbn [fs emit]. destruct (fs st !! dbdir) as [g|] eqn:Hg.
        -- destruct (is_directory (content g)) eqn:Hd; [done|].
           destruct Hdbdir. by exists g.
        -- apply Hmake; [done|by apply walk_errno_None|].
           exists f. split_and!; [done| |by apply Himm].
           destruct (is_directory (content f)) eqn:Hd; [done|].
           destruct Hdir. by exists f.
      * cbn [fs emit set_fs]. rewrite lookup_insert_ne by done.
        destruct (fs st !! dbdir) as [g|] eqn:Hg.
        -- destruct (is_directory (content g)) eqn:Hd; [done|].
           destruct Hdbdir. by exists g.
        -- apply Hmake.
           ++ by rewrite lookup_insert_ne.
           ++ intros d Hd. unfold dir_errno. rewrite lookup_insert_ne.
              ** by apply (proj1 (walk_errno_None (fs st) dir)).
              ** intros <-. by apply ancestors_not_self in Hd.
           ++ exists newdir. by rewrite lookup_insert_eq.
Qed.

(** ** The event trigger on other statements *)

(** X13. The event trigger raises, with nothing done, when it is not called
    by the event trigger manager; and it leaves everything as it is for a
    statement that is neither CREATE SERVER nor CREATE FOREIGN TABLE, for a
    server of another wrapper, and for a foreign table that is not a cstore
    table.  A table name that does not resolve raises. *)
Theorem cstore_ddl_event_end_trigger_inert (parseTree : Node) (st : State) :
  cstore_ddl_event_end_trigger false parseTree st
  = (Raise TriggerNotFiredByManager, st) ∧
  cstore_ddl_event_end_trigger true T_OtherStmt st = (Ok tt, st) ∧
  (∀ wrapper, (10 < NAMEDATALEN)%nat → nul_free wrapper = true →
     wrapper ≠ "cstore_fdw" →
     cstore_ddl_event_end_trigger true (T_CreateForeignServerStmt wrapper) st
     = (Ok tt, st)) ∧
  ((10 < NAMEDATALEN)%nat →
     cstore_ddl_event_end_trigger true (T_CreateForeignServerStmt "cstore_fdw") st
     = CreateCStoreDatabaseDirectory MyDatabaseId st) ∧
  (∀ relation relationId,
     RangeVarGetRelid (catalog st) relation = Ok relationId →
     CStoreTable (catalog st) relationId = Ok false →
     cstore_ddl_event_end_trigger true (T_CreateForeignTableStmt relation) st
     = (Ok tt, st)) ∧
  (∀ relation e,
     RangeVarGetRelid (catalog st) relation = Raise e →
     cstore_ddl_event_end_trigger true (T_CreateForeignTableStmt relation) st
     = (Raise e, st) ∧ e = RelationDoesNotExist relation).
Proof using Type.
  split_and!.
  - done.
  - done.
  - intros wrapper Hn Hw Hne. unfold cstore_ddl_event_end_trigger, bind. cbn.
    rewrite strncmp_literal_eqb by (done || (simpl; lia)).
    by rewrite bool_decide_false.
  - intros Hn. unfold cstore_ddl_event_end_trigger, bind.
    cbn [negb ret]. rewrite strncmp_literal_eqb by (done || (simpl; lia)).
    by rewrite bool_decide_true.
  - intros relation relationId Hrel Ht.
    unfold cstore_ddl_event_end_trigger, bind, with_catalog, ret.
    cbv beta iota delta [negb]. rewrite Hrel. by rewrite Ht.
  - intros relation e Hrel. split.
    + unfold cstore_ddl_event_end_trigger, bind, with_catalog, ret.
      cbv beta iota delta [negb]. by rewrite Hrel.
    + unfold RangeVarGetRelid in Hrel. destruct (_ !! _); [done|].
      by injection Hrel.
Qed.

(** ** The utility hook *)

Lemma drop_table_filename_app cat (l1 l2 : list string) (t : option string) :
  drop_table_filename cat (l1 ++ l2) t
  = res_bind (drop_table_filename cat l1 t) (λ t', drop_table_filename cat l2 t').
Proof using Type.
  revert t. induction l1 as [|n l1 IH]; intros t; [done|].
  cbn [app drop_table_filename].
  destruct (CStoreTable cat _) as [[|]|]; cbn [res_bind]; [|apply IH|done].
  destruct (CStoreGetOptions cat _); cbn [res_bind]; [apply IH|done].
Qed.

Lemma drop_table_filename_none cat (l : list string) (t : option string) :
  (∀ n, n ∈ l → CStoreTable cat (RangeVarGetRelid_missing_ok cat n) = Ok false) →
  drop_table_filename cat l t = Ok t.
Proof using Type.
  induction l as [|n l IH]; intros Hl; [done|]. cbn [drop_table_filename].
  rewrite (Hl n) by apply list_elem_of_here. cbn [res_bind].
  apply IH. intros m Hm. apply Hl. by apply list_elem_of_further.
Qed.

Lemma drop_table_filename_ok cat (l : list string) (t : option string) :
  (∀ n, n ∈ l → ∃ b, CStoreTable cat (RangeVarGetRelid_missing_ok cat n) = Ok b ∧
                     (b = true → ∃ o, CStoreGetOptions cat
                                        (RangeVarGetRelid_missing_ok cat n) = Ok o)) →
  ∃ t', drop_table_filename cat l t = Ok t'.
Proof using Type.
  revert t. induction l as [|n l IH]; intros t Hl; [by exists t|].
  cbn [drop_table_filename].
  destruct (Hl n) as (b & -> & Ho); [apply list_elem_of_here|]. cbn [res_bind].
  assert (∀ m, m ∈ l → ∃ b, CStoreTable cat (RangeVarGetRelid_missing_ok cat m) = Ok b ∧
            (b = true → ∃ o, CStoreGetOptions cat
                               (RangeVarGetRelid_missing_ok cat m) = Ok o)) as Hl'.
  { intros m Hm. apply Hl. by apply list_elem_of_further. }
  destruct b; [|by apply IH].
  destruct (Ho eq_refl) as [o ->]. cbn [res_bind]. by apply IH.
Qed.

(** X14. DROP FOREIGN TABLE through the hook: the file name is taken from
    the options of the last cstore table the statement names, before the
    statement is carried out (by the previous hook if there is one, else by
    the standard utility).  When that raises, no file is removed; when it
    returns, the files of that one table are removed, best effort.  When the
    options of a cstore table named in the statement do not resolve, the hook
    raises that error without carrying the statement out. *)
Theorem CStoreProcessUtility_drop (dropStatement : DropStmt) (completionTag : bool)
    (st : State) (before : list string) (name : string) (after : list string) :
  let relid n := RangeVarGetRelid_missing_ok (catalog st) n in
  let utility := match PreviousProcessUtilityHook with
                 | Some hook => hook
                 | None => standard_ProcessUtility
                 end in
  removeType dropStatement = OBJECT_FOREIGN_TABLE →
  objects dropStatement = (before ++ name :: after)%list →
  (∀ n, n ∈ before →
     ∃ b, CStoreTable (catalog st) (relid n) = Ok b ∧
          (b = true → ∃ o, CStoreGetOptions (catalog st) (relid n) = Ok o)) →
  CStoreTable (catalog st) (relid name) = Ok true →
  (∀ opts,
     CStoreGetOptions (catalog st) (relid name) = Ok opts →
     (∀ n, n ∈ after → CStoreTable (catalog st) (relid n) = Ok false) →
     CStoreProcessUtility (T_DropStmt dropStatement) completionTag st
     = match utility (T_DropStmt dropStatement) completionTag st with
       | (Ok tag, st1) => (Ok tag, (DeleteCStoreTableFiles (filename opts) st1).2)
       | (Raise e, st1) => (Raise e, st1)
       end) ∧
  (∀ e, CStoreGetOptions (catalog st) (relid name) = Raise e →
     CStoreProcessUtility (T_DropStmt dropStatement) completionTag st = (Raise e, st)).
Proof using Type.
  intros relid utility Htype Hobjects Hbefore Hname.
  destruct (drop_table_filename_ok (catalog st) before None Hbefore) as [t Ht].
  split.
  - intros opts Ho Hafter.
    unfold CStoreProcessUtility, bind, with_catalog.
    rewrite Htype, Hobjects, drop_table_filename_app, Ht. cbn [res_bind].
    cbn [drop_table_filename]. fold (relid name). rewrite Hname. cbn [res_bind].
    rewrite Ho. cbn [res_bind]. rewrite drop_table_filename_none by done.
    subst utility. cbv beta.
    destruct PreviousProcessUtilityHook as [hook|];
      [destruct (hook (T_DropStmt dropStatement) completionTag st) as [[tag|e] st1]
      |destruct (standard_ProcessUtility (T_DropStmt dropStatement) completionTag st)
         as [[tag|e] st1]]; try done;
      by rewrite DeleteCStoreTableFiles_run.
  - intros e He.
    unfold CStoreProcessUtility, bind, with_catalog.
    rewrite Htype, Hobjects, drop_table_filename_app, Ht. cbn [res_bind].
    cbn [drop_table_filename]. fold (relid name). rewrite Hname. cbn [res_bind].
    by rewrite He.
Qed.

Lemma bind_ret_run {A} (m : M A) (st : State) : (let* x := m in ret x) st = m st.
Proof using Type. unfold bind, ret. by destruct (m st) as [[?|?] ?]. Qed.

Lemma utility_run (parseTree : UtilityStmt) (completionTag : bool) :
  match PreviousProcessUtilityHook with
  | Some hook => hook parseTree completionTag
  | None => standard_ProcessUtility parseTree completionTag
  end
  = match PreviousProcessUtilityHook with
    | Some hook => hook
    | None => standard_ProcessUtility
    end parseTree completionTag.
Proof using Type. by destruct PreviousProcessUtilityHook. Qed.

(** X15. The hook hands every statement that does not concern a cstore
    table to the previous hook if there is one, else to the standard
    utility, and adds nothing: any statement other than COPY and DROP, a
    COPY TO, a COPY FROM into another relation, a DROP of another object type
    and a DROP FOREIGN TABLE that names no cstore table. *)
Theorem CStoreProcessUtility_passes_on (completionTag : bool) (st : State) :
  let utility := match PreviousProcessUtilityHook with
                 | Some hook => hook
                 | None => standard_ProcessUtility
                 end in
  (∀ statement,
     CStoreProcessUtility (T_Utility statement) completionTag st
     = utility (T_Utility statement) completionTag st) ∧
  (∀ c, is_from c = false →
     CStoreProcessUtility (T_CopyStmt c) completionTag st
     = utility (T_CopyStmt c) completionTag st) ∧
  (∀ c relationId, is_from c = true →
     RangeVarGetRelid (catalog st) (copy_relation c) = Ok relationId →
     CStoreTable (catalog st) relationId = Ok false →
     CStoreProcessUtility (T_CopyStmt c) completionTag st
     = utility (T_CopyStmt c) completionTag st) ∧
  (∀ d, removeType d ≠ OBJECT_FOREIGN_TABLE →
     CStoreProcessUtility (T_DropStmt d) completionTag st
     = utility (T_DropStmt d) completionTag st) ∧
  (∀ d, (∀ n, n ∈ objects d →
           CStoreTable (catalog st) (RangeVarGetRelid_missing_ok (catalog st) n)
           = Ok false) →
     CStoreProcessUtility (T_DropStmt d) completionTag st
     = utility (T_DropStmt d) completionTag st).
Proof using Type.
  intros utility. split_and!.
  - intros statement. unfold CStoreProcessUtility, with_catalog.
    unfold bind at 1 2. rewrite utility_run. apply bind_ret_run.
  - intros c Hc. unfold CStoreProcessUtility, with_catalog.
    unfold bind at 1 2. rewrite Hc. rewrite utility_run. apply bind_ret_run.
  - intros c relationId Hc Hrel Ht. unfold CStoreProcessUtility, with_catalog.
    unfold bind at 1 2. rewrite Hc, Hrel. cbn [res_bind].
    rewrite Ht. cbn [res_bind]. rewrite utility_run. apply bind_ret_run.
  - intros d Hd. unfold CStoreProcessUtility, with_catalog.
    unfold bind at 1 2. rewrite utility_run.
    destruct (removeType d); [done|apply bind_ret_run..].
  - intros d Hd. unfold CStoreProcessUtility, with_catalog.
    unfold bind at 1 2. rewrite utility_run.
    destruct (removeType d); [|apply bind_ret_run..].
    rewrite drop_table_filename_none by done. apply bind_ret_run.
Qed.

Lemma copy_rows_count (copyState : CopyState) : ∀ ws k st ws' n st',
  0 ≤ k < 2 ^ 64 →
  copy_rows copyState ws k st = (Ok (ws', n), st') →
  n = (k + Z.of_nat (length copyState)) mod 2 ^ 64.
Proof using Type.
  induction copyState as [|[values nulls] rows IH]; intros ws k st ws' n st' Hk Hc.
  - cbn in Hc. injection Hc as _ <- _. cbn. rewrite Z.add_0_r.
    by rewrite Z.mod_small.
  - cbn [copy_rows] in Hc. unfold bind in Hc.
    destruct (CStoreWriteRow ws values nulls st) as [[ws1|e] st1]; [|done].
    apply IH in Hc; [|unfold to_uint64; apply Z.mod_pos_bound; lia].
    rewrite Hc. unfold to_uint64. rewrite Z.add_mod_idemp_l by lia.
    f_equal. cbn [length]. lia.
Qed.

(** X16. COPY into a cstore table: a column list raises
    feature-not-supported, and a COPY from a file or a program by a user who
    is not superuser raises the privilege error, both before anything is
    looked up or opened.  Whenever [CopyIntoCStoreTable] returns, the count
    it returns is the number of rows the COPY source delivered (modulo 2^64),
    and the hook reports it as "COPY <count>" without calling the standard
    utility. *)
Theorem CopyIntoCStoreTable_spec (copyStatement : CopyStmt) (st : State) :
  (attlist copyStatement ≠ [] →
     CopyIntoCStoreTable copyStatement st = (Raise CopyColumnListNotSupported, st)) ∧
  (attlist copyStatement = [] → copy_filename copyStatement ≠ None →
   superuser = false →
     CopyIntoCStoreTable copyStatement st
     = (Raise (if is_program copyStatement then MustBeSuperuserToCopyProgram
               else MustBeSuperuserToCopyFile), st)) ∧
  (∀ n st', CopyIntoCStoreTable copyStatement st = (Ok n, st') →
     attlist copyStatement = [] ∧
     (copy_filename copyStatement = None ∨ superuser = true) ∧
     ∃ relationId relation opts rows st1,
       RangeVarGetRelid (catalog st) (copy_relation copyStatement) = Ok relationId ∧
       relation_open (catalog st) relationId = Ok relation ∧
       CStoreGetOptions (catalog st) relationId = Ok opts ∧
       BeginCopyFrom relation (copy_filename copyStatement)
         (is_program copyStatement) (copy_options copyStatement) st = (Ok rows, st1) ∧
       n = Z.of_nat (length rows) mod 2 ^ 64) ∧
  (∀ relationId, is_from copyStatement = true →
     RangeVarGetRelid (catalog st) (copy_relation copyStatement) = Ok relationId →
     CStoreTable (catalog st) relationId = Ok true →
     ∀ completionTag,
     CStoreProcessUtility (T_CopyStmt copyStatement) completionTag st
     = match CopyIntoCStoreTable copyStatement st with
       | (Ok n, st') =>
           (Ok (if completionTag then Some ("COPY " +:+ format_u (Z.to_N n))
                else None), st')
       | (Raise e, st') => (Raise e, st')
       end).
Proof using Type.
  split_and!.
  - intros Hl. unfold CopyIntoCStoreTable, bind.
    by destruct (attlist copyStatement).
  - intros Hl Hf Hs. unfold CopyIntoCStoreTable, bind. rewrite Hl, Hs. cbn.
    rewrite bool_decide_true by done. cbn.
    by destruct (is_program copyStatement).
  - intros n st'. unfold CopyIntoCStoreTable, bind, with_catalog.
    destruct (attlist copyStatement); [|done]. cbn [ret].
    destruct (bool_decide (copy_filename copyStatement ≠ None) && negb superuser)
      eqn:Hpriv; [by destruct (is_program copyStatement)|].
    cbn [ret].
    destruct (RangeVarGetRelid (catalog st) (copy_relation copyStatement))
      as [relationId|]; [|done].
    destruct (relation_open (catalog st) relationId) as [relation|] eqn:Hopen;
      [|done].
    destruct (CStoreGetOptions (catalog st) relationId) as [opts|] eqn:Hopts;
      [|done].
    destruct (BeginCopyFrom relation _ _ _ st) as [[rows|] st1] eqn:Hb; [|done].
    destruct (CStoreBeginWrite _ _ _ _ _ st1) as [[ws|] st2]; [|done].
    destruct (copy_rows rows ws 0 st2) as [[[ws' k]|] st3] eqn:Hc; [|done].
    cbn [fst snd].
    destruct (CStoreEndWrite ws' st3) as [[[]|] st4]; [|done].
    intros [= <- <-]. split; [done|]. split.
    + apply andb_false_iff in Hpriv as [Hp|Hp].
      * left. apply bool_decide_eq_false in Hp.
        destruct (copy_filename copyStatement); [by destruct Hp|done].
      * right. by destruct superuser.
    + exists relationId, relation, opts, rows, st1. split_and!; try done.
      apply copy_rows_count in Hc; [|lia]. by rewrite Z.add_0_l in Hc.
  - intros relationId Hfrom Hrel Ht completionTag.
    unfold CStoreProcessUtility, with_catalog. unfold bind at 1 2.
    rewrite Hfrom, Hrel. cbn [res_bind]. rewrite Ht.
    cbn [res_bind]. unfold bind, ret.
    by destruct (CopyIntoCStoreTable copyStatement st) as [[n|e] st'].
Qed.

End CStoreFdw.

(** * The model at work

    The theorems above, and the functions themselves, on the installation of
    [Demo] with the stock PostgreSQL values of [PG]. *)

Example pg_atoi_samples :
  PG.pg_atoi "1" = Some 1 ∧ PG.pg_atoi "1000" = Some 1000 ∧
  PG.pg_atoi " -42 " = Some (-42) ∧ PG.pg_atoi "+7" = Some 7 ∧
  PG.pg_atoi "12x" = None ∧ PG.pg_atoi "" = None ∧
  PG.pg_atoi "2147483647" = Some 2147483647 ∧ PG.pg_atoi "2147483648" = None.
Proof. by vm_compute. Qed.

Example ParseCompressionType_samples :
  ParseCompressionType PG.NAMEDATALEN "none" = COMPRESSION_NONE ∧
  ParseCompressionType PG.NAMEDATALEN "pglz" = COMPRESSION_PG_LZ ∧
  ParseCompressionType PG.NAMEDATALEN "lz4" = COMPRESSION_LZ4 ∧
  ParseCompressionType PG.NAMEDATALEN "enc_lz4" = COMPRESSION_ENC_LZ4 ∧
  ParseCompressionType PG.NAMEDATALEN "LZ4" = COMPRESSION_TYPE_INVALID ∧
  ParseCompressionType PG.NAMEDATALEN "lz" = COMPRESSION_TYPE_INVALID ∧
  ParseCompressionType PG.NAMEDATALEN "enc_none" = COMPRESSION_TYPE_INVALID ∧
  ParseCompressionType PG.NAMEDATALEN "" = COMPRESSION_TYPE_INVALID.
Proof. by vm_compute. Qed.

Lemma ParseCompressionType_valid_iff_named_witness :
  (7 < PG.NAMEDATALEN)%nat ∧ nul_free "enc_lz4" = true ∧
  ParseCompressionType PG.NAMEDATALEN "enc_lz4" = COMPRESSION_ENC_LZ4 ∧
  "enc_lz4" ∈ ["none"; "pglz"; "lz4"; "enc_lz4"].
Proof.
  assert ((7 < PG.NAMEDATALEN)%nat) as Hn by (unfold PG.NAMEDATALEN; lia).
  destruct (ParseCompressionType_valid_iff_named PG.NAMEDATALEN PG.pg_atoi
              "enc_lz4" Hn eq_refl) as (_ & _ & _ & H4 & H5 & _).
  split; [exact Hn|]. split; [reflexivity|]. split.
  - apply H4. reflexivity.
  - apply H5. vm_compute. discriminate.
Defined.

(** Row counts of 1 are turned down by validation, with the stock
    [pg_atoi]: the table is not configured, no session is opened. *)
Lemma row_count_one_not_accepted :
  ValidateForeignTableOptions PG.NAMEDATALEN PG.pg_atoi None None (Some "1") (Some "1")
  = Raise InvalidStripeRowCount ∧
  ValidateForeignTableOptions PG.NAMEDATALEN PG.pg_atoi None None None (Some "1")
  = Raise InvalidBlockRowCount ∧
  ValidateForeignTableOptions PG.NAMEDATALEN PG.pg_atoi None None (Some "1") (Some "1")
  ≠ Ok tt.
Proof. by vm_compute. Qed.

Lemma row_count_of_one_rejected_witness :
  PG.pg_atoi "1" = Some 1 ∧
  ValidateForeignTableOptions PG.NAMEDATALEN PG.pg_atoi (Some Demo.t_path) None
    (Some "1") (Some "1") = Raise InvalidStripeRowCount ∧
  ValidateForeignTableOptions PG.NAMEDATALEN PG.pg_atoi (Some Demo.t_path) None
    None (Some "1") = Raise InvalidBlockRowCount.
Proof.
  destruct (row_count_of_one_rejected PG.NAMEDATALEN PG.pg_atoi (Some Demo.t_path)
              "1" eq_refl) as (H1 & H2 & _).
  split; [reflexivity|]. split; [apply H1|apply H2].
Defined.

Lemma CStoreGetOptions_defaults_and_overrides_witness :
  GetForeignTable Demo.cat Demo.t_oid
  = Ok {| ft_serverid := 16384%N;
          ft_options :=
            [ {| defname := "filename"; defarg := Demo.t_path |};
              {| defname := "compression"; defarg := "pglz" |};
              {| defname := "stripe_row_count"; defarg := "20000" |} ] |} ∧
  GetForeignServer Demo.cat 16384%N = Ok {| srv_fdwid := 16383%N; srv_options := [] |} ∧
  ∀ o, CStoreGetOptions PG.NAMEDATALEN PG.pg_atoi PG.DataDir Demo.cat Demo.t_oid = Ok o →
       compressionType o = COMPRESSION_PG_LZ ∧
       stripeRowCount o = 20000 ∧
       opt_blockRowCount o = 10000 ∧
       filename o = Demo.t_path.
Proof.
  split; [reflexivity|]. split; [reflexivity|].
  destruct (CStoreGetOptions_defaults_and_overrides PG.NAMEDATALEN PG.pg_atoi
              PG.DataDir Demo.cat Demo.t_oid
              {| ft_serverid := 16384%N;
                 ft_options :=
                   [ {| defname := "filename"; defarg := Demo.t_path |};
                     {| defname := "compression"; defarg := "pglz" |};
                     {| defname := "stripe_row_count"; defarg := "20000" |} ] |}
              {| srv_fdwid := 16383%N; srv_options := [] |}
              eq_refl eq_refl) as (H & _).
  intros o Ho. destruct (H o Ho) as (Hc & Hs & Hb & Hf).
  split; [exact Hc|]. split; [|split; [exact Hb|exact Hf]].
  vm_compute in Hs. by injection Hs.
Defined.

Example CStoreGetOptions_samples :
  CStoreGetOptions PG.NAMEDATALEN PG.pg_atoi PG.DataDir Demo.cat Demo.t_oid
  = Ok {| filename := "/srv/cstore/t.cstore"; compressionType := COMPRESSION_PG_LZ;
          stripeRowCount := 20000; opt_blockRowCount := 10000 |} ∧
  CStoreGetOptions PG.NAMEDATALEN PG.pg_atoi PG.DataDir Demo.cat Demo.u_oid
  = Ok {| filename := "/var/lib/postgresql/data/cstore_fdw/12345/16386";
          compressionType := COMPRESSION_NONE;
          stripeRowCount := 150000; opt_blockRowCount := 10000 |}.
Proof. by vm_compute. Qed.

Lemma cstore_table_size_is_sum_witness :
  CStoreTable PG.NAMEDATALEN Demo.cat Demo.t_oid = Ok true ∧
  (stat Demo.file_size Demo.t_path Demo.state).1
  = Ok (Some {| st_size := 200; st_isdir := false |}) ∧
  (stat Demo.file_size (Demo.t_path +:+ ".footer") Demo.state).1
  = Ok (Some {| st_size := 40; st_isdir := false |}) ∧
  (cstore_table_size PG.NAMEDATALEN PG.pg_atoi PG.DataDir Demo.file_size
     Demo.t_oid Demo.state).1 = Ok (200 + 40).
Proof.
  split; [reflexivity|]. split; [reflexivity|]. split; [reflexivity|].
  apply (cstore_table_size_is_sum PG.NAMEDATALEN PG.pg_atoi PG.DataDir
           Demo.file_size Demo.t_oid Demo.state
           {| filename := Demo.t_path; compressionType := COMPRESSION_PG_LZ;
              stripeRowCount := 20000; opt_blockRowCount := 10000 |}
           {| st_size := 200; st_isdir := false |}
           {| st_size := 40; st_isdir := false |});
    first [reflexivity | (vm_compute; discriminate)].
Defined.

(** Two files of 2^62 bytes each (sparse files can be that large): both
    [stat] calls succeed, and the int64 accumulator wraps around, so the
    result is -2^63 and not the sum 2^63. *)
Lemma cstore_table_size_sum_out_of_range :
  let huge (c : FileContent) : Z := 2 ^ 62 in
  CStoreTable PG.NAMEDATALEN Demo.cat Demo.t_oid = Ok true ∧
  (stat huge Demo.t_path Demo.state).1
  = Ok (Some {| st_size := 2 ^ 62; st_isdir := false |}) ∧
  (stat huge (Demo.t_path +:+ ".footer") Demo.state).1
  = Ok (Some {| st_size := 2 ^ 62; st_isdir := false |}) ∧
  (cstore_table_size PG.NAMEDATALEN PG.pg_atoi PG.DataDir huge
     Demo.t_oid Demo.state).1 = Ok (- 2 ^ 63) ∧
  (cstore_table_size PG.NAMEDATALEN PG.pg_atoi PG.DataDir huge
     Demo.t_oid Demo.state).1 ≠ Ok (2 ^ 62 + 2 ^ 62).
Proof. by vm_compute. Qed.

Example cstore_table_size_samples :
  (cstore_table_size PG.NAMEDATALEN PG.pg_atoi PG.DataDir Demo.file_size
     Demo.t_oid Demo.state).1 = Ok 240 ∧
  (cstore_table_size PG.NAMEDATALEN PG.pg_atoi PG.DataDir Demo.file_size
     Demo.v_oid Demo.state).1 = Raise NotACStoreTable ∧
  (cstore_table_size PG.NAMEDATALEN PG.pg_atoi PG.DataDir Demo.file_size
     0%N Demo.state).1 = Raise NotACStoreTable ∧
  (cstore_table_size PG.NAMEDATALEN PG.pg_atoi PG.DataDir Demo.file_size
     Demo.t_oid Demo.state_no_files)
  = (Raise (CouldNotStatFile Demo.t_path),
     {| catalog := Demo.cat; fs := ∅; events := [SysStat Demo.t_path] |}).
Proof. by vm_compute. Qed.

Example DeleteCStoreTableFiles_samples :
  events (DeleteCStoreTableFiles Demo.t_path Demo.state).2
  = [SysUnlink "/srv/cstore/t.cstore.footer"; SysUnlink "/srv/cstore/t.cstore"] ∧
  fs (DeleteCStoreTableFiles Demo.t_path Demo.state).2 = ∅ ∧
  events (DeleteCStoreTableFiles Demo.t_path Demo.state_locked_footer).2
  = [SysUnlink "/srv/cstore/t.cstore.footer";
     Warning (CouldNotDeleteFile "/srv/cstore/t.cstore.footer");
     SysUnlink "/srv/cstore/t.cstore"] ∧
  fs (DeleteCStoreTableFiles Demo.t_path Demo.state_locked_footer).2 !! Demo.t_path
  = None ∧
  (DeleteCStoreTableFiles Demo.t_path Demo.state_no_files)
  = (Ok tt,
     {| catalog := Demo.cat; fs := ∅;
        events := [SysUnlink "/srv/cstore/t.cstore.footer";
                   Warning (CouldNotDeleteFile "/srv/cstore/t.cstore.footer");
                   SysUnlink "/srv/cstore/t.cstore";
                   Warning (CouldNotDeleteFile "/srv/cstore/t.cstore")] |}).
Proof. by vm_compute. Qed.

Example CStoreReScanForeignScan_samples :
  (CStoreReScanForeignScan PG.NAMEDATALEN PG.pg_atoi PG.DataDir
     PG.EXEC_FLAG_EXPLAIN_ONLY Demo.scan_of_t Demo.state)
  = (Ok (set_fdw_state
           (Some {| tableFile := Demo.t_path;
                    tableFooter := Demo.t_footer;
                    tupleDescriptor := [23%N; 25%N];
                    projectedColumnList := [ {| varattno := 1 |}; {| varattno := 2 |} ];
                    whereClauseList := [];
                    stripeData := None;
                    readStripeCount := 0;
                    stripeReadRowCount := 0 |}) Demo.scan_of_t),
     {| catalog := Demo.cat; fs := Demo.files;
        events := [SysClose "/srv/cstore/t.cstore";
                   SysOpen "/srv/cstore/t.cstore.footer";
                   SysOpen "/srv/cstore/t.cstore"] |}) ∧
  (CStoreReScanForeignScan PG.NAMEDATALEN PG.pg_atoi PG.DataDir
     PG.EXEC_FLAG_EXPLAIN_ONLY Demo.scan_of_t Demo.state_no_files).1
  = Raise (CouldNotOpenFile "/srv/cstore/t.cstore.footer").
Proof. by vm_compute. Qed.

Lemma empty_write_session_reads_back_empty_witness :
  writable (fs Demo.state_no_files) Demo.t_path = true ∧
  writable (fs Demo.state_no_files) (Demo.t_path +:+ ".footer") = true ∧
  ∃ st2 rs st3 rs' st4,
    cstore_ddl_event_end_trigger PG.NAMEDATALEN PG.pg_atoi PG.DataDir Demo.file_size
      12345%N Demo.stripe_lengths true (T_CreateForeignTableStmt "t")
      Demo.state_no_files = (Ok tt, st2) ∧
    (content <$> fs st2 !! (Demo.t_path +:+ ".footer"))
    = Some (FooterData {| stripeMetadataList := [];
                          blockRowCount := to_uint64 10000 |}) ∧
    CStoreBeginRead Demo.t_path [23%N; 25%N] [ {| varattno := 1 |} ] [] st2
    = (Ok rs, st3) ∧
    CStoreReadNextRow rs st3 = (Ok (None, rs'), st4).
Proof.
  split; [reflexivity|]. split; [reflexivity|].
  destruct (empty_write_session_reads_back_empty PG.NAMEDATALEN PG.pg_atoi
              PG.DataDir Demo.file_size 12345%N Demo.stripe_lengths
              Demo.t_path COMPRESSION_PG_LZ 20000 10000 [23%N; 25%N]
              [ {| varattno := 1 |} ] [] Demo.state_no_files eq_refl eq_refl)
    as (ws & st1 & st2 & rs & st3 & rs' & st4 & _ & _ & Hf & _ & Hr & _ & Hn & Ht).
  exists st2, rs, st3, rs', st4.
  split; [|split; [exact Hf|split; [exact Hr|exact Hn]]].
  apply (Ht "t" Demo.t_oid
           {| relkind := "f"; rd_node_dbNode := 12345%N;
              rd_node_relNode := 16385%N; rd_att := [23%N; 25%N] |}
           {| filename := Demo.t_path; compressionType := COMPRESSION_PG_LZ;
              stripeRowCount := 20000; opt_blockRowCount := 10000 |});
    reflexivity.
Defined.

(** Three rows written with two rows per stripe come back in order, then
    end-of-data; a column outside the projection comes back null. *)
Example write_then_read_rows :
  let columns := [ {| varattno := 1 |}; {| varattno := 2 |} ] in
  let session (projection : list Var) : M (list (option Row)) :=
    (let* ws := CStoreBeginWrite "/x" COMPRESSION_NONE 2 10000 [23%N; 25%N] in
     let* ws := CStoreWriteRow Demo.stripe_lengths ws [1; 10] [false; false] in
     let* ws := CStoreWriteRow Demo.stripe_lengths ws [2; 0] [false; true] in
     let* ws := CStoreWriteRow Demo.stripe_lengths ws [3; 30] [false; false] in
     run CStoreEndWrite Demo.stripe_lengths ws then
     let* rs := CStoreBeginRead "/x" [23%N; 25%N] projection [] in
     let* r1 := CStoreReadNextRow rs in
     let* r2 := CStoreReadNextRow r1.2 in
     let* r3 := CStoreReadNextRow r2.2 in
     let* r4 := CStoreReadNextRow r3.2 in
     ret [r1.1; r2.1; r3.1; r4.1]) in
  (session columns Demo.state_no_files).1
  = Ok [Some [Some 1; Some 10]; Some [Some 2; None]; Some [Some 3; Some 30]; None] ∧
  (session [ {| varattno := 2 |} ] Demo.state_no_files).1
  = Ok [Some [None; Some 10]; Some [None; None]; Some [None; Some 30]; None] ∧
  (content <$> fs (session columns Demo.state_no_files).2 !! "/x.footer")
  = Some (FooterData
            {| stripeMetadataList :=
                 [ {| fileOffset := 0; skipListLength := 8; dataLength := 200;
                      footerLength := 8 |};
                   {| fileOffset := 216; skipListLength := 8; dataLength := 100;
                      footerLength := 8 |} ];
               blockRowCount := 10000 |}).
Proof. by vm_compute. Qed.

(** ** The further properties on the same installation *)

Lemma CStoreTable_true_iff_witness :
  (10 < PG.NAMEDATALEN)%nat ∧
  CStoreTable PG.NAMEDATALEN Demo.cat Demo.t_oid = Ok true ∧
  CStoreTable PG.NAMEDATALEN Demo.cat Demo.v_oid ≠ Ok true ∧
  CStoreTable PG.NAMEDATALEN Demo.cat InvalidOid = Ok false.
Proof.
  assert ((10 < PG.NAMEDATALEN)%nat) as Hn by (unfold PG.NAMEDATALEN; lia).
  assert (∀ id w, pg_foreign_data_wrapper Demo.cat !! id = Some w →
                  nul_free (fdwname w) = true) as Hw.
  { intros id w H. unfold Demo.cat in H. cbn [pg_foreign_data_wrapper] in H.
    apply lookup_insert_Some in H as [[_ <-]|[_ H]]; [reflexivity|].
    apply lookup_singleton_Some in H as [_ <-]. reflexivity. }
  split; [exact Hn|].
  destruct (CStoreTable_true_iff PG.NAMEDATALEN Demo.cat Demo.t_oid Hn Hw)
    as (Ht & H0 & _).
  destruct (CStoreTable_true_iff PG.NAMEDATALEN Demo.cat Demo.v_oid Hn Hw)
    as (Hv & _).
  split; [|split; [|exact H0]].
  - apply Ht. split; [discriminate|].
    exists {| relkind := "f"; rd_node_dbNode := 12345%N;
              rd_node_relNode := 16385%N; rd_att := [23%N; 25%N] |},
           {| ft_serverid := 16384%N;
              ft_options :=
                [ {| defname := "filename"; defarg := Demo.t_path |};
                  {| defname := "compression"; defarg := "pglz" |};
                  {| defname := "stripe_row_count"; defarg := "20000" |} ] |},
           {| srv_fdwid := 16383%N; srv_options := [] |},
           {| fdwname := "cstore_fdw" |}.
    repeat split; reflexivity.
  - intros H. apply Hv in H as (_ & r & ft & srv & w & _ & _ & Hft & Hsrv & Hfdw & Hname).
    vm_compute in Hft. injection Hft as <-.
    vm_compute in Hsrv. injection Hsrv as <-.
    vm_compute in Hfdw. injection Hfdw as <-.
    discriminate Hname.
Defined.

Lemma CStoreGetOptionValue_table_before_server_witness :
  nul_free "compression" = true ∧
  (String.length "compression" < PG.NAMEDATALEN)%nat ∧
  CStoreGetOptionValue PG.NAMEDATALEN Demo.cat Demo.t_oid "compression"
  = Ok (Some "pglz") ∧
  CStoreGetOptionValue PG.NAMEDATALEN Demo.cat 99%N "compression"
  = Raise (CacheLookupFailed 99%N).
Proof.
  assert ((String.length "compression" < PG.NAMEDATALEN)%nat) as Hn
    by (unfold PG.NAMEDATALEN; cbn; lia).
  destruct (CStoreGetOptionValue_table_before_server PG.NAMEDATALEN Demo.cat
              Demo.t_oid "compression" eq_refl Hn) as (Hfound & _).
  destruct (CStoreGetOptionValue_table_before_server PG.NAMEDATALEN Demo.cat
              99%N "compression" eq_refl Hn) as (_ & Hmissing & _).
  split; [reflexivity|]. split; [exact Hn|]. split; [|by apply Hmissing].
  apply (Hfound
           {| ft_serverid := 16384%N;
              ft_options :=
                [ {| defname := "filename"; defarg := Demo.t_path |};
                  {| defname := "compression"; defarg := "pglz" |};
                  {| defname := "stripe_row_count"; defarg := "20000" |} ] |}
           {| srv_fdwid := 16383%N; srv_options := [] |});
    first [reflexivity | repeat constructor].
Defined.

Lemma CStoreGetOptions_result_in_range_witness :
  CStoreGetOptions PG.NAMEDATALEN PG.pg_atoi PG.DataDir Demo.cat Demo.u_oid
  = Ok {| filename := "/var/lib/postgresql/data/cstore_fdw/12345/16386";
          compressionType := COMPRESSION_NONE;
          stripeRowCount := 150000; opt_blockRowCount := 10000 |} ∧
  1000 ≤ 150000 ≤ 10000000 ∧ 1000 ≤ 10000 ≤ 100000.
Proof.
  split; [reflexivity|].
  apply (CStoreGetOptions_result_in_range PG.NAMEDATALEN PG.pg_atoi PG.DataDir
           Demo.cat Demo.u_oid
           {| filename := "/var/lib/postgresql/data/cstore_fdw/12345/16386";
              compressionType := COMPRESSION_NONE;
              stripeRowCount := 150000; opt_blockRowCount := 10000 |} eq_refl).
Defined.

Lemma CStoreDefaultFilePath_injective_witness :
  CStoreDefaultFilePath PG.DataDir Demo.cat Demo.u_oid
  = Ok "/var/lib/postgresql/data/cstore_fdw/12345/16386" ∧
  ∃ r1 r2, pg_class Demo.cat !! Demo.u_oid = Some r1 ∧
           pg_class Demo.cat !! Demo.u_oid = Some r2 ∧
           rd_node_dbNode r1 = rd_node_dbNode r2 ∧
           rd_node_relNode r1 = rd_node_relNode r2 ∧
           "/var/lib/postgresql/data/cstore_fdw/12345/16386"
           = PG.DataDir +:+ "/cstore_fdw/" +:+ format_u (rd_node_dbNode r1)
               +:+ "/" +:+ format_u (rd_node_relNode r1).
Proof.
  split; [reflexivity|].
  apply (CStoreDefaultFilePath_injective PG.DataDir Demo.cat Demo.u_oid Demo.u_oid
           "/var/lib/postgresql/data/cstore_fdw/12345/16386" eq_refl eq_refl).
Defined.

Lemma cstore_fdw_validator_spec_witness :
  (16 < PG.NAMEDATALEN)%nat ∧
  cstore_fdw_validator PG.NAMEDATALEN PG.pg_atoi PG.ForeignTableRelationId
    [ {| defname := "block_row_count"; defarg := "500" |};
      {| defname := "compression"; defarg := "lz4" |};
      {| defname := "block_row_count"; defarg := "5000" |} ]
    PG.ForeignTableRelationId = Ok tt ∧
  cstore_fdw_validator PG.NAMEDATALEN PG.pg_atoi PG.ForeignTableRelationId
    [ {| defname := "compression"; defarg := "lz4" |};
      {| defname := "Compression"; defarg := "lz4" |} ]
    PG.ForeignTableRelationId
  = Raise (InvalidOptionName "Compression"
             "filename, compression, stripe_row_count, block_row_count") ∧
  cstore_fdw_validator PG.NAMEDATALEN PG.pg_atoi PG.ForeignTableRelationId
    [ {| defname := "compression"; defarg := "lz4" |} ] 1417%N
  = Raise (InvalidOptionName "compression" "").
Proof.
  assert ((16 < PG.NAMEDATALEN)%nat) as Hn by (unfold PG.NAMEDATALEN; lia).
  split; [exact Hn|]. split; [|split].
  - rewrite (cstore_fdw_validator_spec PG.NAMEDATALEN PG.pg_atoi
               PG.ForeignTableRelationId _ _ Hn) by (repeat constructor).
    reflexivity.
  - rewrite (cstore_fdw_validator_spec PG.NAMEDATALEN PG.pg_atoi
               PG.ForeignTableRelationId _ _ Hn) by (repeat constructor).
    reflexivity.
  - rewrite (cstore_fdw_validator_spec PG.NAMEDATALEN PG.pg_atoi
               PG.ForeignTableRelationId _ _ Hn) by (repeat constructor).
    reflexivity.
Defined.
Lemma PageCount_spec_witness :
  0 < PG.BLCKSZ ≤ 32768 ∧
  ∃ n, PageCount Demo.file_size PG.BLCKSZ Demo.t_path Demo.state
       = (Ok n, emit (SysStat Demo.t_path) Demo.state) ∧
       (n - 1) * PG.BLCKSZ < 200 ≤ n * PG.BLCKSZ.
Proof.
  assert (0 < PG.BLCKSZ ≤ 32768) as Hb by (unfold PG.BLCKSZ; lia).
  split; [exact Hb|].
  destruct (PageCount_spec Demo.file_size PG.BLCKSZ Demo.t_path Demo.state Hb)
    as (n & Hrun & _ & _ & Hsize).
  exists n. split; [exact Hrun|].
  destruct (Hsize {| content := Demo.t_data; immutable := false |} eq_refl)
    as (_ & Hn); [vm_compute; split; discriminate|].
  exact (Hn eq_refl).
Defined.

Lemma CStoreAnalyzeForeignTable_spec_witness :
  0 < PG.BLCKSZ ≤ 32768 ∧
  (∃ n st',
     CStoreAnalyzeForeignTable PG.NAMEDATALEN PG.pg_atoi PG.DataDir Demo.file_size
       PG.BLCKSZ Demo.t_oid Demo.state = (Ok (true, n), st') ∧ 1 ≤ n) ∧
  CStoreAnalyzeForeignTable PG.NAMEDATALEN PG.pg_atoi PG.DataDir Demo.file_size
    PG.BLCKSZ Demo.t_oid Demo.state_no_files
  = (Raise (CouldNotStatFile Demo.t_path),
     emit (SysStat Demo.t_path) Demo.state_no_files).
Proof.
  assert (0 < PG.BLCKSZ ≤ 32768) as Hb by (unfold PG.BLCKSZ; lia).
  split; [exact Hb|].
  destruct (CStoreAnalyzeForeignTable_spec PG.NAMEDATALEN PG.pg_atoi PG.DataDir
              Demo.file_size PG.BLCKSZ Demo.t_oid Demo.state
              {| filename := Demo.t_path; compressionType := COMPRESSION_PG_LZ;
                 stripeRowCount := 20000; opt_blockRowCount := 10000 |}
              Hb eq_refl) as (_ & Hsome).
  destruct (CStoreAnalyzeForeignTable_spec PG.NAMEDATALEN PG.pg_atoi PG.DataDir
              Demo.file_size PG.BLCKSZ Demo.t_oid Demo.state_no_files
              {| filename := Demo.t_path; compressionType := COMPRESSION_PG_LZ;
                 stripeRowCount := 20000; opt_blockRowCount := 10000 |}
              Hb eq_refl) as (Hnone & _).
  split.
  - destruct Hsome as (n & st' & Hrun & _ & Hn & _); [by eexists|].
    exists n, st'. split; [exact Hrun|lia].
  - by apply Hnone.
Defined.

Lemma ColumnList_spec_witness :
  max_attr Demo.t_rel < 32767 ∧
  ({| varattno := 1 |} ∈ ColumnList Demo.pull_var_clause Demo.t_rel) ∧
  ({| varattno := 0 |} ∉ ColumnList Demo.pull_var_clause Demo.t_rel) ∧
  NoDup (ColumnList Demo.pull_var_clause Demo.t_rel).
Proof.
  assert (max_attr Demo.t_rel < 32767) as Hmax by reflexivity.
  destruct (ColumnList_spec Demo.pull_var_clause Demo.t_rel Hmax) as (Hin & _ & Hnd).
  split; [exact Hmax|]. split; [|split; [|exact Hnd]].
  - apply Hin. split; [|by vm_compute].
    right. exists {| clause := {| opno := 97%N; leftColumn := 1; rightConst := 5 |};
                     pseudoconstant := false |}.
    split; [apply list_elem_of_here|apply list_elem_of_here].
  - intros H. apply Hin in H as (_ & Hlow & _). by vm_compute in Hlow.
Defined.

Lemma explain_only_scan_opens_no_file_witness :
  Z.land 1 PG.EXEC_FLAG_EXPLAIN_ONLY ≠ 0 ∧
  CStoreBeginForeignScan PG.NAMEDATALEN PG.pg_atoi PG.DataDir
    PG.EXEC_FLAG_EXPLAIN_ONLY Demo.explain_scan_of_t 1 Demo.state_no_files
  = (Ok Demo.explain_scan_of_t, Demo.state_no_files) ∧
  CStoreEndForeignScan Demo.explain_scan_of_t Demo.state_no_files
  = (Ok tt, Demo.state_no_files).
Proof.
  assert (Z.land 1 PG.EXEC_FLAG_EXPLAIN_ONLY ≠ 0) as Hflag by (vm_compute; discriminate).
  split; [exact Hflag|].
  destruct (explain_only_scan_opens_no_file PG.NAMEDATALEN PG.pg_atoi PG.DataDir
              Demo.file_size PG.EXEC_FLAG_EXPLAIN_ONLY Demo.explain_scan_of_t 1
              {| costs := true |} Demo.state_no_files Hflag eq_refl)
    as (Hbegin & Hend & _).
  split; [exact Hbegin|exact Hend].
Defined.

Lemma planned_scan_reads_ColumnList_witness :
  let scanState :=
    {| ss_currentRelation := Demo.t_oid;
       ss_plan := CStoreGetForeignPlan Demo.pull_var_clause Demo.t_rel
                    (baserestrictinfo Demo.t_rel);
       ss_ScanTupleSlot := ss_ScanTupleSlot Demo.scan_of_t;
       fdw_state := None |} in
  (CStoreBeginForeignScan PG.NAMEDATALEN PG.pg_atoi PG.DataDir
     PG.EXEC_FLAG_EXPLAIN_ONLY scanState 0 Demo.state).1 ≠ Raise NullDereference.
Proof.
  intros scanState.
  apply (planned_scan_reads_ColumnList PG.NAMEDATALEN PG.pg_atoi PG.DataDir
           PG.EXEC_FLAG_EXPLAIN_ONLY Demo.pull_var_clause Demo.t_rel
           (baserestrictinfo Demo.t_rel) scanState Demo.state eq_refl).
Defined.

Lemma CStoreProcessUtility_drop_witness :
  CStoreTable PG.NAMEDATALEN Demo.cat
    (RangeVarGetRelid_missing_ok Demo.cat "t") = Ok true ∧
  CStoreProcessUtility PG.NAMEDATALEN PG.pg_atoi PG.DataDir Demo.stripe_lengths
    true Demo.BeginCopyFrom Demo.standard_ProcessUtility None
    (T_DropStmt Demo.drop_v_t_w) true Demo.state
  = (Ok (Some "DROP FOREIGN TABLE"),
     {| catalog := Demo.cat; fs := ∅;
        events := [SysUnlink "/srv/cstore/t.cstore.footer";
                   SysUnlink "/srv/cstore/t.cstore"] |}).
Proof.
  split; [reflexivity|].
  destruct (CStoreProcessUtility_drop PG.NAMEDATALEN PG.pg_atoi PG.DataDir
              Demo.stripe_lengths true Demo.BeginCopyFrom
              Demo.standard_ProcessUtility None Demo.drop_v_t_w true Demo.state
              ["v"] "t" ["w"] eq_refl eq_refl) as (Hdrop & _).
  - intros n Hn. apply list_elem_of_singleton in Hn as ->.
    exists false. split; [reflexivity|discriminate].
  - reflexivity.
  - rewrite (Hdrop {| filename := Demo.t_path; compressionType := COMPRESSION_PG_LZ;
                      stripeRowCount := 20000; opt_blockRowCount := 10000 |} eq_refl).
    + reflexivity.
    + intros n Hn. apply list_elem_of_singleton in Hn as ->. reflexivity.
Defined.

Lemma CopyIntoCStoreTable_spec_witness :
  (CopyIntoCStoreTable PG.NAMEDATALEN PG.pg_atoi PG.DataDir Demo.stripe_lengths
     false Demo.BeginCopyFrom Demo.copy_into_t Demo.state).1 = Ok 3 ∧
  ∃ relationId relation opts rows st1,
    RangeVarGetRelid Demo.cat "t" = Ok relationId ∧
    relation_open Demo.cat relationId = Ok relation ∧
    CStoreGetOptions PG.NAMEDATALEN PG.pg_atoi PG.DataDir Demo.cat relationId
    = Ok opts ∧
    Demo.BeginCopyFrom relation None false [] Demo.state = (Ok rows, st1) ∧
    3 = Z.of_nat (length rows) mod 2 ^ 64.
Proof.
  split; [reflexivity|].
  destruct (CopyIntoCStoreTable_spec PG.NAMEDATALEN PG.pg_atoi PG.DataDir
              Demo.stripe_lengths false Demo.BeginCopyFrom
              Demo.standard_ProcessUtility None Demo.copy_into_t Demo.state)
    as (_ & _ & Hreturns & _).
  destruct (CopyIntoCStoreTable PG.NAMEDATALEN PG.pg_atoi PG.DataDir
              Demo.stripe_lengths false Demo.BeginCopyFrom Demo.copy_into_t
              Demo.state) as [r st'] eqn:Hrun.
  assert (r = Ok 3) as -> by (apply (f_equal fst) in Hrun; vm_compute in Hrun; done).
  apply (Hreturns 3 st' eq_refl).
Defined.
Lemma CreateCStoreDatabaseDirectory_spec_witness :
  walk_errno Demo.files_pgdata "/var/lib/postgresql/data/cstore_fdw" = None ∧
  parent_immutable Demo.files_pgdata "/var/lib/postgresql/data/cstore_fdw" = false ∧
  ∃ st',
    CreateCStoreDatabaseDirectory PG.DataDir Demo.file_size 12345%N Demo.state_pgdata
    = (Ok tt, st') ∧
    (content <$> fs st' !! "/var/lib/postgresql/data/cstore_fdw") = Some Directory ∧
    (content <$> fs st' !! "/var/lib/postgresql/data/cstore_fdw/12345")
    = Some Directory.
Proof.
  split; [reflexivity|]. split; [reflexivity|].
  destruct (CreateCStoreDatabaseDirectory_spec PG.DataDir Demo.file_size 12345%N
              Demo.state_pgdata) as (_ & _ & _ & _ & Hreturned & _ & Hreturns).
  destruct Hreturns as (st' & Hrun); try reflexivity.
  - intros (f & Hf & _). vm_compute in Hf. discriminate Hf.
  - intros (f & Hf & _). vm_compute in Hf. discriminate Hf.
  - intros f Hf. vm_compute in Hf. discriminate Hf.
  - exists st'. split; [exact Hrun|].
    destruct (Hreturned st' Hrun) as (_ & _ & Hdir & Hdbdir & _).
    split; [exact Hdir|exact Hdbdir].
Defined.

(** CREATE SERVER on a fresh data directory makes both directories; what
    it raises when the data directory is a file, is missing, or takes no new
    entries, and when a file is where the first directory should be. *)
Example CreateCStoreDatabaseDirectory_samples :
  let create := CreateCStoreDatabaseDirectory PG.DataDir Demo.file_size 12345%N in
  let dir := "/var/lib/postgresql/data/cstore_fdw" in
  let dbdir := "/var/lib/postgresql/data/cstore_fdw/12345" in
  let file := {| content := OtherData []; immutable := false |} in
  (create Demo.state_pgdata).1 = Ok tt ∧
  events (create Demo.state_pgdata).2
  = [SysStat dir; SysMkdir dir; SysStat dbdir; SysMkdir dbdir] ∧
  create (Demo.state_pgdata_as file)
  = (Raise (CouldNotStatDirectory dir), emit (SysStat dir) (Demo.state_pgdata_as file)) ∧
  create Demo.state_no_files
  = (Raise (CouldNotCreateDirectory dir),
     emit (SysMkdir dir) (emit (SysStat dir) Demo.state_no_files)) ∧
  (create (Demo.state_pgdata_as {| content := Directory; immutable := true |})).1
  = Raise (CouldNotCreateDirectory dir) ∧
  (create (set_fs (insert dir file) Demo.state_pgdata)).1 = Raise (NotADirectory dir) ∧
  (create (set_fs (insert dbdir file) (create Demo.state_pgdata).2)).1
  = Raise (NotADirectory dbdir).
Proof. by vm_compute. Qed.

Lemma cstore_ddl_event_end_trigger_inert_witness :
  RangeVarGetRelid Demo.cat "v" = Ok Demo.v_oid ∧
  CStoreTable PG.NAMEDATALEN Demo.cat Demo.v_oid = Ok false ∧
  cstore_ddl_event_end_trigger PG.NAMEDATALEN PG.pg_atoi PG.DataDir Demo.file_size
    12345%N Demo.stripe_lengths true (T_CreateForeignTableStmt "v")
    Demo.state_no_files = (Ok tt, Demo.state_no_files) ∧
  cstore_ddl_event_end_trigger PG.NAMEDATALEN PG.pg_atoi PG.DataDir Demo.file_size
    12345%N Demo.stripe_lengths true (T_CreateForeignTableStmt "w")
    Demo.state_no_files = (Raise (RelationDoesNotExist "w"), Demo.state_no_files).
Proof.
  split; [reflexivity|]. split; [reflexivity|].
  destruct (cstore_ddl_event_end_trigger_inert PG.NAMEDATALEN PG.pg_atoi PG.DataDir
              Demo.file_size 12345%N Demo.stripe_lengths T_OtherStmt
              Demo.state_no_files) as (_ & _ & _ & _ & Hother & Hmissing).
  split.
  - apply (Hother "v" Demo.v_oid); reflexivity.
  - apply (Hmissing "w" (RelationDoesNotExist "w")). reflexivity.
Defined.

Lemma CStoreProcessUtility_passes_on_witness :
  CStoreProcessUtility PG.NAMEDATALEN PG.pg_atoi PG.DataDir Demo.stripe_lengths
    false Demo.BeginCopyFrom Demo.standard_ProcessUtility None
    (T_DropStmt {| objects := ["v"; "w"]; removeType := OBJECT_FOREIGN_TABLE |})
    true Demo.state
  = (Ok (Some "DROP FOREIGN TABLE"), Demo.state).
Proof.
  destruct (CStoreProcessUtility_passes_on PG.NAMEDATALEN PG.pg_atoi PG.DataDir
              Demo.stripe_lengths false Demo.BeginCopyFrom
              Demo.standard_ProcessUtility None true Demo.state)
    as (_ & _ & _ & _ & Hdrop).
  rewrite Hdrop; [reflexivity|].
  intros n Hn. apply elem_of_cons in Hn as [->|Hn]; [reflexivity|].
  apply list_elem_of_singleton in Hn as ->. reflexivity.
Defined.

Example cstore_fdw_validator_samples :
  cstore_fdw_validator PG.NAMEDATALEN PG.pg_atoi PG.ForeignTableRelationId
    [] PG.ForeignTableRelationId = Ok tt ∧
  cstore_fdw_validator PG.NAMEDATALEN PG.pg_atoi PG.ForeignTableRelationId
    [ {| defname := "stripe_row_count"; defarg := "999" |} ] PG.ForeignTableRelationId
  = Raise InvalidStripeRowCount ∧
  cstore_fdw_validator PG.NAMEDATALEN PG.pg_atoi PG.ForeignTableRelationId
    [ {| defname := "stripe_row_count"; defarg := "999" |};
      {| defname := "colour"; defarg := "red" |} ] PG.ForeignTableRelationId
  = Raise (InvalidOptionName "colour"
             "filename, compression, stripe_row_count, block_row_count") ∧
  OptionNamesString PG.ForeignTableRelationId 1417%N = "".
Proof. by vm_compute. Qed.

Example PageCount_samples :
  (PageCount Demo.file_size PG.BLCKSZ Demo.t_path Demo.state).1 = Ok 1 ∧
  (PageCount Demo.file_size PG.BLCKSZ Demo.t_path Demo.state_no_files).1 = Ok 10 ∧
  (PageCount (λ _, 8193) PG.BLCKSZ Demo.t_path Demo.state).1 = Ok 2 ∧
  (PageCount (λ _, 0) PG.BLCKSZ Demo.t_path Demo.state).1 = Ok 1.
Proof. by vm_compute. Qed.

Example ColumnList_samples :
  ColumnList Demo.pull_var_clause Demo.t_rel
  = [ {| varattno := 1 |}; {| varattno := 2 |} ] ∧
  CStoreGetForeignPlan Demo.pull_var_clause Demo.t_rel (baserestrictinfo Demo.t_rel)
  = {| fdw_private := [[ {| varattno := 1 |}; {| varattno := 2 |} ]];
       qual := [ {| opno := 97%N; leftColumn := 1; rightConst := 5 |} ] |}.
Proof. by vm_compute. Qed.

Example CStoreExplainForeignScan_samples :
  (CStoreExplainForeignScan PG.NAMEDATALEN PG.pg_atoi PG.DataDir Demo.file_size
     Demo.explain_scan_of_t {| costs := true |} Demo.state).1
  = Ok [PropertyText "CStore File" "/srv/cstore/t.cstore";
        PropertyLong "CStore File Size" 200] ∧
  (CStoreExplainForeignScan PG.NAMEDATALEN PG.pg_atoi PG.DataDir Demo.file_size
     Demo.explain_scan_of_t {| costs := false |} Demo.state)
  = (Ok [PropertyText "CStore File" "/srv/cstore/t.cstore"], Demo.state).
Proof. by vm_compute. Qed.

(** COPY of three rows into [t], 20000 rows per stripe: one stripe, and the
    tag the hook reports. *)
Example CopyIntoCStoreTable_samples :
  let outcome := CStoreProcessUtility PG.NAMEDATALEN PG.pg_atoi PG.DataDir
               Demo.stripe_lengths false Demo.BeginCopyFrom
               Demo.standard_ProcessUtility None (T_CopyStmt Demo.copy_into_t) true
               Demo.state_no_files in
  outcome.1 = Ok (Some "COPY 3") ∧
  (content <$> fs outcome.2 !! "/srv/cstore/t.cstore.footer")
  = Some (FooterData
            {| stripeMetadataList :=
                 [ {| fileOffset := 0; skipListLength := 8; dataLength := 300;
                      footerLength := 8 |} ];
               blockRowCount := 10000 |}).
Proof. by vm_compute. Qed.
